(** * MobileNLD-FL: the CMSIS comparison kernels (CMSISImplementation.c)

    A shallow embedding of the four entry points declared in CMSISBridge.h
    (the generic and the NLD-specialised Lyapunov routines, the two DFA
    placeholders) and of the performance-counter utilities, followed by
    the properties established about them.

    Conventions of the embedding.
    - [int], [int32_t] and [int16_t] values are integers of [Z]; every
      arithmetic result is brought back into range with [int_of] or
      [int16_of] (two's complement wrap-around, which is what the NEON
      lane operations specify and what the compiled scalar code does).
      [uint64_t] and [size_t] values are reduced with [uint64_of].
    - [double] values are IEEE binary64 numbers, Rocq's primitive floats.
    - A heap block is the list of its cells.  Reading or writing a cell
      outside the block is undefined behaviour: the run stops with
      [Undefined OutOfBounds].  A failed allocation (a request larger than
      PTRDIFF_MAX bytes) yields the null pointer, modelled as a block
      with no cell.  Fresh cells hold an arbitrary value [junk].
    - The monotonic clock is a sequence of readings [clock 0], [clock 1],
      ...; each call of [mach_absolute_time] consumes one.
    - The file-level counters are the record [globals]; code runs in a
      state-and-fault monad over it. *)

From Stdlib Require Import ZArith Lia.
From Stdlib Require Import Floats.PrimFloat Floats.SpecFloat Floats.FloatOps.
From stdpp Require Import base tactics option list list_numbers.

#[local] Open Scope Z_scope.

(** ** Machine integers *)

Definition wrap (bits z : Z) : Z :=
  (z + 2 ^ (bits - 1)) mod 2 ^ bits - 2 ^ (bits - 1).

Definition int16_of (z : Z) : Z := wrap 16 z.
Definition int_of (z : Z) : Z := wrap 32 z.
Definition uint64_of (z : Z) : Z := z mod 2 ^ 64.

Definition INT32_MAX : Z := 2147483647.
Definition PTRDIFF_MAX : Z := 2 ^ 63 - 1.

Definition is_int16 (z : Z) : Prop := -32768 <= z <= 32767.
Definition is_int (z : Z) : Prop := -2147483648 <= z <= 2147483647.

Definition add32 (a b : Z) : Z := int_of (a + b).
Definition sub32 (a b : Z) : Z := int_of (a - b).
Definition mul32 (a b : Z) : Z := int_of (a * b).

(** [(double)x] for an unsigned 64-bit [x]: round to nearest, ties to even. *)
Definition double_of_uint64 (z : Z) : float :=
  SF2Prim (binary_normalize prec emax z 0 false).

(** ** Outcomes, and the monad of the instrumented code *)

Inductive fault : Set := OutOfBounds | DivisionByZero | OutOfFuel.

Inductive outcome (A : Type) : Type :=
| Returns (a : A)
| Undefined (f : fault).
Arguments Returns {A} a.
Arguments Undefined {A} f.

(** The performance tracking globals, and the number of clock readings
    taken so far. *)
Record globals : Set := mk_globals {
  g_total_instructions : Z;
  g_simd_instructions : Z;
  g_start_time : Z;
  g_memory_accesses : Z;
  ticks : nat
}.

Definition M (A : Type) : Type := globals -> outcome (A * globals).

Definition ret {A} (a : A) : M A := fun g => Returns (a, g).
Definition fail {A} (f : fault) : M A := fun _ => Undefined f.
Definition bind {A B} (m : M A) (k : A -> M B) : M B :=
  fun g => match m g with
           | Returns (a, g') => k a g'
           | Undefined f => Undefined f
           end.

Notation "x <- m ;; k" := (bind m (fun x => k))
  (at level 100, m at next level, right associativity, only parsing).

Definition add_total_instructions (n : Z) : M unit := fun g =>
  Returns (tt, mk_globals (uint64_of (g_total_instructions g + uint64_of n))
                          (g_simd_instructions g) (g_start_time g)
                          (g_memory_accesses g) (ticks g)).
Definition add_simd_instructions (n : Z) : M unit := fun g =>
  Returns (tt, mk_globals (g_total_instructions g)
                          (uint64_of (g_simd_instructions g + uint64_of n))
                          (g_start_time g) (g_memory_accesses g) (ticks g)).
Definition add_memory_accesses (n : Z) : M unit := fun g =>
  Returns (tt, mk_globals (g_total_instructions g) (g_simd_instructions g)
                          (g_start_time g)
                          (uint64_of (g_memory_accesses g + uint64_of n))
                          (ticks g)).

(** [for (; cond k; k = next k) body]: the loop variable starts at [k] and
    the final value is returned with the loop state.  [fuel] bounds the
    number of iterations; each call site passes the bound of its loop,
    which is enough whenever the loop variable does not wrap (the
    properties below show the loops they run through do return). *)
Fixpoint for_loop {S} (fuel : nat) (cond : Z -> bool) (next : Z -> Z)
    (body : Z -> S -> M S) (k : Z) (s : S) : M (Z * S) :=
  if cond k then
    match fuel with
    | O => fail OutOfFuel
    | Datatypes.S fuel' =>
        s' <- body k s ;; for_loop fuel' cond next body (next k) s'
    end
  else ret (k, s).

(** The iteration count of a loop that counts up to [n]. *)
Definition upto (n : Z) : nat := Z.to_nat n.

(** ** Heap blocks *)

Definition malloc {A} (junk : A) (bytes elem_size : Z) : list A :=
  if bytes <=? PTRDIFF_MAX then replicate (Z.to_nat (bytes / elem_size)) junk
  else [].

Definition load {A} (block : list A) (idx : Z) : M A :=
  if idx <? 0 then fail OutOfBounds
  else match block !! Z.to_nat idx with
       | Some v => ret v
       | None => fail OutOfBounds
       end.

Definition store {A} (block : list A) (idx : Z) (v : A) : M (list A) :=
  if (0 <=? idx) && (idx <? Z.of_nat (length block))
  then ret (<[Z.to_nat idx := v]> block)
  else fail OutOfBounds.

(** [memset(block, 0x7F, bytes)] on a block of [int16_t]: every cell
    covered becomes 0x7F7F. *)
Definition memset_7F (block : list Z) (bytes : Z) : M (list Z) :=
  if bytes <=? 2 * Z.of_nat (length block)
  then ret (replicate (Z.to_nat (bytes / 2)) 32639
              ++ drop (Z.to_nat (bytes / 2)) block)
  else fail OutOfBounds.

(** ** The NEON intrinsics used by the kernels

    An [int16x8_t] is the list of its eight lanes, an [int32x4_t] the list
    of its four lanes, lane 0 first. *)

Definition vld1q_s16 (block : list Z) (off : Z) : M (list Z) :=
  if (0 <=? off) && (off + 8 <=? Z.of_nat (length block))
  then ret (take 8 (drop (Z.to_nat off) block))
  else fail OutOfBounds.

Definition vst1q_s16 (block : list Z) (off : Z) (v : list Z) : M (list Z) :=
  if (0 <=? off) && (off + 8 <=? Z.of_nat (length block))
  then ret (take (Z.to_nat off) block ++ v ++ drop (Z.to_nat off + 8) block)
  else fail OutOfBounds.

Definition vsubq_s16 (a b : list Z) : list Z :=
  zip_with (fun x y => int16_of (x - y)) a b.
Definition vget_low_s16 (a : list Z) : list Z := take 4 a.
Definition vget_high_s16 (a : list Z) : list Z := drop 4 a.
Definition vmull_s16 (a b : list Z) : list Z :=
  zip_with (fun x y => x * y) a b.
Definition vaddq_s32 (a b : list Z) : list Z :=
  zip_with add32 a b.
Definition vaddvq_s32 (a : list Z) : Z := foldr add32 0 a.
Definition vdupq_n_s32 (x : Z) : list Z := replicate 4 x.
Definition vminq_s32 (a b : list Z) : list Z := zip_with Z.min a b.
Definition vminvq_s32 (a : list Z) : Z :=
  match a with
  | [] => 0
  | x :: a' => foldr Z.min x a'
  end.

(** ** The types of CMSISBridge.h *)

Module q15_vector_t.
Record t : Set := mk { data : list Z; length : Z }.
End q15_vector_t.

(** A signal the caller can really pass: [data] points to exactly [length]
    samples, each a 16-bit value. *)
Definition well_formed (signal : q15_vector_t.t) : Prop :=
  q15_vector_t.length signal
    = Z.of_nat (length (q15_vector_t.data signal))
  /\ Forall is_int16 (q15_vector_t.data signal).

Record performance_metrics_t : Set := mk_metrics {
  processing_time_ms : float;
  simd_utilization_percent : float;
  total_instructions : Z;
  simd_instructions : Z;
  memory_bandwidth_gb_s : float
}.

Definition set_processing_time_ms (m : performance_metrics_t) (t : float)
  : performance_metrics_t :=
  mk_metrics t (simd_utilization_percent m) (total_instructions m)
             (simd_instructions m) (memory_bandwidth_gb_s m).

Section Kernels.

(** The readings of the monotonic clock, the content of fresh heap cells
    and the content of an uninitialised [double]. *)
Variable clock : nat -> Z.
Variable junk : Z.
Variable junk_double : float.

(** ** Performance measurement utilities *)

Definition mach_absolute_time : M Z := fun g =>
  Returns (uint64_of (clock (ticks g)),
           mk_globals (g_total_instructions g) (g_simd_instructions g)
                      (g_start_time g) (g_memory_accesses g) (S (ticks g))).

Definition reset_performance_counters : M unit := fun g =>
  Returns (tt, mk_globals 0 0 (uint64_of (clock (ticks g))) 0 (S (ticks g))).

Definition get_globals : M globals := fun g => Returns (g, g).

Definition get_performance_metrics : M performance_metrics_t :=
  g <- get_globals ;;
  let utilization :=
    (double_of_uint64 (g_simd_instructions g)
       / double_of_uint64 (g_total_instructions g) * 100)%float in
  now <- mach_absolute_time ;;
  let time_ns := uint64_of (now - g_start_time g) in
  let time_s := (double_of_uint64 time_ns / 1000000000)%float in
  let bandwidth :=
    (double_of_uint64 (uint64_of (g_memory_accesses g * 2))
       / 1073741824 / time_s)%float in
  ret (mk_metrics junk_double utilization (g_total_instructions g)
                  (g_simd_instructions g) bandwidth).

Definition measure_simd_utilization : M float :=
  g <- get_globals ;;
  ret (double_of_uint64 (g_simd_instructions g)
         / double_of_uint64 (g_total_instructions g) * 100)%float.

(** ** The generic routine, [cmsis_compute_lyapunov_q15] *)

(** [signal->length - (embedding_dim - 1) * time_delay], computed in
    [size_t] and converted to [int]. *)
Definition phase_space_size (signal : q15_vector_t.t)
    (embedding_dim time_delay : Z) : Z :=
  int_of (uint64_of (q15_vector_t.length signal
                       - uint64_of (mul32 (sub32 embedding_dim 1) time_delay))).

(** Lines 32-42: one heap block per embedding vector.  The code stores the
    pointer of the fresh row in [phase_space[i]] and fills the row through
    it; here the row is filled and then stored, which is the same block
    of rows since nothing else refers to the row. *)
Definition cmsis_reconstruct (signal : q15_vector_t.t)
    (embedding_dim time_delay phase_space_size : Z) : M (list (list Z)) :=
  let phase_space : list (list Z) :=
    malloc [] (uint64_of (uint64_of phase_space_size * 8)) 8 in
  p <- for_loop (upto phase_space_size)
         (fun i => i <? phase_space_size) (fun i => add32 i 1)
         (fun i phase_space =>
            let row :=
              malloc junk (uint64_of (uint64_of embedding_dim * 2)) 2 in
            q <- for_loop (upto embedding_dim)
                   (fun j => j <? embedding_dim) (fun j => add32 j 1)
                   (fun j row =>
                      v <- load (q15_vector_t.data signal)
                             (add32 i (mul32 j time_delay)) ;;
                      row <- store row j v ;;
                      _ <- add_memory_accesses 1 ;;
                      ret row)
                   0 row ;;
            phase_space <- store phase_space i (snd q) ;;
            _ <- add_total_instructions (mul32 embedding_dim 2) ;;
            ret phase_space)
         0 phase_space ;;
  ret (snd p).

(** Lines 49-69: the accumulator [sum] for the pair of rows [i], [j]. *)
Definition cmsis_pair_sum (phase_space : list (list Z))
    (embedding_dim i j : Z) : M Z :=
  p <- for_loop (upto embedding_dim)
         (fun k => k <=? sub32 embedding_dim 8) (fun k => add32 k 8)
         (fun k sum =>
            row_i <- load phase_space i ;;
            row_j <- load phase_space j ;;
            a <- vld1q_s16 row_i k ;;
            b <- vld1q_s16 row_j k ;;
            let diff := vsubq_s16 a b in
            let prod_low := vmull_s16 (vget_low_s16 diff) (vget_low_s16 diff) in
            let prod_high :=
              vmull_s16 (vget_high_s16 diff) (vget_high_s16 diff) in
            let sum := add32 sum (vaddvq_s32 (vaddq_s32 prod_low prod_high)) in
            _ <- add_simd_instructions 5 ;;
            _ <- add_total_instructions 8 ;;
            ret sum)
         0 0 ;;
  q <- for_loop (upto embedding_dim)
         (fun k => k <? embedding_dim) (fun k => add32 k 1)
         (fun k sum =>
            row_i <- load phase_space i ;;
            row_j <- load phase_space j ;;
            x <- load row_i k ;;
            y <- load row_j k ;;
            let diff := sub32 x y in
            let sum := add32 sum (mul32 diff diff) in
            _ <- add_total_instructions 3 ;;
            ret sum)
         (fst p) (snd p) ;;
  ret (snd q).

(** Lines 45-74: the all-pairs table [distances]. *)
Definition cmsis_distances (phase_space : list (list Z))
    (embedding_dim phase_space_size : Z) : M (list Z) :=
  let distances : list Z :=
    malloc junk
      (uint64_of (uint64_of (mul32 phase_space_size phase_space_size) * 2)) 2 in
  p <- for_loop (upto phase_space_size)
         (fun i => i <? phase_space_size) (fun i => add32 i 1)
         (fun i distances =>
            q <- for_loop (upto phase_space_size)
                   (fun j => j <? phase_space_size) (fun j => add32 j 1)
                   (fun j distances =>
                      sum <- cmsis_pair_sum phase_space embedding_dim i j ;;
                      distances <- store distances
                                     (add32 (mul32 i phase_space_size) j)
                                     (int16_of (Z.shiftr sum 15)) ;;
                      _ <- add_memory_accesses 1 ;;
                      ret distances)
                   (add32 i 1) distances ;;
            ret (snd q))
         0 distances ;;
  ret (snd p).

(** Lines 80-82: every row pointer is read back and released. *)
Definition cmsis_cleanup (phase_space : list (list Z))
    (phase_space_size : Z) : M unit :=
  p <- for_loop (upto phase_space_size)
         (fun i => i <? phase_space_size) (fun i => add32 i 1)
         (fun i _ => _ <- load phase_space i ;; ret tt)
         0 tt ;;
  ret tt.

(** The second component of the result is the final content of [*result]. *)
Definition cmsis_compute_lyapunov_q15 (signal : q15_vector_t.t)
    (embedding_dim time_delay : Z) (result : Z)
  : M (performance_metrics_t * Z) :=
  _ <- reset_performance_counters ;;
  start <- mach_absolute_time ;;
  let phase_space_size := phase_space_size signal embedding_dim time_delay in
  phase_space <- cmsis_reconstruct signal embedding_dim time_delay
                   phase_space_size ;;
  distances <- cmsis_distances phase_space embedding_dim phase_space_size ;;
  let result := 0 in
  _ <- cmsis_cleanup phase_space phase_space_size ;;
  end_ <- mach_absolute_time ;;
  metrics <- get_performance_metrics ;;
  let metrics :=
    set_processing_time_ms metrics
      (double_of_uint64 (uint64_of (end_ - start)) / 1000000)%float in
  ret (metrics, result).

(** ** The specialised routine, [nld_compute_lyapunov_q15] *)

(** Lines 103-134: one contiguous block, vector [i] at offset
    [i * embedding_dim].  [aligned_alloc] is taken to behave as [malloc]. *)
Definition nld_reconstruct (signal : q15_vector_t.t)
    (embedding_dim time_delay phase_space_size : Z) : M (list Z) :=
  let data := q15_vector_t.data signal in
  let phase_space : list Z :=
    malloc junk
      (uint64_of (uint64_of (mul32 phase_space_size embedding_dim) * 2)) 2 in
  p <- for_loop (upto phase_space_size)
         (fun i => i <? phase_space_size) (fun i => add32 i 1)
         (fun i phase_space =>
            let row := mul32 i embedding_dim in
            q <- for_loop (upto embedding_dim)
                   (fun j => j <=? sub32 embedding_dim 8) (fun j => add32 j 8)
                   (fun j phase_space =>
                      v0 <- load data (add32 i (mul32 j time_delay)) ;;
                      v1 <- load data
                              (add32 i (mul32 (add32 j 1) time_delay)) ;;
                      v2 <- load data
                              (add32 i (mul32 (add32 j 2) time_delay)) ;;
                      v3 <- load data
                              (add32 i (mul32 (add32 j 3) time_delay)) ;;
                      v4 <- load data
                              (add32 i (mul32 (add32 j 4) time_delay)) ;;
                      v5 <- load data
                              (add32 i (mul32 (add32 j 5) time_delay)) ;;
                      v6 <- load data
                              (add32 i (mul32 (add32 j 6) time_delay)) ;;
                      v7 <- load data
                              (add32 i (mul32 (add32 j 7) time_delay)) ;;
                      let values := [v0; v1; v2; v3; v4; v5; v6; v7] in
                      phase_space <- vst1q_s16 phase_space (row + j) values ;;
                      _ <- add_simd_instructions 2 ;;
                      _ <- add_total_instructions 8 ;;
                      _ <- add_memory_accesses 8 ;;
                      ret phase_space)
                   0 phase_space ;;
            r <- for_loop (upto embedding_dim)
                   (fun j => j <? embedding_dim) (fun j => add32 j 1)
                   (fun j phase_space =>
                      v <- load data (add32 i (mul32 j time_delay)) ;;
                      phase_space <- store phase_space (row + j) v ;;
                      _ <- add_total_instructions 1 ;;
                      _ <- add_memory_accesses 1 ;;
                      ret phase_space)
                   (fst q) (snd q) ;;
            ret (snd r))
         0 phase_space ;;
  ret (snd p).

(** Lines 149-164: the four-lane accumulator [sum_vec] for the rows at
    offsets [row_i] and [row_j] of the contiguous block. *)
Definition nld_pair_sum_vec (phase_space : list Z)
    (embedding_dim row_i row_j : Z) : M (list Z) :=
  p <- for_loop (upto embedding_dim)
         (fun k => k <? embedding_dim) (fun k => add32 k 8)
         (fun k sum_vec =>
            a <- vld1q_s16 phase_space (row_i + k) ;;
            b <- vld1q_s16 phase_space (row_j + k) ;;
            let diff := vsubq_s16 a b in
            let prod_low := vmull_s16 (vget_low_s16 diff) (vget_low_s16 diff) in
            let prod_high :=
              vmull_s16 (vget_high_s16 diff) (vget_high_s16 diff) in
            let sum_vec := vaddq_s32 sum_vec (vaddq_s32 prod_low prod_high) in
            _ <- add_simd_instructions 6 ;;
            _ <- add_total_instructions 8 ;;
            ret sum_vec)
         0 (vdupq_n_s32 0) ;;
  ret (snd p).

(** Lines 146-167: what candidate [j] does to the running minimum of
    query [i]; a candidate inside the exclusion window is skipped. *)
Definition nld_candidate (phase_space : list Z)
    (embedding_dim time_delay i j : Z) (min_dist_vec : list Z)
  : M (list Z) :=
  if Z.abs (sub32 i j) <? time_delay then ret min_dist_vec
  else
    let row_i := mul32 i embedding_dim in
    let row_j := mul32 j embedding_dim in
    sum_vec <- nld_pair_sum_vec phase_space embedding_dim row_i row_j ;;
    ret (vminq_s32 min_dist_vec sum_vec).

(** Lines 143-168: the vector-wide running minimum of query [i]. *)
Definition nld_query (phase_space : list Z)
    (embedding_dim time_delay phase_space_size i : Z) : M (list Z) :=
  p <- for_loop (upto phase_space_size)
         (fun j => j <? phase_space_size) (fun j => add32 j 1)
         (nld_candidate phase_space embedding_dim time_delay i)
         0 (vdupq_n_s32 INT32_MAX) ;;
  ret (snd p).

(** Lines 137-174: the table [min_distances]. *)
Definition nld_min_distances (phase_space : list Z)
    (embedding_dim time_delay phase_space_size : Z) : M (list Z) :=
  let bytes := uint64_of (uint64_of phase_space_size * 2) in
  min_distances <- memset_7F (malloc junk bytes 2) bytes ;;
  p <- for_loop (upto phase_space_size)
         (fun i => i <? phase_space_size) (fun i => add32 i 1)
         (fun i min_distances =>
            min_dist_vec <- nld_query phase_space embedding_dim time_delay
                              phase_space_size i ;;
            let min_dist := vminvq_s32 min_dist_vec in
            min_distances <- store min_distances i
                               (int16_of (Z.shiftr min_dist 15)) ;;
            _ <- add_memory_accesses 1 ;;
            ret min_distances)
         0 min_distances ;;
  ret (snd p).

(** Lines 177-182: the placeholder average written to [*result]. *)
Definition nld_average (min_distances : list Z) (phase_space_size : Z)
  : M Z :=
  p <- for_loop (upto phase_space_size)
         (fun i => i <? phase_space_size) (fun i => add32 i 1)
         (fun i sum_log =>
            d <- load min_distances i ;;
            ret (add32 sum_log d))
         0 0 ;;
  let sum_log := snd p in
  if phase_space_size =? 0 then fail DivisionByZero
  else ret (int16_of (Z.quot sum_log phase_space_size)).

Definition nld_compute_lyapunov_q15 (signal : q15_vector_t.t)
    (embedding_dim time_delay : Z) (result : Z)
  : M (performance_metrics_t * Z) :=
  _ <- reset_performance_counters ;;
  start <- mach_absolute_time ;;
  let phase_space_size := phase_space_size signal embedding_dim time_delay in
  phase_space <- nld_reconstruct signal embedding_dim time_delay
                   phase_space_size ;;
  min_distances <- nld_min_distances phase_space embedding_dim time_delay
                     phase_space_size ;;
  result <- nld_average min_distances phase_space_size ;;
  end_ <- mach_absolute_time ;;
  metrics <- get_performance_metrics ;;
  let metrics :=
    set_processing_time_ms metrics
      (double_of_uint64 (uint64_of (end_ - start)) / 1000000)%float in
  ret (metrics, result).

(** ** The DFA entry points *)

(** Both bodies zero-initialise a metrics record, set one field and
    return; [*alpha] keeps the content it had on entry. *)
Definition cmsis_compute_dfa_q15 (signal : q15_vector_t.t)
    (min_box_size max_box_size : Z) (alpha : Z)
  : M (performance_metrics_t * Z) :=
  let metrics := mk_metrics 0 0 0 0 0 in
  let metrics :=
    mk_metrics (processing_time_ms metrics) 60 (total_instructions metrics)
               (simd_instructions metrics) (memory_bandwidth_gb_s metrics) in
  ret (metrics, alpha).

Definition nld_compute_dfa_q15 (signal : q15_vector_t.t)
    (min_box_size max_box_size : Z) (alpha : Z)
  : M (performance_metrics_t * Z) :=
  let metrics := mk_metrics 0 0 0 0 0 in
  let metrics :=
    mk_metrics (processing_time_ms metrics) 95 (total_instructions metrics)
               (simd_instructions metrics) (memory_bandwidth_gb_s metrics) in
  ret (metrics, alpha).

End Kernels.

(** * Definitions used by the statements *)

(** ** Loops over explicit ranges *)

(** The number of iterations of [for (k = lo; k < hi; k += st)]. *)
Definition trip_count (st lo hi : Z) : Z := Z.max 0 ((hi - lo + st - 1) / st).

(** The loop body run over an explicit list of indices. *)
Fixpoint foldM {S} (body : Z -> S -> M S) (l : list Z) (s : S) : M S :=
  match l with
  | [] => ret s
  | x :: l' => s' <- body x s ;; foldM body l' s'
  end.

(** ** Reconstruction *)

(** Every cell of the contiguous block below flat index [bound] holds its
    sample. *)
Definition filled (data : list Z) (embedding_dim time_delay : Z)
    (block : list Z) (bound : Z) : Prop :=
  forall i j, 0 <= i -> 0 <= j < embedding_dim ->
    i * embedding_dim + j < bound ->
    block !! Z.to_nat (i * embedding_dim + j)
    = data !! Z.to_nat (i + j * time_delay).

(** ** Squared distances *)

(** The distance of the specification, [sum_k (a[k] - b[k])^2], computed
    over the integers. *)
Definition squares (a b : list Z) : list Z :=
  zip_with (fun x y => (x - y) * (x - y)) a b.
Definition sumZ (l : list Z) : Z := foldr Z.add 0 l.
Definition exact_sqdist (a b : list Z) : Z := sumZ (squares a b).

(** Every component difference fits the 16-bit lanes of [vsubq_s16] and
    the exact distance fits the 32-bit accumulator. *)
Definition fits (a b : list Z) : Prop :=
  Forall2 (fun x y => is_int16 (x - y)) a b
  /\ exact_sqdist a b <= INT32_MAX.

(** ** Metrics derivation *)

(** A snapshot taken right after a counter reset. *)
Definition snapshot_after_reset (clock : nat -> Z) (junk_double : float)
  : M performance_metrics_t :=
  _ <- reset_performance_counters clock ;;
  get_performance_metrics clock junk_double.

Definition utilization_after_reset (clock : nat -> Z) : M float :=
  _ <- reset_performance_counters clock ;;
  measure_simd_utilization.

(** ** Closed inputs for the evaluations *)

Definition fresh_globals : globals := mk_globals 0 0 0 0 0.
Definition millisecond_clock (n : nat) : Z := Z.of_nat n * 1000000.

(** One sample, a five-sample ramp, nine samples with a single step, ten
    samples with two steps, and two signals with samples at the ends of
    the 16-bit range. *)
Definition one_sample := q15_vector_t.mk [0] 1.
Definition ramp := q15_vector_t.mk [1; 2; 3; 4; 5] 5.
Definition step_signal := q15_vector_t.mk [16384; 0; 0; 0; 0; 0; 0; 0; 0] 9.
Definition two_steps :=
  q15_vector_t.mk [16384; 0; 8192; 0; 0; 0; 0; 0; 0; 0] 10.
Definition extremes := q15_vector_t.mk [-32768; 32767; -32768] 3.
Definition extremes_wide :=
  q15_vector_t.mk [32767; -32768; 0; 0; 0; 0; 0; 0; 0; 0; 0; 0; 0; 0; 0; 0] 16.

(** ** Further inputs and predicates *)

(** A computation whose only fault is an access outside a block. *)
Definition oob_only {A} (m : M A) : Prop :=
  forall g f, m g = Undefined f -> f = OutOfBounds.

(** 46342 samples: with [embedding_dim = 2] and [time_delay = 1] they give
    46341 vectors, the first count whose square is not an [int]. *)
Definition long_signal :=
  q15_vector_t.mk (replicate (Z.to_nat 46342) 0) 46342.

(** Two samples 40000 apart, then zeros: three samples for
    [embedding_dim = 2], nine for [embedding_dim = 8]. *)
Definition swing_short := q15_vector_t.mk [20000; -20000; 0] 3.
Definition swing :=
  q15_vector_t.mk [20000; -20000; 0; 0; 0; 0; 0; 0; 0] 9.

(** ** Counters and counts *)

(** The counters advanced by [total], [simd] and [mem] (modulo 2^64). *)
Definition bump (g : globals) (total simd mem : Z) : globals :=
  mk_globals (uint64_of (g_total_instructions g + total))
             (uint64_of (g_simd_instructions g + simd))
             (g_start_time g)
             (uint64_of (g_memory_accesses g + mem))
             (ticks g).

(** The three counters hold [uint64_t] values. *)
Definition counters_in_range (g : globals) : Prop :=
  0 <= g_total_instructions g < 2 ^ 64
  /\ 0 <= g_simd_instructions g < 2 ^ 64
  /\ 0 <= g_memory_accesses g < 2 ^ 64.

(** Whenever [m] returns, it has advanced the three counters by [total],
    [simd] and [mem]. *)
Definition counts {A} (m : M A) (total simd mem : Z) : Prop :=
  forall g x g', counters_in_range g -> m g = Returns (x, g') ->
    g' = bump g total simd mem.

(** The number of unordered pairs of [n] vectors. *)
Definition pair_count (n : Z) : Z := n * (n - 1) / 2.

(** The number of ordered pairs [(i, j)] of [size] vectors with
    [time_delay <= |i - j|], for a positive [time_delay]. *)
Definition eligible_pairs (size time_delay : Z) : Z :=
  let n := Z.max 0 (size - time_delay) in n * (n + 1).

(** The candidates [l < j] of query [i] outside the exclusion window, for
    a positive [time_delay]: those up to [i - time_delay] and those from
    [i + time_delay] on. *)
Definition eligible_before (time_delay i j : Z) : Z :=
  Z.max 0 (Z.min j (i - time_delay + 1)) + Z.max 0 (j - (i + time_delay)).

(** The pairs evaluated by the queries below [i]. *)
Definition evaluated_before (size time_delay i : Z) : Z :=
  let n := Z.max 0 (size - time_delay) in
  pair_count (Z.max 0 (i - time_delay) + 1)
  + (Z.min i n * n - pair_count (Z.min i n)).

(** * Properties *)

(** ** Machine integers *)

Lemma int_of_small (z : Z) : is_int z -> int_of z = z.
Proof.
  unfold is_int, int_of, wrap. intros H.
  change (2 ^ (32 - 1)) with 2147483648. change (2 ^ 32) with 4294967296.
  rewrite Z.mod_small; lia.
Qed.

Lemma int16_of_small (z : Z) : is_int16 z -> int16_of z = z.
Proof.
  unfold is_int16, int16_of, wrap. intros H.
  change (2 ^ (16 - 1)) with 32768. change (2 ^ 16) with 65536.
  rewrite Z.mod_small; lia.
Qed.

Lemma int_of_range (z : Z) : is_int (int_of z).
Proof.
  unfold is_int, int_of, wrap.
  change (2 ^ (32 - 1)) with 2147483648. change (2 ^ 32) with 4294967296.
  pose proof (Z.mod_pos_bound (z + 2147483648) 4294967296). lia.
Qed.

Lemma int16_of_range (z : Z) : is_int16 (int16_of z).
Proof.
  unfold is_int16, int16_of, wrap.
  change (2 ^ (16 - 1)) with 32768. change (2 ^ 16) with 65536.
  pose proof (Z.mod_pos_bound (z + 32768) 65536). lia.
Qed.

Lemma uint64_of_small (z : Z) : 0 <= z < 2 ^ 64 -> uint64_of z = z.
Proof. intros H. unfold uint64_of. apply Z.mod_small; lia. Qed.

Lemma int_of_uint64_of (z : Z) : int_of (uint64_of z) = int_of z.
Proof.
  unfold int_of, uint64_of, wrap. f_equal.
  change (2 ^ (32 - 1)) with 2147483648. change (2 ^ 32) with 4294967296.
  change (2 ^ 64) with 18446744073709551616.
  pose proof (Z.div_mod z 18446744073709551616 ltac:(lia)) as Hz.
  replace (z `mod` 18446744073709551616 + 2147483648)
    with (z + 2147483648
          + (- (z `div` 18446744073709551616) * 4294967296) * 4294967296)
    by lia.
  apply Z_mod_plus_full.
Qed.

Lemma add32_small (a b : Z) : is_int (a + b) -> add32 a b = a + b.
Proof. apply int_of_small. Qed.

Lemma sub32_small (a b : Z) : is_int (a - b) -> sub32 a b = a - b.
Proof. apply int_of_small. Qed.

Lemma mul32_small (a b : Z) : is_int (a * b) -> mul32 a b = a * b.
Proof. apply int_of_small. Qed.

(** Allocation of [n] cells of [size] bytes, [n] an [int]: a negative count
    converts to a request no allocator grants. *)
Lemma malloc_cells {A} (junk : A) (n size : Z) :
  is_int n -> 0 < size <= 8 ->
  malloc junk (uint64_of (uint64_of n * size)) size
  = replicate (Z.to_nat n) junk.
Proof.
  intros Hn Hs. unfold malloc, PTRDIFF_MAX, is_int in *.
  destruct (Z.le_gt_cases 0 n) as [Hpos|Hneg].
  - rewrite (uint64_of_small n)
      by (change (2 ^ 64) with 18446744073709551616; lia).
    rewrite uint64_of_small by (change (2 ^ 64) with 18446744073709551616; nia).
    rewrite Z.div_mul by lia.
    destruct (n * size <=? 2 ^ 63 - 1) eqn:E; [done|].
    apply Z.leb_gt in E. change (2 ^ 63) with 9223372036854775808 in E. nia.
  - assert (uint64_of n = 2 ^ 64 + n) as ->.
    { unfold uint64_of. rewrite <- (Z.mod_add n 1) by lia.
      rewrite Z.mod_small; change (2 ^ 64) with 18446744073709551616; lia. }
    assert (uint64_of ((2 ^ 64 + n) * size) = 2 ^ 64 + n * size) as ->.
    { unfold uint64_of.
      replace ((2 ^ 64 + n) * size)
        with (2 ^ 64 + n * size + (size - 1) * 2 ^ 64) by lia.
      rewrite Z.mod_add by lia.
      rewrite Z.mod_small; change (2 ^ 64) with 18446744073709551616; nia. }
    destruct (2 ^ 64 + n * size <=? 2 ^ 63 - 1) eqn:E.
    + apply Z.leb_le in E. change (2 ^ 64) with 18446744073709551616 in E.
      change (2 ^ 63) with 9223372036854775808 in E. nia.
    + replace (Z.to_nat n) with 0%nat by lia. done.
Qed.

(** ** Loops *)

Lemma bind_returns {A B} (m : M A) (k : A -> M B) (g g' : globals) (a : A) :
  m g = Returns (a, g') -> bind m k g = k a g'.
Proof. intros H. unfold bind. rewrite H. reflexivity. Qed.

Lemma bind_inv {A B} (m : M A) (k : A -> M B) (g g'' : globals) (b : B) :
  bind m k g = Returns (b, g'') ->
  exists a g', m g = Returns (a, g') /\ k a g' = Returns (b, g'').
Proof.
  unfold bind. destruct (m g) as [[a g']|f]; [eauto|discriminate].
Qed.

(** Total correctness of a loop that runs [n] times: [I m k s] relates the
    number [m] of completed iterations, the loop variable and the state. *)
Lemma for_loop_rule {S} (I : nat -> Z -> S -> Prop) (n : nat)
    (cond : Z -> bool) (next : Z -> Z) (body : Z -> S -> M S) :
  (forall m k s, (m < n)%nat -> I m k s ->
     cond k = true /\
     forall g, exists s' g',
       body k s g = Returns (s', g') /\ I (Datatypes.S m) (next k) s') ->
  (forall k s, I n k s -> cond k = false) ->
  forall fuel m k s g,
    (m <= n)%nat -> (n - m <= fuel)%nat -> I m k s ->
    exists k' s' g',
      for_loop fuel cond next body k s g = Returns ((k', s'), g') /\ I n k' s'.
Proof.
  intros Hstep Hexit.
  induction fuel as [|fuel IH]; intros m k s g Hm Hfuel HI.
  - assert (m = n) as -> by lia. simpl. rewrite (Hexit _ _ HI). eauto.
  - destruct (decide (m = n)) as [->|Hne].
    + simpl. rewrite (Hexit _ _ HI). eauto.
    + destruct (Hstep m k s) as [Hc Hb]; [lia|done|]. simpl. rewrite Hc.
      destruct (Hb g) as (s' & g' & Hbody & HI').
      rewrite (bind_returns _ _ _ _ _ Hbody).
      apply (IH (Datatypes.S m)); [lia|lia|done].
Qed.

Lemma trip_count_unit (lo hi : Z) : trip_count 1 lo hi = Z.max 0 (hi - lo).
Proof. unfold trip_count. rewrite Z.div_1_r. f_equal. lia. Qed.

(** A counted loop: [cond] tests the loop variable against the bound [hi],
    the step [st] is positive and the variable stays an [int]. *)
Lemma counted_loop_rule {S} (I : Z -> S -> Prop) (st lo hi : Z) (fuel : nat)
    (cond : Z -> bool) (body : Z -> S -> M S) (s : S) (g : globals) :
  0 < st ->
  (forall k, cond k = true <-> k < hi) ->
  -2147483648 <= lo -> hi + st - 1 <= INT32_MAX ->
  (Z.to_nat (trip_count st lo hi) <= fuel)%nat ->
  I lo s ->
  (forall k s, lo <= k < hi -> (k - lo) mod st = 0 -> I k s ->
     forall g, exists s' g', body k s g = Returns (s', g') /\ I (k + st) s') ->
  exists s' g',
    for_loop fuel cond (fun k => add32 k st) body lo s g
    = Returns ((lo + st * trip_count st lo hi, s'), g')
    /\ I (lo + st * trip_count st lo hi) s'.
Proof.
  intros Hst Hcond Hlo Hhi Hfuel HI Hbody.
  set (n := trip_count st lo hi) in *.
  assert (Hn0 : 0 <= n) by (unfold n, trip_count; lia).
  assert (Hlast : hi <= lo + st * n).
  { unfold n, trip_count.
    pose proof (Z.mul_succ_div_gt (hi - lo + st - 1) st Hst). nia. }
  assert (Hprev : forall m, 0 <= m < n -> lo + st * m < hi).
  { intros m Hm. unfold n, trip_count in Hm.
    assert (m < (hi - lo + st - 1) / st) as Hlt by lia.
    pose proof (Z.mul_div_le (hi - lo + st - 1) st Hst). nia. }
  destruct (for_loop_rule
              (fun m k s => k = lo + st * Z.of_nat m /\ I k s) (Z.to_nat n)
              cond (fun k => add32 k st) body) with
    (fuel := fuel) (m := 0%nat) (k := lo) (s := s) (g := g)
    as (k' & s' & g' & Hrun & Hk' & HI').
  - intros m k s0 Hm [-> HIk].
    assert (lo + st * Z.of_nat m < hi) as Hlt by (apply Hprev; lia).
    split; [by apply Hcond|].
    intros g1. destruct (Hbody (lo + st * Z.of_nat m) s0) with (g := g1)
      as (s1 & g2 & Hb & HI1); [nia| |done|].
    { replace (lo + st * Z.of_nat m - lo) with (Z.of_nat m * st) by lia.
      apply Z.mod_mul; lia. }
    exists s1, g2. split; [done|]. split; [|].
    + rewrite add32_small by (unfold is_int, INT32_MAX in *; nia). lia.
    + rewrite add32_small by (unfold is_int, INT32_MAX in *; nia).
      replace (lo + st * Z.of_nat (Datatypes.S m))
        with (lo + st * Z.of_nat m + st) by lia. done.
  - intros k s0 [-> _]. rewrite Z2Nat.id by lia.
    destruct (cond (lo + st * n)) eqn:E; [|done].
    apply Hcond in E. lia.
  - lia.
  - lia.
  - split; [lia|done].
  - rewrite Z2Nat.id in Hk' by lia. subst k'. eauto.
Qed.

(** ** Heap blocks *)

Lemma load_ok {A} (block : list A) (idx : Z) (v : A) (g : globals) :
  0 <= idx -> block !! Z.to_nat idx = Some v ->
  load block idx g = Returns (v, g).
Proof.
  intros Hidx Hv. unfold load.
  destruct (idx <? 0) eqn:E; [apply Z.ltb_lt in E; lia|].
  rewrite Hv. reflexivity.
Qed.

Lemma store_ok {A} (block : list A) (idx : Z) (v : A) (g : globals) :
  0 <= idx < Z.of_nat (length block) ->
  store block idx v g = Returns (<[Z.to_nat idx := v]> block, g).
Proof.
  intros Hidx. unfold store.
  destruct (0 <=? idx) eqn:E1; [|apply Z.leb_gt in E1; lia].
  destruct (idx <? Z.of_nat (length block)) eqn:E2;
    [|apply Z.ltb_ge in E2; lia].
  reflexivity.
Qed.

Lemma vld1q_s16_ok (block : list Z) (off : Z) (g : globals) :
  0 <= off -> off + 8 <= Z.of_nat (length block) ->
  vld1q_s16 block off g
  = Returns (take 8 (drop (Z.to_nat off) block), g).
Proof.
  intros H0 H8. unfold vld1q_s16.
  destruct (0 <=? off) eqn:E1; [|apply Z.leb_gt in E1; lia].
  destruct (off + 8 <=? Z.of_nat (length block)) eqn:E2;
    [|apply Z.leb_gt in E2; lia].
  reflexivity.
Qed.

Lemma vst1q_s16_ok (block : list Z) (off : Z) (v : list Z) (g : globals) :
  0 <= off -> off + 8 <= Z.of_nat (length block) ->
  vst1q_s16 block off v g
  = Returns (take (Z.to_nat off) block ++ v
               ++ drop (Z.to_nat off + 8) block, g).
Proof.
  intros H0 H8. unfold vst1q_s16.
  destruct (0 <=? off) eqn:E1; [|apply Z.leb_gt in E1; lia].
  destruct (off + 8 <=? Z.of_nat (length block)) eqn:E2;
    [|apply Z.leb_gt in E2; lia].
  reflexivity.
Qed.

(** Running one step of a monadic computation whose result is known. *)
Ltac run_with H := rewrite (bind_returns _ _ _ _ _ H).
Ltac run_store := erewrite bind_returns by (apply store_ok; lia).
Ltac run_load H := erewrite bind_returns by (apply load_ok; [lia | exact H]).

(** ** Phase-space reconstruction *)

Section Reconstruction.

Variable junk : Z.
Variable signal : q15_vector_t.t.
Variable data : list Z.
Variables embedding_dim time_delay size : Z.

Hypothesis signal_data : q15_vector_t.data signal = data.

Hypothesis dim_int : is_int embedding_dim.
Hypothesis size_int : is_int size.
Hypothesis data_small : Z.of_nat (length data) <= INT32_MAX.
Hypothesis in_bounds : forall i j,
  0 <= i < size -> 0 <= j < embedding_dim ->
  0 <= i + j * time_delay < Z.of_nat (length data).

Lemma sample_index (i j : Z) :
  0 <= i < size -> 0 <= j < embedding_dim ->
  add32 i (mul32 j time_delay) = i + j * time_delay
  /\ 0 <= i + j * time_delay < Z.of_nat (length data).
Proof.
  intros Hi Hj. pose proof (in_bounds i j Hi Hj) as Hb.
  unfold INT32_MAX in data_small. unfold is_int in size_int.
  rewrite mul32_small by (unfold is_int; lia).
  rewrite add32_small by (unfold is_int; lia). lia.
Qed.

Lemma cmsis_reconstruct_spec (g : globals) :
  exists phase_space g',
    cmsis_reconstruct junk signal embedding_dim time_delay size g
    = Returns (phase_space, g')
    /\ length phase_space = Z.to_nat size
    /\ forall i, 0 <= i < size ->
         exists row,
           phase_space !! Z.to_nat i = Some row
           /\ length row = Z.to_nat embedding_dim
           /\ forall j, 0 <= j < embedding_dim ->
                row !! Z.to_nat j = data !! Z.to_nat (i + j * time_delay).
Proof.
  unfold cmsis_reconstruct. rewrite signal_data.
  rewrite !malloc_cells by (done || lia).
  match goal with
  | |- context [for_loop ?f ?c ?n ?b ?k ?s] =>
      destruct (counted_loop_rule
        (fun i (ps : list (list Z)) =>
           length ps = Z.to_nat size
           /\ forall i', 0 <= i' < i ->
                exists row,
                  ps !! Z.to_nat i' = Some row
                  /\ length row = Z.to_nat embedding_dim
                  /\ forall j, 0 <= j < embedding_dim ->
                       row !! Z.to_nat j
                       = data !! Z.to_nat (i' + j * time_delay))
        1 0 size f c b s g) as (ps & g' & Hrun & Hlen & Hrows)
  end.
  - lia.
  - intros k. apply Z.ltb_lt.
  - lia.
  - unfold is_int, INT32_MAX in *. lia.
  - rewrite trip_count_unit. unfold upto. lia.
  - split; [by rewrite length_replicate|]. intros i' Hi'. lia.
  - intros i ps Hi _ [Hlen Hrows] g1.
    match goal with
    | |- context [for_loop ?f ?c ?n ?b ?k ?s] =>
        destruct (counted_loop_rule
          (fun j (row : list Z) =>
             length row = Z.to_nat embedding_dim
             /\ forall j', 0 <= j' < j ->
                  row !! Z.to_nat j'
                  = data !! Z.to_nat (i + j' * time_delay))
          1 0 embedding_dim f c b s g1) as (row & g2 & Hrow & Hrlen & Hcells)
    end.
    + lia.
    + intros k. apply Z.ltb_lt.
    + lia.
    + unfold is_int, INT32_MAX in *. lia.
    + rewrite trip_count_unit. unfold upto. lia.
    + split; [by rewrite length_replicate|]. intros j' Hj'. lia.
    + intros j row Hj _ [Hrlen Hcells] g2.
      destruct (sample_index i j) as [Hidx Hrange]; [lia|lia|].
      rewrite Hidx.
      destruct (lookup_lt_is_Some_2 data (Z.to_nat (i + j * time_delay)))
        as [v Hv]; [lia|].
      run_load Hv. run_store.
      eexists _, _. split; [reflexivity|].
      split; [by rewrite length_insert|].
      intros j' Hj'. destruct (decide (j' = j)) as [->|Hne].
      * rewrite list_lookup_insert_eq by lia. done.
      * rewrite list_lookup_insert_ne by lia. apply Hcells. lia.
    + run_with Hrow. simpl. run_store.
      eexists _, _. split; [reflexivity|].
      split; [by rewrite length_insert|].
      intros i' Hi'. destruct (decide (i' = i)) as [->|Hne].
      * exists row. rewrite list_lookup_insert_eq by lia.
        split; [done|]. split; [done|].
        intros j Hj. apply Hcells. rewrite trip_count_unit. lia.
      * rewrite list_lookup_insert_ne by lia. apply Hrows. lia.
  - run_with Hrun. simpl.
    eexists _, _. split; [reflexivity|]. split; [done|].
    intros i Hi. apply Hrows. rewrite trip_count_unit. lia.
Qed.

(** The specialised layout needs the whole block to be indexable by an
    [int]. *)
Hypothesis dim_nonneg : 0 <= embedding_dim.
Hypothesis block_int : is_int (size * embedding_dim).

Lemma load_sample (i j l : Z) (g : globals) :
  0 <= i < size -> 0 <= j -> 0 <= l -> j + l < embedding_dim ->
  exists v,
    data !! Z.to_nat (i + (j + l) * time_delay) = Some v
    /\ load data (add32 i (mul32 (add32 j l) time_delay)) g = Returns (v, g).
Proof.
  intros Hi Hj Hl Hjl.
  rewrite (add32_small j l) by (unfold is_int in *; lia).
  destruct (sample_index i (j + l)) as [Hidx Hrange]; [lia|lia|].
  rewrite Hidx.
  destruct (lookup_lt_is_Some_2 data (Z.to_nat (i + (j + l) * time_delay)))
    as [v Hv]; [lia|].
  exists v. split; [done|]. apply load_ok; [lia|done].
Qed.

Lemma filled_store (block : list Z) (i j : Z) (v : Z) :
  0 <= i -> 0 <= j < embedding_dim ->
  i * embedding_dim + j < Z.of_nat (length block) ->
  data !! Z.to_nat (i + j * time_delay) = Some v ->
  filled data embedding_dim time_delay block (i * embedding_dim + j) ->
  filled data embedding_dim time_delay
         (<[Z.to_nat (i * embedding_dim + j) := v]> block)
         (i * embedding_dim + (j + 1)).
Proof.
  intros Hi Hj Hlen Hv Hfilled i' j' Hi' Hj' Hlt.
  destruct (decide (i' * embedding_dim + j' = i * embedding_dim + j))
    as [Heq|Hne].
  - assert (i' = i) as -> by nia. assert (j' = j) as -> by lia.
    rewrite list_lookup_insert_eq by lia. done.
  - rewrite list_lookup_insert_ne by nia. apply Hfilled; [done|done|lia].
Qed.

Lemma filled_vst1q (block : list Z) (i j : Z) (v : list Z) :
  0 <= i -> 0 <= j -> j + 8 <= embedding_dim ->
  i * embedding_dim + j + 8 <= Z.of_nat (length block) ->
  length v = 8%nat ->
  (forall l, 0 <= l < 8 ->
     v !! Z.to_nat l = data !! Z.to_nat (i + (j + l) * time_delay)) ->
  filled data embedding_dim time_delay block (i * embedding_dim + j) ->
  filled data embedding_dim time_delay
         (take (Z.to_nat (i * embedding_dim + j)) block ++ v
            ++ drop (Z.to_nat (i * embedding_dim + j) + 8) block)
         (i * embedding_dim + (j + 8)).
Proof.
  intros Hi Hj Hj8 Hlen Hv8 Hv Hfilled i' j' Hi' Hj' Hlt.
  assert (Htake : length (take (Z.to_nat (i * embedding_dim + j)) block)
                  = Z.to_nat (i * embedding_dim + j))
    by (rewrite length_take; nia).
  destruct (Z.lt_ge_cases (i' * embedding_dim + j') (i * embedding_dim + j))
    as [Hold|Hnew].
  - rewrite lookup_app_l by (rewrite Htake; nia).
    rewrite lookup_take_lt by nia. apply Hfilled; [done|done|lia].
  - assert (i' = i) as -> by nia.
    rewrite lookup_app_r by (rewrite Htake; nia). rewrite Htake.
    rewrite lookup_app_l by (rewrite Hv8; nia).
    replace (Z.to_nat (i * embedding_dim + j')
             - Z.to_nat (i * embedding_dim + j))%nat
      with (Z.to_nat (j' - j)) by nia.
    rewrite Hv by lia. do 2 f_equal. lia.
Qed.

Lemma nld_reconstruct_spec (g : globals) :
  exists phase_space g',
    nld_reconstruct junk signal embedding_dim time_delay size g
    = Returns (phase_space, g')
    /\ length phase_space = Z.to_nat (size * embedding_dim)
    /\ forall i j, 0 <= i < size -> 0 <= j < embedding_dim ->
         phase_space !! Z.to_nat (i * embedding_dim + j)
         = data !! Z.to_nat (i + j * time_delay).
Proof.
  unfold nld_reconstruct. rewrite signal_data.
  rewrite (mul32_small size embedding_dim) by done.
  rewrite malloc_cells by (done || lia).
  match goal with
  | |- context [for_loop ?f ?c ?n ?b ?k ?s] =>
      destruct (counted_loop_rule
        (fun i (block : list Z) =>
           length block = Z.to_nat (size * embedding_dim)
           /\ filled data embedding_dim time_delay block (i * embedding_dim))
        1 0 size f c b s g) as (block & g' & Hrun & Hlen & Hfilled)
  end.
  - lia.
  - intros k. apply Z.ltb_lt.
  - lia.
  - unfold is_int, INT32_MAX in *. lia.
  - rewrite trip_count_unit. unfold upto. lia.
  - split; [by rewrite length_replicate|]. intros i j Hi Hj Hlt. nia.
  - intros i block Hi _ [Hlen Hfilled] g1.
    assert (Hrow : mul32 i embedding_dim = i * embedding_dim)
      by (apply mul32_small; unfold is_int in *; nia).
    rewrite Hrow.
    assert (Hsub : sub32 embedding_dim 8 = embedding_dim - 8)
      by (apply sub32_small; unfold is_int in *; lia).
    rewrite Hsub.
    match goal with
    | |- context [bind (for_loop ?f ?c ?n ?b ?k ?s)] =>
        destruct (counted_loop_rule
          (fun j (block : list Z) =>
             length block = Z.to_nat (size * embedding_dim)
             /\ filled data embedding_dim time_delay block
                       (i * embedding_dim + j))
          8 0 (embedding_dim - 7) f c b s g1)
          as (block1 & g2 & Hrun1 & Hlen1 & Hfilled1)
    end.
    + lia.
    + intros k. rewrite Z.leb_le. lia.
    + lia.
    + unfold is_int, INT32_MAX in *. lia.
    + unfold trip_count, upto.
      pose proof (Z.mul_div_le (embedding_dim - 7 - 0 + 8 - 1) 8). lia.
    + split; [done|]. by rewrite Z.add_0_r.
    + intros j blk Hj _ [Hblen Hbfilled] g2.
      destruct (sample_index i j) as [Hidx0 Hrange0]; [lia|lia|].
      destruct (lookup_lt_is_Some_2 data (Z.to_nat (i + j * time_delay)))
        as [v0 Hv0]; [lia|].
      rewrite Hidx0. run_load Hv0.
      destruct (load_sample i j 1 g2) as (v1 & Hv1 & Hl1); [lia..|].
      destruct (load_sample i j 2 g2) as (v2 & Hv2 & Hl2); [lia..|].
      destruct (load_sample i j 3 g2) as (v3 & Hv3 & Hl3); [lia..|].
      destruct (load_sample i j 4 g2) as (v4 & Hv4 & Hl4); [lia..|].
      destruct (load_sample i j 5 g2) as (v5 & Hv5 & Hl5); [lia..|].
      destruct (load_sample i j 6 g2) as (v6 & Hv6 & Hl6); [lia..|].
      destruct (load_sample i j 7 g2) as (v7 & Hv7 & Hl7); [lia..|].
      run_with Hl1. run_with Hl2. run_with Hl3. run_with Hl4.
      run_with Hl5. run_with Hl6. run_with Hl7.
      erewrite bind_returns by (apply vst1q_s16_ok; nia).
      eexists _, _. split; [reflexivity|]. split.
      * rewrite !length_app, length_take, length_drop. simpl. nia.
      * apply filled_vst1q; [lia|lia|lia|nia|done| |done].
        intros l Hl.
        assert (l = 0 \/ l = 1 \/ l = 2 \/ l = 3 \/ l = 4 \/ l = 5
                \/ l = 6 \/ l = 7) as Hcases by lia.
        destruct Hcases as [->|[->|[->|[->|[->|[->|[->| ->]]]]]]]; simpl;
          try (symmetry; assumption).
        rewrite Z.add_0_r. by symmetry.
    + run_with Hrun1. simpl.
      set (j0 := 0 + 8 * trip_count 8 0 (embedding_dim - 7)) in *.
      assert (Hj0 : 0 <= j0 <= embedding_dim).
      { unfold j0, trip_count.
        pose proof (Z.mul_div_le (embedding_dim - 7 - 0 + 8 - 1) 8). lia. }
      match goal with
      | |- context [bind (for_loop ?f ?c ?n ?b ?k ?s)] =>
          destruct (counted_loop_rule
            (fun j (block : list Z) =>
               length block = Z.to_nat (size * embedding_dim)
               /\ filled data embedding_dim time_delay block
                       (i * embedding_dim + j))
            1 j0 embedding_dim f c b s g2)
            as (block2 & g3 & Hrun2 & Hlen2 & Hfilled2)
      end.
      * lia.
      * intros k. apply Z.ltb_lt.
      * lia.
      * unfold is_int, INT32_MAX in *. lia.
      * rewrite trip_count_unit. unfold upto. lia.
      * done.
      * intros j blk Hj _ [Hblen Hbfilled] g3.
        destruct (sample_index i j) as [Hidx Hrange]; [lia|lia|].
        destruct (lookup_lt_is_Some_2 data (Z.to_nat (i + j * time_delay)))
          as [v Hv]; [lia|].
        rewrite Hidx. run_load Hv.
        erewrite bind_returns by (apply store_ok; nia).
        eexists _, _. split; [reflexivity|].
        split; [by rewrite length_insert|].
        apply filled_store; [lia|lia|nia|done|done].
      * run_with Hrun2. simpl.
        eexists _, _. split; [reflexivity|]. split; [done|].
        rewrite trip_count_unit in Hfilled2.
        replace (i * embedding_dim + (j0 + 1 * Z.max 0 (embedding_dim - j0)))
          with ((i + 1) * embedding_dim) in Hfilled2 by lia.
        done.
  - run_with Hrun. simpl.
    eexists _, _. split; [reflexivity|]. split; [done|].
    intros i j Hi Hj. apply Hfilled; [lia|done|].
    rewrite trip_count_unit. nia.
Qed.

End Reconstruction.

Lemma phase_space_size_valid (signal : q15_vector_t.t)
    (embedding_dim time_delay : Z) :
  is_int (embedding_dim - 1) ->
  is_int ((embedding_dim - 1) * time_delay) ->
  0 <= q15_vector_t.length signal < 2 ^ 64 ->
  is_int (q15_vector_t.length signal - (embedding_dim - 1) * time_delay) ->
  phase_space_size signal embedding_dim time_delay
  = q15_vector_t.length signal - (embedding_dim - 1) * time_delay.
Proof.
  intros Hd Hp Hlen Hsize. unfold phase_space_size.
  rewrite sub32_small, mul32_small by done.
  rewrite int_of_uint64_of.
  set (p := (embedding_dim - 1) * time_delay) in *.
  unfold int_of, wrap, uint64_of.
  change (2 ^ (32 - 1)) with 2147483648. change (2 ^ 32) with 4294967296.
  change (2 ^ 64) with 18446744073709551616 in *.
  pose proof (Z.div_mod p 18446744073709551616 ltac:(lia)) as Hz.
  replace (q15_vector_t.length signal - p `mod` 18446744073709551616
           + 2147483648)
    with (q15_vector_t.length signal - p + 2147483648
          + (p `div` 18446744073709551616 * 4294967296) * 4294967296)
    by lia.
  rewrite Z_mod_plus_full.
  unfold is_int in Hsize. rewrite Z.mod_small; lia.
Qed.

(** C3.  For a well-formed signal of at most [INT32_MAX] samples,
    [embedding_dim >= 2] and [time_delay >= 1] with
    [(embedding_dim - 1) * time_delay] below the signal length, the size
    the code computes is [length - (embedding_dim - 1) * time_delay]; the
    pointer-per-row reconstruction returns exactly that many rows of
    [embedding_dim] cells; the contiguous reconstruction, when the cell
    count [size * embedding_dim] is representable as an [int], returns a
    block of that many rows; and in both, component [k] of vector [i] is
    [signal[i + k * time_delay]]. *)
Theorem reconstruction_correct (junk : Z) (signal : q15_vector_t.t)
    (embedding_dim time_delay : Z) (g1 g2 : globals) :
  well_formed signal ->
  2 <= embedding_dim -> 1 <= time_delay ->
  (embedding_dim - 1) * time_delay < q15_vector_t.length signal ->
  q15_vector_t.length signal <= INT32_MAX ->
  let size := q15_vector_t.length signal - (embedding_dim - 1) * time_delay in
  phase_space_size signal embedding_dim time_delay = size
  /\ (exists rows g1',
        cmsis_reconstruct junk signal embedding_dim time_delay size g1
        = Returns (rows, g1')
        /\ Z.of_nat (length rows) = size
        /\ forall i k, 0 <= i < size -> 0 <= k < embedding_dim ->
             exists row v,
               rows !! Z.to_nat i = Some row
               /\ Z.of_nat (length row) = embedding_dim
               /\ q15_vector_t.data signal !! Z.to_nat (i + k * time_delay)
                  = Some v
               /\ row !! Z.to_nat k = Some v)
  /\ (size * embedding_dim <= INT32_MAX ->
      exists block g2',
        nld_reconstruct junk signal embedding_dim time_delay size g2
        = Returns (block, g2')
        /\ Z.of_nat (length block) = size * embedding_dim
        /\ forall i k, 0 <= i < size -> 0 <= k < embedding_dim ->
             exists v,
               q15_vector_t.data signal !! Z.to_nat (i + k * time_delay)
               = Some v
               /\ block !! Z.to_nat (i * embedding_dim + k) = Some v).
Proof.
  intros [Hlen _] Hdim Hdelay Hvalid Hsmall size.
  unfold INT32_MAX in *.
  assert (Hprod : 0 <= (embedding_dim - 1) * time_delay) by nia.
  assert (Hdim_int : is_int embedding_dim) by (unfold is_int; nia).
  assert (Hsize_int : is_int size) by (unfold is_int, size; lia).
  assert (Hdata : Z.of_nat (length (q15_vector_t.data signal)) <= INT32_MAX)
    by (unfold INT32_MAX; lia).
  assert (Hin : forall i j, 0 <= i < size -> 0 <= j < embedding_dim ->
            0 <= i + j * time_delay
              < Z.of_nat (length (q15_vector_t.data signal))).
  { intros i j Hi Hj. unfold size in Hi. nia. }
  assert (Hsome : forall i k, 0 <= i < size -> 0 <= k < embedding_dim ->
            exists v, q15_vector_t.data signal !! Z.to_nat (i + k * time_delay)
                      = Some v).
  { intros i k Hi Hk. apply lookup_lt_is_Some_2.
    pose proof (Hin i k Hi Hk). nia. }
  split; [|split].
  - apply phase_space_size_valid; unfold is_int in *;
      change (2 ^ 64) with 18446744073709551616; fold size; lia.
  - destruct (cmsis_reconstruct_spec junk signal _ embedding_dim time_delay
                size eq_refl Hdim_int Hsize_int Hdata Hin g1)
      as (rows & g1' & Hrun & Hrows_len & Hrows).
    exists rows, g1'. split; [done|]. split; [unfold size in *; lia|].
    intros i k Hi Hk.
    destruct (Hrows i Hi) as (row & Hrow & Hrow_len & Hcells).
    destruct (Hsome i k Hi Hk) as [v Hv].
    exists row, v. split; [done|]. split; [lia|]. split; [done|].
    rewrite Hcells by done. done.
  - intros Hblock.
    destruct (nld_reconstruct_spec junk signal _ embedding_dim time_delay
                size eq_refl Hdim_int Hsize_int Hdata Hin ltac:(lia)
                ltac:(unfold is_int, size in *; nia) g2)
      as (block & g2' & Hrun & Hblock_len & Hcells).
    exists block, g2'. split; [done|]. split; [unfold size in *; nia|].
    intros i k Hi Hk. destruct (Hsome i k Hi Hk) as [v Hv].
    exists v. split; [done|]. rewrite Hcells by done. done.
Qed.

(** ** Temporal exclusion in the nearest-neighbour search *)

Lemma count_up_foldM {S} (body : Z -> S -> M S) (hi : Z) (n : nat) :
  hi <= INT32_MAX ->
  forall (fuel : nat) (lo : Z) (s : S) (g : globals),
    -2147483648 <= lo -> n = Z.to_nat (hi - lo) -> (n <= fuel)%nat ->
    (p <- for_loop fuel (fun i => i <? hi) (fun i => add32 i 1) body lo s ;;
     ret (snd p)) g
    = foldM body (seqZ lo (hi - lo)) s g.
Proof.
  intros Hhi. unfold INT32_MAX in Hhi.
  induction n as [|n IH]; intros fuel lo s g Hlo Hn Hfuel.
  - assert (hi <= lo) as Hle by lia.
    replace (seqZ lo (hi - lo)) with (@nil Z)
      by (unfold seqZ; replace (Z.to_nat (hi - lo)) with 0%nat by lia; done).
    unfold bind. destruct fuel; simpl;
      (destruct (lo <? hi) eqn:E; [apply Z.ltb_lt in E; lia|done]).
  - assert (lo < hi) as Hlt by lia.
    destruct fuel as [|fuel]; [lia|].
    rewrite seqZ_cons by lia. simpl.
    destruct (lo <? hi) eqn:E; [|apply Z.ltb_ge in E; lia].
    unfold bind at 1 2 3. destruct (body lo s g) as [[s' g']|f]; [|done].
    rewrite add32_small by (unfold is_int; lia).
    replace (Z.succ lo) with (lo + 1) by lia.
    replace (Z.pred (hi - lo)) with (hi - (lo + 1)) by lia.
    rewrite <- (IH fuel (lo + 1) s' g') by lia.
    reflexivity.
Qed.

(** C6.  For a query [i] of a phase space of [phase_space_size] vectors,
    the running minimum is the fold, over exactly the candidates [j] with
    [|i - j| >= time_delay], of the lane-wise minimum with the
    accumulator of the pair: no candidate with [|i - j| < time_delay]
    contributes, and with [time_delay >= 1] the query itself is not among
    the candidates. *)
Theorem temporal_exclusion (phase_space : list Z)
    (embedding_dim time_delay phase_space_size i : Z) (g : globals) :
  is_int phase_space_size -> 0 <= i < phase_space_size ->
  let candidates :=
    filter (fun j => time_delay <= Z.abs (i - j)) (seqZ 0 phase_space_size) in
  nld_query phase_space embedding_dim time_delay phase_space_size i g
  = foldM (fun j min_dist_vec =>
             sum_vec <- nld_pair_sum_vec phase_space embedding_dim
                          (mul32 i embedding_dim) (mul32 j embedding_dim) ;;
             ret (vminq_s32 min_dist_vec sum_vec))
          candidates (vdupq_n_s32 INT32_MAX) g
  /\ (forall j, j ∈ candidates ->
        0 <= j < phase_space_size /\ time_delay <= Z.abs (i - j))
  /\ (forall j, 0 <= j < phase_space_size -> Z.abs (i - j) < time_delay ->
        j ∉ candidates)
  /\ (1 <= time_delay -> i ∉ candidates).
Proof.
  intros Hsize Hi candidates. unfold is_int in Hsize.
  assert (Hmem : forall j, j ∈ candidates ->
            0 <= j < phase_space_size /\ time_delay <= Z.abs (i - j)).
  { intros j Hj. apply list_elem_of_filter in Hj as [Hdist Hj].
    apply elem_of_seqZ in Hj. split; [lia|done]. }
  split; [|split; [done|split]].
  - unfold nld_query.
    rewrite (count_up_foldM _ phase_space_size (Z.to_nat phase_space_size))
      by (unfold INT32_MAX, upto; lia).
    rewrite Z.sub_0_r.
    assert (Hall : Forall (fun j => 0 <= j < phase_space_size)
                     (seqZ 0 phase_space_size)).
    { apply Forall_forall. intros j Hj. apply elem_of_seqZ in Hj. lia. }
    unfold candidates. clear Hmem candidates.
    generalize (vdupq_n_s32 INT32_MAX) as acc. revert g.
    induction Hall as [|j l Hj _ IH]; intros g acc; [done|].
    simpl. unfold nld_candidate at 1.
    rewrite sub32_small by (unfold is_int; lia).
    destruct (decide (time_delay <= Z.abs (i - j))) as [Hfar|Hnear].
    + rewrite filter_cons_True by done. simpl.
      destruct (Z.abs (i - j) <? time_delay) eqn:E;
        [apply Z.ltb_lt in E; lia|].
      unfold bind at 1 3.
      destruct (bind _ _ g) as [[acc' g']|f]; [apply IH|done].
    + rewrite filter_cons_False by done.
      destruct (Z.abs (i - j) <? time_delay) eqn:E;
        [|apply Z.ltb_ge in E; lia].
      unfold bind at 1. simpl. apply IH.
  - intros j Hj Hnear Hin. apply Hmem in Hin. lia.
  - intros Hdelay Hin. apply Hmem in Hin. lia.
Qed.

(** ** Squared distances *)

Lemma sumZ_app (l k : list Z) : sumZ (l ++ k) = sumZ l + sumZ k.
Proof. induction l as [|x l IH]; simpl; [done|]. rewrite IH. lia. Qed.

Lemma squares_nonneg (a b : list Z) : Forall (fun z => 0 <= z) (squares a b).
Proof.
  revert b. induction a as [|x a IH]; intros [|y b]; simpl; try constructor.
  - apply Z.square_nonneg.
  - apply IH.
Qed.

Lemma sumZ_nonneg (l : list Z) : Forall (fun z => 0 <= z) l -> 0 <= sumZ l.
Proof. induction 1; simpl; lia. Qed.

Lemma sumZ_take_add (l : list Z) (n m : nat) :
  sumZ (take (n + m) l) = sumZ (take n l) + sumZ (take m (drop n l)).
Proof. rewrite <- take_take_drop. apply sumZ_app. Qed.

Lemma sumZ_take_le (l : list Z) (n : nat) :
  Forall (fun z => 0 <= z) l -> 0 <= sumZ (take n l) <= sumZ l.
Proof.
  intros Hl. rewrite <- (take_drop n l) at 3. rewrite sumZ_app.
  pose proof (sumZ_nonneg (take n l) ltac:(by apply Forall_take)).
  pose proof (sumZ_nonneg (drop n l) ltac:(by apply Forall_drop)). lia.
Qed.

(** Replaces the square of [x - y] by a non-negative unknown [s]. *)
Ltac name_square x y s :=
  pose proof (Z.square_nonneg (x - y));
  generalize dependent ((x - y) * (x - y)); intros s ? ?.

(** One iteration of the vector loop on eight lanes. *)
Lemma chunk_sum (a b : list Z) :
  length a = 8%nat -> length b = 8%nat ->
  let diff := vsubq_s16 a b in
  let sum :=
    vaddvq_s32
      (vaddq_s32 (vmull_s16 (vget_low_s16 diff) (vget_low_s16 diff))
                 (vmull_s16 (vget_high_s16 diff) (vget_high_s16 diff))) in
  is_int sum
  /\ (Forall2 (fun x y => is_int16 (x - y)) a b ->
      exact_sqdist a b <= INT32_MAX -> sum = exact_sqdist a b).
Proof.
  intros Ha Hb.
  destruct a as [|a0 [|a1 [|a2 [|a3 [|a4 [|a5 [|a6 [|a7 [|]]]]]]]]];
    try discriminate.
  destruct b as [|b0 [|b1 [|b2 [|b3 [|b4 [|b5 [|b6 [|b7 [|]]]]]]]]];
    try discriminate.
  simpl. split; [apply int_of_range|].
  intros Hd Hsum.
  repeat match goal with
         | H : Forall2 _ (_ :: _) (_ :: _) |- _ =>
             apply Forall2_cons_1 in H as [? H]
         end.
  rewrite !int16_of_small by done.
  unfold exact_sqdist, squares, sumZ in *. simpl in Hsum. simpl.
  unfold INT32_MAX in Hsum.
  name_square a0 b0 s0. name_square a1 b1 s1. name_square a2 b2 s2.
  name_square a3 b3 s3. name_square a4 b4 s4. name_square a5 b5 s5.
  name_square a6 b6 s6. name_square a7 b7 s7.
  rewrite (add32_small s0 s4), (add32_small s1 s5), (add32_small s2 s6),
    (add32_small s3 s7) by (unfold is_int; lia).
  rewrite (add32_small _ 0) by (unfold is_int; lia).
  rewrite (add32_small (s2 + s6)) by (unfold is_int; lia).
  rewrite (add32_small (s1 + s5)) by (unfold is_int; lia).
  rewrite (add32_small (s0 + s4)) by (unfold is_int; lia).
  lia.
Qed.

Lemma fits_take_drop (a b : list Z) (k n : nat) :
  fits a b ->
  Forall2 (fun x y => is_int16 (x - y)) (take n (drop k a)) (take n (drop k b)).
Proof. intros [Hd _]. by apply Forall2_take, Forall2_drop. Qed.

Lemma squares_take_drop (a b : list Z) (k n : nat) :
  squares (take n (drop k a)) (take n (drop k b))
  = take n (drop k (squares a b)).
Proof. unfold squares. by rewrite zip_with_drop, zip_with_take. Qed.

Lemma fits_prefix (a b : list Z) (n : nat) :
  fits a b -> 0 <= sumZ (take n (squares a b)) <= INT32_MAX.
Proof.
  intros [_ Hsum]. unfold exact_sqdist in Hsum.
  pose proof (sumZ_take_le (squares a b) n (squares_nonneg a b)). lia.
Qed.

(** The accumulator of the generic routine: it is produced for any two
    rows of [embedding_dim] cells, and it is the exact distance when the
    rows fit. *)
Lemma cmsis_pair_sum_spec (phase_space : list (list Z))
    (embedding_dim i j : Z) (row_i row_j : list Z) (g : globals) :
  is_int (embedding_dim - 8) -> embedding_dim <= INT32_MAX ->
  0 <= i -> 0 <= j ->
  phase_space !! Z.to_nat i = Some row_i ->
  phase_space !! Z.to_nat j = Some row_j ->
  length row_i = Z.to_nat embedding_dim ->
  length row_j = Z.to_nat embedding_dim ->
  exists sum g',
    cmsis_pair_sum phase_space embedding_dim i j g = Returns (sum, g')
    /\ is_int sum
    /\ (fits row_i row_j -> sum = exact_sqdist row_i row_j).
Proof.
  intros Hdim8 Hdim Hi Hj Hrow_i Hrow_j Hlen_i Hlen_j.
  unfold INT32_MAX, is_int in Hdim, Hdim8.
  unfold cmsis_pair_sum.
  rewrite sub32_small by (unfold is_int; lia).
  set (inv := fun (k : Z) (sum : Z) =>
         is_int sum
         /\ (fits row_i row_j ->
             sum = sumZ (take (Z.to_nat k) (squares row_i row_j)))).
  match goal with
  | |- context [bind (for_loop ?f ?c ?n ?b ?k ?s)] =>
      destruct (counted_loop_rule inv 8 0 (embedding_dim - 7) f c b s g)
        as (sum1 & g1 & Hrun1 & Hinv1)
  end.
  - lia.
  - intros k. rewrite Z.leb_le. lia.
  - lia.
  - unfold INT32_MAX. lia.
  - unfold trip_count, upto.
    pose proof (Z.mul_div_le (embedding_dim - 7 - 0 + 8 - 1) 8). lia.
  - split; [unfold is_int; lia|]. intros _. done.
  - intros k sum Hk _ [Hsum_int Hsum] g1.
    run_load Hrow_i. run_load Hrow_j.
    erewrite bind_returns by (apply vld1q_s16_ok; lia).
    erewrite bind_returns by (apply vld1q_s16_ok; lia).
    destruct (chunk_sum (take 8 (drop (Z.to_nat k) row_i))
                        (take 8 (drop (Z.to_nat k) row_j)))
      as [_ Hchunk]; [rewrite length_take, length_drop; lia..|].
    eexists _, _. split; [reflexivity|]. split; [apply int_of_range|].
    intros Hfits. rewrite Hsum by done.
    rewrite Hchunk; [|by apply fits_take_drop|].
    + unfold exact_sqdist. rewrite squares_take_drop.
      replace (Z.to_nat (k + 8)) with (Z.to_nat k + 8)%nat by lia.
      rewrite sumZ_take_add. apply add32_small.
      rewrite <- sumZ_take_add.
      pose proof (fits_prefix _ _ (Z.to_nat k + 8) Hfits).
      unfold is_int, INT32_MAX in *. lia.
    + unfold exact_sqdist. rewrite squares_take_drop.
      pose proof (fits_prefix _ _ (Z.to_nat k + 8) Hfits) as Hp.
      rewrite sumZ_take_add in Hp.
      pose proof (fits_prefix _ _ (Z.to_nat k) Hfits). lia.
  - run_with Hrun1. simpl.
    set (k0 := 0 + 8 * trip_count 8 0 (embedding_dim - 7)) in *.
    assert (Hk0 : 0 <= k0 <= Z.max 0 embedding_dim).
    { unfold k0, trip_count.
      pose proof (Z.mul_div_le (embedding_dim - 7 - 0 + 8 - 1) 8). lia. }
    match goal with
    | |- context [bind (for_loop ?f ?c ?n ?b ?k ?s)] =>
        destruct (counted_loop_rule inv 1 k0 embedding_dim f c b s g1)
          as (sum2 & g2 & Hrun2 & Hsum2_int & Hsum2)
    end.
    + lia.
    + intros k. apply Z.ltb_lt.
    + lia.
    + unfold INT32_MAX. lia.
    + rewrite trip_count_unit. unfold upto. lia.
    + done.
    + intros k sum Hk _ [Hsum_int Hsum] g2.
      run_load Hrow_i. run_load Hrow_j.
      destruct (lookup_lt_is_Some_2 row_i (Z.to_nat k)) as [x Hx]; [lia|].
      destruct (lookup_lt_is_Some_2 row_j (Z.to_nat k)) as [y Hy]; [lia|].
      run_load Hx. run_load Hy.
      eexists _, _. split; [reflexivity|]. split; [apply int_of_range|].
      intros Hfits. rewrite Hsum by done.
      assert (Hsq : squares row_i row_j !! Z.to_nat k
                    = Some ((x - y) * (x - y))).
      { unfold squares. rewrite lookup_zip_with, Hx, Hy. done. }
      assert (Hd : is_int16 (x - y)).
      { destruct Hfits as [Hd _].
        by apply (Forall2_lookup_lr _ _ _ _ _ _ Hd Hx Hy). }
      pose proof (fits_prefix _ _ (Z.to_nat k) Hfits) as Hp0.
      pose proof (fits_prefix _ _ (Datatypes.S (Z.to_nat k)) Hfits) as Hp1.
      rewrite (take_S_r _ _ _ Hsq), sumZ_app in Hp1. simpl in Hp1.
      replace (Z.to_nat (k + 1)) with (Datatypes.S (Z.to_nat k)) by lia.
      rewrite (take_S_r _ _ _ Hsq), sumZ_app. simpl.
      unfold is_int16, INT32_MAX in *.
      rewrite sub32_small by (unfold is_int; lia).
      rewrite mul32_small by (unfold is_int; lia).
      rewrite add32_small by (unfold is_int; lia). lia.
    + run_with Hrun2. simpl.
      eexists _, _. split; [reflexivity|]. split; [done|].
      intros Hfits. rewrite Hsum2 by done. unfold exact_sqdist.
      rewrite take_ge; [done|].
      unfold squares. rewrite length_zip_with, trip_count_unit. lia.
Qed.

(** One iteration of the specialised loop: the eight squares of a chunk
    are added to the four lanes, lane [l] receiving components [l] and
    [l + 4]. *)
Lemma chunk_lanes (v a b : list Z) :
  length v = 4%nat -> length a = 8%nat -> length b = 8%nat ->
  Forall (fun z => 0 <= z) v ->
  Forall2 (fun x y => is_int16 (x - y)) a b ->
  sumZ v + exact_sqdist a b <= INT32_MAX ->
  let diff := vsubq_s16 a b in
  let v' :=
    vaddq_s32 v
      (vaddq_s32 (vmull_s16 (vget_low_s16 diff) (vget_low_s16 diff))
                 (vmull_s16 (vget_high_s16 diff) (vget_high_s16 diff))) in
  length v' = 4%nat
  /\ Forall (fun z => 0 <= z) v'
  /\ sumZ v' = sumZ v + exact_sqdist a b.
Proof.
  intros Hv Ha Hb Hpos Hd Hsum.
  destruct v as [|v0 [|v1 [|v2 [|v3 [|]]]]]; try discriminate.
  destruct a as [|a0 [|a1 [|a2 [|a3 [|a4 [|a5 [|a6 [|a7 [|]]]]]]]]];
    try discriminate.
  destruct b as [|b0 [|b1 [|b2 [|b3 [|b4 [|b5 [|b6 [|b7 [|]]]]]]]]];
    try discriminate.
  repeat match goal with
         | H : Forall2 _ (_ :: _) (_ :: _) |- _ =>
             apply Forall2_cons_1 in H as [? H]
         | H : Forall _ (_ :: _) |- _ => apply Forall_cons_1 in H as [? H]
         end.
  simpl. rewrite !int16_of_small by done.
  unfold exact_sqdist, squares, sumZ in *. simpl in Hsum. simpl.
  unfold INT32_MAX in Hsum.
  name_square a0 b0 s0. name_square a1 b1 s1. name_square a2 b2 s2.
  name_square a3 b3 s3. name_square a4 b4 s4. name_square a5 b5 s5.
  name_square a6 b6 s6. name_square a7 b7 s7.
  rewrite (add32_small s0 s4), (add32_small s1 s5), (add32_small s2 s6),
    (add32_small s3 s7) by (unfold is_int; lia).
  rewrite (add32_small v0), (add32_small v1), (add32_small v2),
    (add32_small v3) by (unfold is_int; lia).
  split; [done|]. split; [|lia].
  repeat (constructor; [lia|]). constructor.
Qed.

Lemma chunk_of_row (block : list Z) (off k dim : nat) :
  (k + 8 <= dim)%nat ->
  take 8 (drop k (take dim (drop off block))) = take 8 (drop (off + k) block).
Proof.
  intros Hk. rewrite <- (drop_drop block k off).
  generalize (drop off block) as l. intros l.
  replace dim with (k + (dim - k))%nat by lia.
  rewrite <- take_drop_commute, take_take. f_equal. lia.
Qed.

(** The accumulator of the specialised routine, when [embedding_dim] is a
    multiple of the vector width: its four lanes are non-negative and add
    up to the exact distance whenever the rows fit. *)
Lemma nld_pair_sum_vec_spec (block : list Z)
    (embedding_dim row_i row_j : Z) (g : globals) :
  0 <= embedding_dim <= INT32_MAX - 7 -> embedding_dim mod 8 = 0 ->
  0 <= row_i -> 0 <= row_j ->
  row_i + embedding_dim <= Z.of_nat (length block) ->
  row_j + embedding_dim <= Z.of_nat (length block) ->
  let a := take (Z.to_nat embedding_dim) (drop (Z.to_nat row_i) block) in
  let b := take (Z.to_nat embedding_dim) (drop (Z.to_nat row_j) block) in
  fits a b ->
  exists sum_vec g',
    nld_pair_sum_vec block embedding_dim row_i row_j g
    = Returns (sum_vec, g')
    /\ length sum_vec = 4%nat
    /\ Forall (fun z => 0 <= z) sum_vec
    /\ sumZ sum_vec = exact_sqdist a b.
Proof.
  intros Hdim Hmod Hi Hj Hlen_i Hlen_j a b Hfits. unfold INT32_MAX in Hdim.
  unfold nld_pair_sum_vec.
  set (inv := fun (k : Z) (v : list Z) =>
         length v = 4%nat /\ Forall (fun z => 0 <= z) v
         /\ sumZ v = sumZ (take (Z.to_nat k) (squares a b))).
  assert (Htrip : 0 + 8 * trip_count 8 0 embedding_dim = embedding_dim).
  { unfold trip_count.
    pose proof (Z.div_mod embedding_dim 8 ltac:(lia)) as Hdm.
    replace (embedding_dim - 0 + 8 - 1) with (7 + embedding_dim `div` 8 * 8)
      by lia.
    rewrite Z.div_add by lia. change (7 `div` 8) with 0. lia. }
  match goal with
  | |- context [bind (for_loop ?f ?c ?n ?b ?k ?s)] =>
      destruct (counted_loop_rule inv 8 0 embedding_dim f c b s g)
        as (v & g' & Hrun & Hv_len & Hv_pos & Hv_sum)
  end.
  - lia.
  - intros k. apply Z.ltb_lt.
  - lia.
  - unfold INT32_MAX. lia.
  - unfold upto. lia.
  - split; [done|]. split; [by repeat constructor|done].
  - intros k v Hk Hk8 (Hv_len & Hv_pos & Hv_sum) g1.
    rewrite Z.sub_0_r in Hk8.
    assert (k + 8 <= embedding_dim) as Hk_end.
    { pose proof (Z.div_mod embedding_dim 8 ltac:(lia)).
      pose proof (Z.div_mod k 8 ltac:(lia)). lia. }
    erewrite bind_returns by (apply vld1q_s16_ok; lia).
    erewrite bind_returns by (apply vld1q_s16_ok; lia).
    assert (Ha : take 8 (drop (Z.to_nat k) a)
                 = take 8 (drop (Z.to_nat (row_i + k)) block)).
    { unfold a. rewrite chunk_of_row by lia. do 2 f_equal. lia. }
    assert (Hb : take 8 (drop (Z.to_nat k) b)
                 = take 8 (drop (Z.to_nat (row_j + k)) block)).
    { unfold b. rewrite chunk_of_row by lia. do 2 f_equal. lia. }
    pose proof (fits_prefix a b (Z.to_nat k + 8) Hfits) as Hp.
    rewrite sumZ_take_add, <- squares_take_drop, Ha, Hb in Hp.
    pose proof (fits_take_drop a b (Z.to_nat k) 8 Hfits) as Hd.
    rewrite Ha, Hb in Hd.
    destruct (chunk_lanes v (take 8 (drop (Z.to_nat (row_i + k)) block))
                            (take 8 (drop (Z.to_nat (row_j + k)) block)))
      as (Hlen' & Hpos' & Hsum');
      [done|rewrite length_take, length_drop; lia
      |rewrite length_take, length_drop; lia|done|done| |].
    { rewrite Hv_sum. unfold exact_sqdist. lia. }
    eexists _, _. split; [reflexivity|].
    split; [done|]. split; [done|].
    rewrite Hsum', Hv_sum.
    replace (Z.to_nat (k + 8)) with (Z.to_nat k + 8)%nat by lia.
    rewrite sumZ_take_add, <- squares_take_drop, Ha, Hb.
    reflexivity.
  - run_with Hrun. simpl. rewrite Htrip in *.
    eexists _, _. split; [reflexivity|].
    split; [done|]. split; [done|].
    rewrite Hv_sum. unfold exact_sqdist.
    rewrite take_ge; [done|].
    unfold squares, a, b. rewrite length_zip_with, !length_take, !length_drop.
    lia.
Qed.

(** Where nothing wraps.  Take two embedding vectors [a] and [b] of
    [embedding_dim] cells whose component differences all fit in 16 bits
    and whose exact squared distance [sum_k (a[k] - b[k])^2] is at most
    [INT32_MAX].  Then the generic routine returns that exact sum in its
    32-bit accumulator, and, when [embedding_dim] is a multiple of 8, the
    four 32-bit lanes of the specialised accumulator are non-negative and
    add up to it. *)
Theorem pair_sum_exact (rows : list (list Z)) (block : list Z)
    (embedding_dim i j row_i row_j : Z) (a b : list Z) (g1 g2 : globals) :
  0 <= embedding_dim <= INT32_MAX - 7 ->
  length a = Z.to_nat embedding_dim ->
  length b = Z.to_nat embedding_dim ->
  Forall2 (fun x y => is_int16 (x - y)) a b ->
  exact_sqdist a b <= INT32_MAX ->
  0 <= exact_sqdist a b <= INT32_MAX
  /\ (0 <= i -> 0 <= j ->
      rows !! Z.to_nat i = Some a -> rows !! Z.to_nat j = Some b ->
      exists g1',
        cmsis_pair_sum rows embedding_dim i j g1
        = Returns (exact_sqdist a b, g1'))
  /\ (embedding_dim mod 8 = 0 ->
      0 <= row_i -> 0 <= row_j ->
      row_i + embedding_dim <= Z.of_nat (length block) ->
      row_j + embedding_dim <= Z.of_nat (length block) ->
      take (Z.to_nat embedding_dim) (drop (Z.to_nat row_i) block) = a ->
      take (Z.to_nat embedding_dim) (drop (Z.to_nat row_j) block) = b ->
      exists sum_vec g2',
        nld_pair_sum_vec block embedding_dim row_i row_j g2
        = Returns (sum_vec, g2')
        /\ length sum_vec = 4%nat
        /\ Forall (fun z => 0 <= z) sum_vec
        /\ sumZ sum_vec = exact_sqdist a b).
Proof.
  intros Hdim Hlen_a Hlen_b Hdiff Hsum.
  assert (Hfits : fits a b) by (split; done).
  split; [|split].
  - split; [|done]. apply sumZ_nonneg, squares_nonneg.
  - intros Hi Hj Hrow_i Hrow_j.
    destruct (cmsis_pair_sum_spec rows embedding_dim i j a b g1)
      as (sum & g' & Hrun & _ & Hexact);
      [unfold is_int, INT32_MAX in *; lia..|done|done|done|done|done|done|].
    rewrite Hexact in Hrun by done. eauto.
  - intros Hmod Hi Hj Hend_i Hend_j Ha Hb.
    destruct (nld_pair_sum_vec_spec block embedding_dim row_i row_j g2)
      as (v & g' & Hrun & Hv); [done..| |].
    + by rewrite Ha, Hb.
    + rewrite Ha, Hb in Hv. eauto.
Qed.

(** Beyond 32 bits.  The signal [extremes] with [embedding_dim = 2],
    [time_delay = 1] gives the vectors (-32768, 32767) and
    (32767, -32768); the scalar loop squares the difference 65535 in 32
    bits, which wraps, and the accumulator ends at -262142 while the exact
    sum is 8589672450 (the stored distance is -8).  The signal
    [extremes_wide] with [embedding_dim = 8], [time_delay = 2] gives the
    vectors (32767, 0, ..., 0) and (-32768, 0, ..., 0); on the vector path
    the 16-bit subtraction wraps to -1, and the accumulator is 1 while the
    exact sum is 4294836225. *)
Lemma pair_sum_wraps :
  cmsis_reconstruct 0 extremes 2 1 2 fresh_globals
  = Returns ([[-32768; 32767]; [32767; -32768]], mk_globals 8 0 0 4 0)
  /\ (rows <- cmsis_reconstruct 0 extremes 2 1 2 ;;
      cmsis_pair_sum rows 2 0 1) fresh_globals
     = Returns (-262142, mk_globals 14 0 0 4 0)
  /\ exact_sqdist [-32768; 32767] [32767; -32768] = 8589672450
  /\ (rows <- cmsis_reconstruct 0 extremes 2 1 2 ;;
      cmsis_distances 0 rows 2 2) fresh_globals
     = Returns ([0; -8; 0; 0], mk_globals 14 0 0 5 0)
  /\ cmsis_reconstruct 0 extremes_wide 8 2 2 fresh_globals
     = Returns ([[32767; 0; 0; 0; 0; 0; 0; 0];
                 [-32768; 0; 0; 0; 0; 0; 0; 0]], mk_globals 32 0 0 16 0)
  /\ (rows <- cmsis_reconstruct 0 extremes_wide 8 2 2 ;;
      cmsis_pair_sum rows 8 0 1) fresh_globals
     = Returns (1, mk_globals 40 5 0 16 0)
  /\ exact_sqdist [32767; 0; 0; 0; 0; 0; 0; 0] [-32768; 0; 0; 0; 0; 0; 0; 0]
     = 4294836225.
Proof. repeat split; vm_compute; reflexivity. Qed.

(** The vectors (3, 0, ..., 0) and (1, 0, ..., 0), in rows 0 and 1 of
    either layout, are such a pair. *)
Lemma pair_sum_exact_witness :
  0 <= exact_sqdist [3; 0; 0; 0; 0; 0; 0; 0] [1; 0; 0; 0; 0; 0; 0; 0]
    <= INT32_MAX
  /\ (exists g1',
        cmsis_pair_sum [[3; 0; 0; 0; 0; 0; 0; 0]; [1; 0; 0; 0; 0; 0; 0; 0]]
          8 0 1 fresh_globals
        = Returns (exact_sqdist [3; 0; 0; 0; 0; 0; 0; 0]
                                [1; 0; 0; 0; 0; 0; 0; 0], g1'))
  /\ (exists sum_vec g2',
        nld_pair_sum_vec [3; 0; 0; 0; 0; 0; 0; 0; 1; 0; 0; 0; 0; 0; 0; 0]
          8 0 8 fresh_globals
        = Returns (sum_vec, g2')
        /\ length sum_vec = 4%nat
        /\ Forall (fun z => 0 <= z) sum_vec
        /\ sumZ sum_vec = exact_sqdist [3; 0; 0; 0; 0; 0; 0; 0]
                                       [1; 0; 0; 0; 0; 0; 0; 0]).
Proof.
  destruct (pair_sum_exact
              [[3; 0; 0; 0; 0; 0; 0; 0]; [1; 0; 0; 0; 0; 0; 0; 0]]
              [3; 0; 0; 0; 0; 0; 0; 0; 1; 0; 0; 0; 0; 0; 0; 0]
              8 0 1 0 8 [3; 0; 0; 0; 0; 0; 0; 0] [1; 0; 0; 0; 0; 0; 0; 0]
              fresh_globals fresh_globals)
    as (Hrange & Hgeneric & Hlanes).
  - unfold INT32_MAX. lia.
  - reflexivity.
  - reflexivity.
  - repeat constructor; unfold is_int16; lia.
  - vm_compute. discriminate.
  - split; [exact Hrange|]. split.
    + apply Hgeneric; [lia|lia|reflexivity|reflexivity].
    + apply Hlanes; [reflexivity|lia|lia|simpl; lia|simpl; lia
                    |reflexivity|reflexivity].
Defined.

(** ** The generic routine as a whole *)

Lemma for_loop_skip {S} (fuel : nat) (cond : Z -> bool) (next : Z -> Z)
    (body : Z -> S -> M S) (k : Z) (s : S) (g : globals) :
  cond k = false -> for_loop fuel cond next body k s g = Returns ((k, s), g).
Proof. intros H. destruct fuel; simpl; rewrite H; reflexivity. Qed.

(** The table of the generic routine: it is produced whenever the rows have
    [embedding_dim] cells and [size * size] is an [int], and the cell of
    a pair [i < j] whose rows fit holds the exact distance, shifted and
    narrowed to 16 bits. *)
Lemma cmsis_distances_spec (junk : Z) (phase_space : list (list Z))
    (embedding_dim size : Z) (g : globals) :
  is_int (embedding_dim - 8) -> embedding_dim <= INT32_MAX ->
  size * size <= INT32_MAX ->
  (forall i, 0 <= i < size ->
     exists row, phase_space !! Z.to_nat i = Some row
                 /\ length row = Z.to_nat embedding_dim) ->
  exists distances g',
    cmsis_distances junk phase_space embedding_dim size g
    = Returns (distances, g')
    /\ length distances = Z.to_nat (size * size)
    /\ forall i j a b,
         0 <= i -> i < j < size ->
         phase_space !! Z.to_nat i = Some a ->
         phase_space !! Z.to_nat j = Some b ->
         fits a b ->
         distances !! Z.to_nat (i * size + j)
         = Some (int16_of (Z.shiftr (exact_sqdist a b) 15)).
Proof.
  intros Hdim8 Hdim Hsq Hrows. unfold INT32_MAX in *.
  assert (Hsize : is_int size) by (unfold is_int; nia).
  unfold cmsis_distances.
  rewrite (mul32_small size size) by (unfold is_int; nia).
  rewrite malloc_cells by (unfold is_int; nia).
  set (done_ := fun (before : Z -> Z -> Prop) (d : list Z) =>
         length d = Z.to_nat (size * size)
         /\ forall i j a b,
              0 <= i -> i < j < size -> before i j ->
              phase_space !! Z.to_nat i = Some a ->
              phase_space !! Z.to_nat j = Some b ->
              fits a b ->
              d !! Z.to_nat (i * size + j)
              = Some (int16_of (Z.shiftr (exact_sqdist a b) 15))).
  match goal with
  | |- context [bind (for_loop ?f ?c ?n ?b ?k ?s)] =>
      destruct (counted_loop_rule
                  (fun i => done_ (fun i' _ => i' < i)) 1 0 size f c b s g)
        as (d & g' & Hrun & Hd_len & Hd)
  end.
  - lia.
  - intros k. apply Z.ltb_lt.
  - lia.
  - unfold is_int, INT32_MAX in *. lia.
  - rewrite trip_count_unit. unfold upto. lia.
  - split; [by rewrite length_replicate|]. intros; lia.
  - intros i d Hi _ [Hd_len Hd] g1.
    rewrite (add32_small i 1) by (unfold is_int in *; lia).
    match goal with
    | |- context [bind (for_loop ?f ?c ?n ?b ?k ?s)] =>
        destruct (counted_loop_rule
                    (fun j => done_ (fun i' j' => i' < i \/ i' = i /\ j' < j))
                    1 (i + 1) size f c b s g1)
          as (d' & g2 & Hrun' & Hd'_len & Hd')
    end.
    + lia.
    + intros k. apply Z.ltb_lt.
    + lia.
    + unfold is_int, INT32_MAX in *. lia.
    + rewrite trip_count_unit. unfold upto. lia.
    + split; [done|]. intros i' j' a b Hi' Hj' Hbefore. apply Hd; lia.
    + intros j d0 Hj _ [Hd0_len Hd0] g2.
      destruct (Hrows i) as (row_i & Hrow_i & Hlen_i); [lia|].
      destruct (Hrows j) as (row_j & Hrow_j & Hlen_j); [lia|].
      destruct (cmsis_pair_sum_spec phase_space embedding_dim i j
                  row_i row_j g2)
        as (sum & g3 & Hsum & _ & Hexact); [done|done|lia|lia|done..|].
      run_with Hsum.
      rewrite (mul32_small i size) by (unfold is_int; nia).
      rewrite add32_small by (unfold is_int; nia).
      erewrite bind_returns by (apply store_ok; nia).
      eexists _, _. split; [reflexivity|].
      split; [by rewrite length_insert|].
      intros i' j' a b Hi' Hj' Hbefore Ha Hb Hfits.
      destruct (decide (i' = i /\ j' = j)) as [[-> ->]|Hne].
      * rewrite list_lookup_insert_eq by nia.
        rewrite Ha in Hrow_i. rewrite Hb in Hrow_j.
        injection Hrow_i as <-. injection Hrow_j as <-.
        by rewrite Hexact.
      * rewrite list_lookup_insert_ne by nia.
        apply Hd0; [done|done|lia|done..].
    + run_with Hrun'. simpl. eexists _, _. split; [reflexivity|].
      split; [done|].
      intros i' j' a b Hi' Hj' Hbefore. apply Hd'; [done|done|].
      rewrite trip_count_unit. lia.
  - run_with Hrun. simpl. exists d, g'. split; [reflexivity|].
    split; [done|].
    intros i j a b Hi Hj. apply Hd; [done|done|].
    rewrite trip_count_unit. lia.
Qed.

Lemma cmsis_cleanup_returns (phase_space : list (list Z)) (size : Z)
    (g : globals) :
  is_int size -> length phase_space = Z.to_nat size ->
  exists g', cmsis_cleanup phase_space size g = Returns (tt, g').
Proof.
  intros Hsize Hlen. unfold cmsis_cleanup.
  match goal with
  | |- context [bind (for_loop ?f ?c ?n ?b ?k ?s)] =>
      destruct (counted_loop_rule (fun _ _ => True) 1 0 size f c b s g)
        as (u & g' & Hrun & _)
  end.
  - lia.
  - intros k. apply Z.ltb_lt.
  - lia.
  - unfold is_int, INT32_MAX in *. lia.
  - rewrite trip_count_unit. unfold upto. lia.
  - done.
  - intros i [] Hi _ _ g1.
    destruct (lookup_lt_is_Some_2 phase_space (Z.to_nat i)) as [row Hrow];
      [lia|].
    run_load Hrow. eexists _, _. split; [reflexivity|done].
  - run_with Hrun. eauto.
Qed.

(** The generic routine returns whenever its sizes are representable and
    no sample index is negative (the delay is not negative, or there is at
    most one component): every access is then in range. *)
Lemma cmsis_returns (clock : nat -> Z) (junk : Z) (junk_double : float)
    (signal : q15_vector_t.t) (embedding_dim time_delay result : Z)
    (g : globals) :
  well_formed signal ->
  is_int (embedding_dim - 8) -> embedding_dim <= INT32_MAX ->
  0 <= time_delay \/ embedding_dim <= 1 ->
  q15_vector_t.length signal <= INT32_MAX ->
  is_int ((embedding_dim - 1) * time_delay) ->
  (q15_vector_t.length signal - (embedding_dim - 1) * time_delay)
    * (q15_vector_t.length signal - (embedding_dim - 1) * time_delay)
    <= INT32_MAX ->
  exists metrics g',
    cmsis_compute_lyapunov_q15 clock junk junk_double signal
      embedding_dim time_delay result g = Returns ((metrics, 0), g').
Proof.
  intros [Hlen _] Hdim8 Hdim Hdelay Hsmall Hprod Hsq.
  set (size := q15_vector_t.length signal
               - (embedding_dim - 1) * time_delay) in *.
  unfold INT32_MAX in *.
  assert (Hsize : is_int size) by (unfold is_int; nia).
  assert (Hdim_int : is_int embedding_dim) by (unfold is_int in *; lia).
  assert (Hpss : phase_space_size signal embedding_dim time_delay = size).
  { apply phase_space_size_valid; [| done | | done];
      unfold is_int in *; change (2 ^ 64) with 18446744073709551616; lia. }
  unfold cmsis_compute_lyapunov_q15. rewrite Hpss.
  unfold bind at 1. simpl. unfold bind at 1. simpl.
  match goal with
  | |- context [bind (cmsis_reconstruct _ _ _ _ _) _ ?g1] =>
      destruct (cmsis_reconstruct_spec junk signal _ embedding_dim time_delay
                  size eq_refl Hdim_int Hsize) with (g := g1)
        as (rows & g2 & Hrec & Hrows_len & Hrows)
  end.
  - unfold INT32_MAX. lia.
  - intros i j Hi Hj. unfold size in Hi.
    destruct Hdelay as [Hdelay|Hone]; [nia|].
    assert (j = 0) as -> by lia. assert (embedding_dim = 1) as -> by lia.
    lia.
  - run_with Hrec.
    destruct (cmsis_distances_spec junk rows embedding_dim size g2)
      as (distances & g3 & Hdist & _); [done|unfold INT32_MAX; lia..| |].
    { intros i Hi. destruct (Hrows i Hi) as (row & Hrow & Hrow_len & _).
      eauto. }
    run_with Hdist.
    destruct (cmsis_cleanup_returns rows size g3) as (g4 & Hclean);
      [done..|].
    run_with Hclean.
    eexists _, _. reflexivity.
Qed.

(** C9 (as amended).  Whatever the signal, [embedding_dim] and
    [time_delay], a call of the generic routine that returns has stored 0
    in [*result].  And the call does return, so that the 0 is written, on
    this domain: the signal is well formed and has at most [INT32_MAX]
    samples; [time_delay >= 0] or [embedding_dim <= 1]; [embedding_dim - 8]
    and [(embedding_dim - 1) * time_delay] are representable as [int]s;
    and the square of the number of vectors,
    [length - (embedding_dim - 1) * time_delay], is at most [INT32_MAX]. *)
Theorem cmsis_result_is_zero (clock : nat -> Z) (junk : Z)
    (junk_double : float) (signal : q15_vector_t.t)
    (embedding_dim time_delay result : Z) (g : globals) :
  (forall metrics r g',
     cmsis_compute_lyapunov_q15 clock junk junk_double signal embedding_dim
       time_delay result g = Returns ((metrics, r), g') ->
     r = 0)
  /\ (well_formed signal ->
      is_int (embedding_dim - 8) -> embedding_dim <= INT32_MAX ->
      0 <= time_delay \/ embedding_dim <= 1 ->
      q15_vector_t.length signal <= INT32_MAX ->
      is_int ((embedding_dim - 1) * time_delay) ->
      (q15_vector_t.length signal - (embedding_dim - 1) * time_delay)
        * (q15_vector_t.length signal - (embedding_dim - 1) * time_delay)
        <= INT32_MAX ->
      exists metrics g',
        cmsis_compute_lyapunov_q15 clock junk junk_double signal
          embedding_dim time_delay result g = Returns ((metrics, 0), g')).
Proof.
  split.
  - intros metrics r g' Hrun. unfold cmsis_compute_lyapunov_q15 in Hrun.
    repeat (apply bind_inv in Hrun as (? & ? & _ & Hrun)).
    unfold ret in Hrun. by injection Hrun as _ <- _.
  - apply cmsis_returns.
Qed.

(** ** The generic routine without an embedding vector *)

Lemma cmsis_reconstruct_empty (junk : Z) (signal : q15_vector_t.t)
    (embedding_dim time_delay size : Z) (g : globals) :
  is_int size -> size <= 0 ->
  cmsis_reconstruct junk signal embedding_dim time_delay size g
  = Returns ([], g).
Proof.
  intros Hint Hsize. unfold cmsis_reconstruct.
  rewrite (malloc_cells [] size 8) by (done || lia).
  erewrite bind_returns by (apply for_loop_skip, Z.ltb_ge; lia).
  replace (Z.to_nat size) with 0%nat by lia. reflexivity.
Qed.

(** Without a vector no pair is visited: the table is returned as it was
    allocated, and no counter moves. *)
Lemma cmsis_distances_empty (junk : Z) (phase_space : list (list Z))
    (embedding_dim size : Z) (g : globals) :
  size <= 0 ->
  cmsis_distances junk phase_space embedding_dim size g
  = Returns (malloc junk (uint64_of (uint64_of (mul32 size size) * 2)) 2, g).
Proof.
  intros Hsize. unfold cmsis_distances.
  erewrite bind_returns by (apply for_loop_skip, Z.ltb_ge; lia).
  reflexivity.
Qed.

Lemma cmsis_cleanup_empty (phase_space : list (list Z)) (size : Z)
    (g : globals) :
  size <= 0 -> cmsis_cleanup phase_space size g = Returns (tt, g).
Proof.
  intros Hsize. unfold cmsis_cleanup.
  erewrite bind_returns by (apply for_loop_skip, Z.ltb_ge; lia).
  reflexivity.
Qed.

(** ** Metrics derivation *)

(** C5, counterexample.  After a reset, with no instruction recorded, the
    snapshot reports a utilization that is NaN, not 0; so does
    [measure_simd_utilization]. *)
Lemma utilization_after_reset_is_nan :
  snapshot_after_reset millisecond_clock 0 (mk_globals 40 5 0 17 0)
  = Returns (mk_metrics 0 nan 0 0 0, mk_globals 0 0 0 0 2)
  /\ PrimFloat.is_nan nan = true
  /\ utilization_after_reset millisecond_clock (mk_globals 40 5 0 17 0)
     = Returns (nan, mk_globals 0 0 0 0 1).
Proof. repeat split; vm_compute; reflexivity. Qed.

(** C5 (as amended).  After a reset, with no instruction recorded, both
    derivations of the utilization return, without a fault, the unguarded
    IEEE quotient 0.0 / 0.0 * 100.0, which is NaN; the instruction counts
    of the snapshot are 0. *)
Theorem utilization_unguarded (clock : nat -> Z) (junk_double : float)
    (g : globals) :
  (exists metrics g',
     snapshot_after_reset clock junk_double g = Returns (metrics, g')
     /\ total_instructions metrics = 0
     /\ simd_instructions metrics = 0
     /\ simd_utilization_percent metrics = nan)
  /\ (exists g', utilization_after_reset clock g = Returns (nan, g')).
Proof.
  split.
  - cbv [snapshot_after_reset bind reset_performance_counters
         get_performance_metrics get_globals mach_absolute_time ret].
    eexists _, _. split; [reflexivity|]. repeat split.
  - cbv [utilization_after_reset bind reset_performance_counters
         measure_simd_utilization get_globals ret].
    eexists. reflexivity.
Qed.

(** ** The DFA entry points *)

(** C8, counterexample.  On the nine-sample signal, the box sizes (1, 2)
    have [min_box_size < 2], the box sizes (2, 5) have
    [max_box_size > length / 4] and the box sizes (3, 2) have
    [min_box_size > max_box_size]; for each of them both entry points
    return their metrics record. *)
Lemma dfa_accepts_invalid_box_sizes :
  1 < 2 /\ 5 > q15_vector_t.length step_signal / 4 /\ 3 > 2
  /\ cmsis_compute_dfa_q15 step_signal 1 2 7 fresh_globals
     = Returns (mk_metrics 0 60 0 0 0, 7, fresh_globals)
  /\ cmsis_compute_dfa_q15 step_signal 2 5 7 fresh_globals
     = Returns (mk_metrics 0 60 0 0 0, 7, fresh_globals)
  /\ cmsis_compute_dfa_q15 step_signal 3 2 7 fresh_globals
     = Returns (mk_metrics 0 60 0 0 0, 7, fresh_globals)
  /\ nld_compute_dfa_q15 step_signal 1 2 7 fresh_globals
     = Returns (mk_metrics 0 95 0 0 0, 7, fresh_globals)
  /\ nld_compute_dfa_q15 step_signal 2 5 7 fresh_globals
     = Returns (mk_metrics 0 95 0 0 0, 7, fresh_globals)
  /\ nld_compute_dfa_q15 step_signal 3 2 7 fresh_globals
     = Returns (mk_metrics 0 95 0 0 0, 7, fresh_globals).
Proof. repeat split. Qed.

(** C8 (as amended).  With [min_box_size < 2], with
    [max_box_size > length / 4] or with [min_box_size > max_box_size], as
    with any other box sizes, both DFA entry points report no error: they
    return a metrics record, and neither the globals nor [*alpha]
    change. *)
Theorem dfa_never_rejects (signal : q15_vector_t.t)
    (min_box_size max_box_size alpha : Z) (g : globals) :
  min_box_size < 2 \/ max_box_size > q15_vector_t.length signal / 4
  \/ min_box_size > max_box_size ->
  (exists metrics,
     cmsis_compute_dfa_q15 signal min_box_size max_box_size alpha g
     = Returns (metrics, alpha, g))
  /\ (exists metrics,
        nld_compute_dfa_q15 signal min_box_size max_box_size alpha g
        = Returns (metrics, alpha, g)).
Proof. intros _. split; eexists; reflexivity. Qed.

Lemma dfa_never_rejects_witness :
  (exists metrics,
     cmsis_compute_dfa_q15 step_signal 1 0 7 fresh_globals
     = Returns (metrics, 7, fresh_globals))
  /\ (exists metrics,
        nld_compute_dfa_q15 step_signal 1 0 7 fresh_globals
        = Returns (metrics, 7, fresh_globals)).
Proof.
  apply (dfa_never_rejects step_signal 1 0 7 fresh_globals).
  left. lia.
Defined.

(** C10.  Whatever the signal, the box sizes and the globals, both DFA
    entry points return with [*alpha] as it was on entry, the globals
    unchanged, and a metrics record that is zero in every field but
    [simd_utilization_percent], which is 60.0 for the generic variant and
    95.0 for the specialised one. *)
Theorem dfa_placeholders (signal : q15_vector_t.t)
    (min_box_size max_box_size alpha : Z) (g : globals) :
  cmsis_compute_dfa_q15 signal min_box_size max_box_size alpha g
  = Returns (mk_metrics 0 60 0 0 0, alpha, g)
  /\ nld_compute_dfa_q15 signal min_box_size max_box_size alpha g
     = Returns (mk_metrics 0 95 0 0 0, alpha, g).
Proof. split; reflexivity. Qed.

(** ** The two distance computations compared *)

(** C1, at the failing input [step_signal] with [embedding_dim = 8] and
    [time_delay = 1].  The two embedding vectors are (16384, 0, ..., 0)
    and (0, ..., 0); their exact squared distance is 2^28, which the shift
    scales to 8192.  The generic routine stores 8192 for the pair (0, 1).
    The specialised routine, for which vector 1 is the only candidate of
    query 0, stores 0: the accumulator of the pair is the lane vector
    (2^28, 0, 0, 0), and its lanes are never added, only compared. *)
Theorem strategies_disagree :
  cmsis_reconstruct 0 step_signal 8 1 2 fresh_globals
  = Returns ([[16384; 0; 0; 0; 0; 0; 0; 0]; [0; 0; 0; 0; 0; 0; 0; 0]],
             mk_globals 32 0 0 16 0)
  /\ nld_reconstruct 0 step_signal 8 1 2 fresh_globals
     = Returns ([16384; 0; 0; 0; 0; 0; 0; 0; 0; 0; 0; 0; 0; 0; 0; 0],
                mk_globals 16 4 0 16 0)
  /\ Z.shiftr (exact_sqdist [16384; 0; 0; 0; 0; 0; 0; 0]
                            [0; 0; 0; 0; 0; 0; 0; 0]) 15 = 8192
  /\ (rows <- cmsis_reconstruct 0 step_signal 8 1 2 ;;
      distances <- cmsis_distances 0 rows 8 2 ;;
      load distances (0 * 2 + 1)) fresh_globals
     = Returns (8192, mk_globals 40 5 0 17 0)
  /\ (block <- nld_reconstruct 0 step_signal 8 1 2 ;;
      nld_pair_sum_vec block 8 (0 * 8) (1 * 8)) fresh_globals
     = Returns ([268435456; 0; 0; 0], mk_globals 24 10 0 16 0)
  /\ (block <- nld_reconstruct 0 step_signal 8 1 2 ;;
      min_distances <- nld_min_distances 0 block 8 1 2 ;;
      load min_distances 0) fresh_globals
     = Returns (0, mk_globals 32 16 0 18 0).
Proof. repeat split; vm_compute; reflexivity. Qed.

(** C2, at the failing input [two_steps] with [embedding_dim = 8] and
    [time_delay = 1].  There are three embedding vectors; the scaled
    squared distances of the pairs, as the generic routine stores them,
    are 12288 for (0, 1) and 4096 for (0, 2) and (1, 2), so the nearest
    eligible candidate of every query is at distance 4096.  The
    specialised routine stores 0 for every query, and 0 in [*result]. *)
Theorem min_distances_wrong :
  phase_space_size two_steps 8 1 = 3
  /\ (rows <- cmsis_reconstruct 0 two_steps 8 1 3 ;;
      cmsis_distances 0 rows 8 3) fresh_globals
     = Returns ([0; 12288; 4096; 0; 0; 4096; 0; 0; 0],
                mk_globals 72 15 0 27 0)
  /\ filter (fun j => 1 <= Z.abs (0 - j)) (seqZ 0 3) = [1; 2]
  /\ filter (fun j => 1 <= Z.abs (1 - j)) (seqZ 0 3) = [0; 2]
  /\ filter (fun j => 1 <= Z.abs (2 - j)) (seqZ 0 3) = [0; 1]
  /\ (block <- nld_reconstruct 0 two_steps 8 1 3 ;;
      nld_min_distances 0 block 8 1 3) fresh_globals
     = Returns ([0; 0; 0], mk_globals 72 42 0 27 0)
  /\ (exists metrics g',
        nld_compute_lyapunov_q15 millisecond_clock 0 0 two_steps 8 1 7
          fresh_globals
        = Returns (metrics, 0, g')).
Proof.
  repeat split; try (vm_compute; reflexivity).
  eexists _, _. vm_compute. reflexivity.
Qed.

(** ** Witnesses *)

Lemma ramp_well_formed : well_formed ramp.
Proof. split; [reflexivity|]. repeat constructor; unfold is_int16; lia. Qed.

Lemma step_signal_well_formed : well_formed step_signal.
Proof. split; [reflexivity|]. repeat constructor; unfold is_int16; lia. Qed.

(** C3 at the five-sample ramp, [embedding_dim = 2], [time_delay = 1]:
    four embedding vectors. *)
Lemma reconstruction_correct_witness :
  let size := 4 in
  phase_space_size ramp 2 1 = size
  /\ (exists rows g1',
        cmsis_reconstruct 0 ramp 2 1 size fresh_globals
        = Returns (rows, g1')
        /\ Z.of_nat (length rows) = size
        /\ forall i k, 0 <= i < size -> 0 <= k < 2 ->
             exists row v,
               rows !! Z.to_nat i = Some row
               /\ Z.of_nat (length row) = 2
               /\ q15_vector_t.data ramp !! Z.to_nat (i + k * 1) = Some v
               /\ row !! Z.to_nat k = Some v)
  /\ (exists block g2',
        nld_reconstruct 0 ramp 2 1 size fresh_globals
        = Returns (block, g2')
        /\ Z.of_nat (length block) = size * 2
        /\ forall i k, 0 <= i < size -> 0 <= k < 2 ->
             exists v,
               q15_vector_t.data ramp !! Z.to_nat (i + k * 1) = Some v
               /\ block !! Z.to_nat (i * 2 + k) = Some v).
Proof.
  destruct (reconstruction_correct 0 ramp 2 1 fresh_globals fresh_globals)
    as (Hsize & Hrows & Hblock).
  - exact ramp_well_formed.
  - lia.
  - lia.
  - simpl. lia.
  - vm_compute. discriminate.
  - split; [exact Hsize|]. split; [exact Hrows|].
    apply Hblock. vm_compute. discriminate.
Defined.

(** C6 at query 0 of the two vectors of [step_signal]. *)
Lemma temporal_exclusion_witness :
  let phase_space := [16384; 0; 0; 0; 0; 0; 0; 0; 0; 0; 0; 0; 0; 0; 0; 0] in
  let candidates := filter (fun j => 1 <= Z.abs (0 - j)) (seqZ 0 2) in
  nld_query phase_space 8 1 2 0 fresh_globals
  = foldM (fun j min_dist_vec =>
             sum_vec <- nld_pair_sum_vec phase_space 8
                          (mul32 0 8) (mul32 j 8) ;;
             ret (vminq_s32 min_dist_vec sum_vec))
          candidates (vdupq_n_s32 INT32_MAX) fresh_globals
  /\ (forall j, j ∈ candidates -> 0 <= j < 2 /\ 1 <= Z.abs (0 - j))
  /\ (forall j, 0 <= j < 2 -> Z.abs (0 - j) < 1 -> j ∉ candidates)
  /\ (1 <= 1 -> 0 ∉ candidates).
Proof.
  refine (temporal_exclusion
            [16384; 0; 0; 0; 0; 0; 0; 0; 0; 0; 0; 0; 0; 0; 0; 0]
            8 1 2 0 fresh_globals _ _).
  - unfold is_int. lia.
  - lia.
Defined.

(** C9 at [step_signal], [embedding_dim = 8], [time_delay = 1]. *)
Lemma cmsis_result_is_zero_witness :
  (forall metrics r g',
     cmsis_compute_lyapunov_q15 millisecond_clock 0 0 step_signal 8 1 7
       fresh_globals = Returns ((metrics, r), g') ->
     r = 0)
  /\ exists metrics g',
       cmsis_compute_lyapunov_q15 millisecond_clock 0 0 step_signal 8 1 7
         fresh_globals = Returns ((metrics, 0), g').
Proof.
  destruct (cmsis_result_is_zero millisecond_clock 0 0%float step_signal 8 1 7
              fresh_globals) as [Hzero Hreturns].
  split; [exact Hzero|].
  apply Hreturns.
  - exact step_signal_well_formed.
  - unfold is_int. lia.
  - unfold INT32_MAX. lia.
  - left. lia.
  - vm_compute. discriminate.
  - unfold is_int. lia.
  - vm_compute. discriminate.
Defined.

(** ** Faults *)

Lemma for_loop_S {S} (fuel : nat) (cond : Z -> bool) (next : Z -> Z)
    (body : Z -> S -> M S) (k : Z) (s : S) :
  for_loop (Datatypes.S fuel) cond next body k s
  = if cond k then (s' <- body k s ;; for_loop fuel cond next body (next k) s')
    else ret (k, s).
Proof. reflexivity. Qed.

Lemma bind_undefined {A B} (m : M A) (k : A -> M B) (g : globals) (f : fault) :
  m g = Undefined f -> bind m k g = Undefined f.
Proof. intros H. unfold bind. by rewrite H. Qed.

Lemma oob_only_load {A} (block : list A) (idx : Z) : oob_only (load block idx).
Proof.
  intros g f. unfold load. destruct (idx <? 0); [by intros [= <-]|].
  destruct (block !! Z.to_nat idx); [discriminate|by intros [= <-]].
Qed.

Lemma oob_only_store {A} (block : list A) (idx : Z) (v : A) :
  oob_only (store block idx v).
Proof.
  intros g f. unfold store.
  destruct (_ && _); [discriminate|by intros [= <-]].
Qed.

Lemma load_negative {A} (block : list A) (idx : Z) (g : globals) :
  idx < 0 -> load block idx g = Undefined OutOfBounds.
Proof.
  intros H. unfold load. apply Z.ltb_lt in H. by rewrite H.
Qed.

Lemma oob_only_ret {A} (a : A) : oob_only (ret a).
Proof. intros g f H. discriminate. Qed.

Lemma oob_only_bind {A B} (m : M A) (k : A -> M B) :
  oob_only m -> (forall a, oob_only (k a)) -> oob_only (bind m k).
Proof.
  intros Hm Hk g f H. unfold bind in H.
  destruct (m g) as [[a g1]|f1] eqn:E.
  - by apply (Hk a g1).
  - injection H as <-. by apply (Hm g).
Qed.

Lemma oob_only_add_total (n : Z) : oob_only (add_total_instructions n).
Proof. intros g f H. discriminate. Qed.

Lemma oob_only_add_simd (n : Z) : oob_only (add_simd_instructions n).
Proof. intros g f H. discriminate. Qed.

Lemma oob_only_add_memory (n : Z) : oob_only (add_memory_accesses n).
Proof. intros g f H. discriminate. Qed.

(** A step that can only fault out of bounds, followed by a computation
    that always does, faults out of bounds. *)
Lemma bind_oob {A B} (m : M A) (k : A -> M B) (g : globals) :
  oob_only m ->
  (forall a g', m g = Returns (a, g') -> k a g' = Undefined OutOfBounds) ->
  bind m k g = Undefined OutOfBounds.
Proof.
  intros Hm Hk. unfold bind. destruct (m g) as [[a g']|f] eqn:E.
  - by apply Hk.
  - f_equal. by apply (Hm g).
Qed.

(** ** A negative delay *)

(** With [time_delay < 0] and at least two components, the second
    component of the first vector is read at index [time_delay], before
    the first sample. *)
Lemma cmsis_reconstruct_negative_delay (junk : Z) (signal : q15_vector_t.t)
    (embedding_dim time_delay size : Z) (g : globals) :
  is_int time_delay -> time_delay < 0 ->
  2 <= embedding_dim -> 1 <= size ->
  cmsis_reconstruct junk signal embedding_dim time_delay size g
  = Undefined OutOfBounds.
Proof.
  intros Hint Hneg Hdim Hsize. unfold cmsis_reconstruct.
  apply bind_undefined.
  destruct (upto size) as [|fuel] eqn:Hfuel; [unfold upto in Hfuel; lia|].
  rewrite for_loop_S.
  replace (0 <? size) with true by (symmetry; apply Z.ltb_lt; lia).
  apply bind_undefined, bind_undefined.
  destruct (upto embedding_dim) as [|[|fuel']] eqn:Hfuel';
    [unfold upto in Hfuel'; lia..|].
  rewrite for_loop_S.
  replace (0 <? embedding_dim) with true by (symmetry; apply Z.ltb_lt; lia).
  apply bind_oob.
  { apply oob_only_bind; [apply oob_only_load|intros v].
    apply oob_only_bind; [apply oob_only_store|intros row].
    apply oob_only_bind; [apply oob_only_add_memory|intros _].
    apply oob_only_ret. }
  intros row g1 _. change (add32 0 1) with 1. rewrite for_loop_S.
  replace (1 <? embedding_dim) with true by (symmetry; apply Z.ltb_lt; lia).
  apply bind_undefined, bind_undefined.
  rewrite mul32_small by (unfold is_int in *; lia).
  rewrite add32_small by (unfold is_int in *; lia).
  apply load_negative. lia.
Qed.

Lemma nld_reconstruct_negative_delay (junk : Z) (signal : q15_vector_t.t)
    (embedding_dim time_delay size : Z) (g : globals) :
  is_int time_delay -> time_delay < 0 ->
  2 <= embedding_dim <= INT32_MAX -> 1 <= size ->
  nld_reconstruct junk signal embedding_dim time_delay size g
  = Undefined OutOfBounds.
Proof.
  intros Hint Hneg Hdim Hsize. unfold INT32_MAX in Hdim.
  unfold nld_reconstruct. apply bind_undefined.
  destruct (upto size) as [|fuel] eqn:Hfuel; [unfold upto in Hfuel; lia|].
  rewrite for_loop_S.
  replace (0 <? size) with true by (symmetry; apply Z.ltb_lt; lia).
  apply bind_undefined.
  rewrite sub32_small by (unfold is_int; lia).
  destruct (upto embedding_dim) as [|[|fuel']] eqn:Hfuel';
    [unfold upto in Hfuel'; lia..|].
  destruct (Z.le_gt_cases 8 embedding_dim) as [Hwide|Hnarrow].
  - (* the vector loop reads lane 1 first *)
    apply bind_undefined. rewrite for_loop_S.
    replace (0 <=? embedding_dim - 8) with true
      by (symmetry; apply Z.leb_le; lia).
    apply bind_undefined.
    apply bind_oob; [apply oob_only_load|]. intros v0 g1 _.
    apply bind_undefined. change (add32 0 1) with 1.
    rewrite mul32_small by (unfold is_int in *; lia).
    rewrite add32_small by (unfold is_int in *; lia).
    apply load_negative. lia.
  - (* no vector chunk: the scalar loop reads component 1 *)
    erewrite bind_returns by (apply for_loop_skip, Z.leb_gt; lia).
    cbn [fst snd]. apply bind_undefined. rewrite for_loop_S.
    replace (0 <? embedding_dim) with true by (symmetry; apply Z.ltb_lt; lia).
    apply bind_oob.
    { apply oob_only_bind; [apply oob_only_load|intros v].
      apply oob_only_bind; [apply oob_only_store|intros row].
      apply oob_only_bind; [apply oob_only_add_total|intros _].
      apply oob_only_bind; [apply oob_only_add_memory|intros _].
      apply oob_only_ret. }
    intros block g1 _. change (add32 0 1) with 1. rewrite for_loop_S.
    replace (1 <? embedding_dim) with true by (symmetry; apply Z.ltb_lt; lia).
    apply bind_undefined, bind_undefined.
    rewrite mul32_small by (unfold is_int in *; lia).
    rewrite add32_small by (unfold is_int in *; lia).
    apply load_negative. lia.
Qed.

(** The prologue of both routines: the counters are reset and the clock
    is read; this cannot fault. *)
Lemma prologue_returns (clock : nat -> Z) {A} (k : Z -> M A) (g : globals) :
  exists start g0,
    (_ <- reset_performance_counters clock ;;
     start <- mach_absolute_time clock ;; k start) g
    = k start g0.
Proof. eexists _, _. reflexivity. Qed.

Lemma negative_delay_undefined (clock : nat -> Z) (junk : Z)
    (junk_double : float) (signal : q15_vector_t.t)
    (embedding_dim time_delay result : Z) (g : globals) :
  time_delay < 0 -> 2 <= embedding_dim <= INT32_MAX ->
  well_formed signal ->
  q15_vector_t.length signal <= INT32_MAX ->
  is_int ((embedding_dim - 1) * time_delay) ->
  is_int (q15_vector_t.length signal - (embedding_dim - 1) * time_delay) ->
  cmsis_compute_lyapunov_q15 clock junk junk_double signal embedding_dim
    time_delay result g = Undefined OutOfBounds
  /\ nld_compute_lyapunov_q15 clock junk junk_double signal embedding_dim
       time_delay result g = Undefined OutOfBounds.
Proof.
  intros Hneg Hdim [Hlen _] Hsmall Hprod Hsize. unfold INT32_MAX in *.
  assert (Hdelay : is_int time_delay) by (unfold is_int in *; nia).
  assert (Hpss : phase_space_size signal embedding_dim time_delay
                 = q15_vector_t.length signal
                   - (embedding_dim - 1) * time_delay).
  { apply phase_space_size_valid; [|done| |done];
      unfold is_int; change (2 ^ 64) with 18446744073709551616; lia. }
  assert (Hpos : 1 <= phase_space_size signal embedding_dim time_delay)
    by (rewrite Hpss; nia).
  split.
  - unfold cmsis_compute_lyapunov_q15.
    match goal with
    | |- bind _ (fun _ => bind _ ?k) _ = _ =>
        destruct (prologue_returns clock k g) as (start & g0 & ->)
    end.
    apply bind_undefined. by apply cmsis_reconstruct_negative_delay; [..|lia|].
  - unfold nld_compute_lyapunov_q15.
    match goal with
    | |- bind _ (fun _ => bind _ ?k) _ = _ =>
        destruct (prologue_returns clock k g) as (start & g0 & ->)
    end.
    apply bind_undefined.
    by apply nld_reconstruct_negative_delay; [..|unfold INT32_MAX; lia|].
Qed.

(** ** Loops whose invariant mentions the globals *)

Lemma for_loop_rule_g {S} (I : nat -> Z -> S -> globals -> Prop) (n : nat)
    (cond : Z -> bool) (next : Z -> Z) (body : Z -> S -> M S) :
  (forall m k s g, (m < n)%nat -> I m k s g ->
     cond k = true /\
     exists s' g',
       body k s g = Returns (s', g') /\ I (Datatypes.S m) (next k) s' g') ->
  (forall k s g, I n k s g -> cond k = false) ->
  forall fuel m k s g,
    (m <= n)%nat -> (n - m <= fuel)%nat -> I m k s g ->
    exists k' s' g',
      for_loop fuel cond next body k s g = Returns ((k', s'), g')
      /\ I n k' s' g'.
Proof.
  intros Hstep Hexit.
  induction fuel as [|fuel IH]; intros m k s g Hm Hfuel HI.
  - assert (m = n) as -> by lia. simpl. rewrite (Hexit _ _ _ HI). eauto.
  - destruct (decide (m = n)) as [->|Hne].
    + simpl. rewrite (Hexit _ _ _ HI). eauto.
    + destruct (Hstep m k s g) as [Hc (s' & g' & Hbody & HI')]; [lia|done|].
      simpl. rewrite Hc.
      rewrite (bind_returns _ _ _ _ _ Hbody).
      apply (IH (Datatypes.S m)); [lia|lia|done].
Qed.

Lemma counted_loop_rule_g {S} (I : Z -> S -> globals -> Prop) (st lo hi : Z)
    (fuel : nat) (cond : Z -> bool) (body : Z -> S -> M S) (s : S)
    (g : globals) :
  0 < st ->
  (forall k, cond k = true <-> k < hi) ->
  -2147483648 <= lo -> hi + st - 1 <= INT32_MAX ->
  (Z.to_nat (trip_count st lo hi) <= fuel)%nat ->
  I lo s g ->
  (forall k s g, lo <= k < hi -> (k - lo) mod st = 0 -> I k s g ->
     exists s' g', body k s g = Returns (s', g') /\ I (k + st) s' g') ->
  exists s' g',
    for_loop fuel cond (fun k => add32 k st) body lo s g
    = Returns ((lo + st * trip_count st lo hi, s'), g')
    /\ I (lo + st * trip_count st lo hi) s' g'.
Proof.
  intros Hst Hcond Hlo Hhi Hfuel HI Hbody.
  set (n := trip_count st lo hi) in *.
  assert (Hn0 : 0 <= n) by (unfold n, trip_count; lia).
  assert (Hlast : hi <= lo + st * n).
  { unfold n, trip_count.
    pose proof (Z.mul_succ_div_gt (hi - lo + st - 1) st Hst). nia. }
  assert (Hprev : forall m, 0 <= m < n -> lo + st * m < hi).
  { intros m Hm. unfold n, trip_count in Hm.
    assert (m < (hi - lo + st - 1) / st) as Hlt by lia.
    pose proof (Z.mul_div_le (hi - lo + st - 1) st Hst). nia. }
  destruct (for_loop_rule_g
              (fun m k s g => k = lo + st * Z.of_nat m /\ I k s g)
              (Z.to_nat n) cond (fun k => add32 k st) body) with
    (fuel := fuel) (m := 0%nat) (k := lo) (s := s) (g := g)
    as (k' & s' & g' & Hrun & Hk' & HI').
  - intros m k s0 g0 Hm [-> HIk].
    assert (lo + st * Z.of_nat m < hi) as Hlt by (apply Hprev; lia).
    split; [by apply Hcond|].
    destruct (Hbody (lo + st * Z.of_nat m) s0 g0)
      as (s1 & g2 & Hb & HI1); [nia| |done|].
    { replace (lo + st * Z.of_nat m - lo) with (Z.of_nat m * st) by lia.
      apply Z.mod_mul; lia. }
    exists s1, g2. split; [done|].
    rewrite add32_small by (unfold is_int, INT32_MAX in *; nia).
    split; [lia|].
    replace (lo + st * Z.of_nat (Datatypes.S m))
      with (lo + st * Z.of_nat m + st) by lia. done.
  - intros k s0 g0 [-> _]. rewrite Z2Nat.id by lia.
    destruct (cond (lo + st * n)) eqn:E; [|done].
    apply Hcond in E. lia.
  - lia.
  - lia.
  - split; [lia|done].
  - rewrite Z2Nat.id in Hk' by lia. subst k'. eauto.
Qed.

(** ** Without an embedding vector *)

Lemma nld_reconstruct_empty (junk : Z) (signal : q15_vector_t.t)
    (embedding_dim time_delay size : Z) (g : globals) :
  size <= 0 ->
  nld_reconstruct junk signal embedding_dim time_delay size g
  = Returns (malloc junk
               (uint64_of (uint64_of (mul32 size embedding_dim) * 2)) 2, g).
Proof.
  intros Hsize. unfold nld_reconstruct.
  erewrite bind_returns by (apply for_loop_skip, Z.ltb_ge; lia).
  reflexivity.
Qed.

Lemma uint64_of_twice_negative (size : Z) :
  is_int size -> size < 0 -> 0 < uint64_of (uint64_of size * 2).
Proof.
  intros Hint Hneg. unfold is_int in Hint. unfold uint64_of.
  assert (size `mod` 2 ^ 64 = 2 ^ 64 + size) as ->.
  { rewrite <- (Z.mod_add size 1) by lia.
    rewrite Z.mod_small; change (2 ^ 64) with 18446744073709551616; lia. }
  replace ((2 ^ 64 + size) * 2) with (2 ^ 64 + 2 * size + 1 * 2 ^ 64) by lia.
  rewrite Z.mod_add by lia.
  rewrite Z.mod_small; change (2 ^ 64) with 18446744073709551616; lia.
Qed.

(** The specialised entry point without a vector: with size 0 the average
    divides by zero; with a negative size the byte count of the [memset]
    wraps to a huge value and runs past the block, which has no cell. *)
Lemma nld_faults_without_vectors (clock : nat -> Z) (junk : Z)
    (junk_double : float) (signal : q15_vector_t.t)
    (embedding_dim time_delay result : Z) (g : globals) :
  (phase_space_size signal embedding_dim time_delay = 0 ->
   nld_compute_lyapunov_q15 clock junk junk_double signal embedding_dim
     time_delay result g = Undefined DivisionByZero)
  /\ (phase_space_size signal embedding_dim time_delay < 0 ->
      nld_compute_lyapunov_q15 clock junk junk_double signal embedding_dim
        time_delay result g = Undefined OutOfBounds).
Proof.
  assert (Hint : is_int (phase_space_size signal embedding_dim time_delay))
    by apply int_of_range.
  unfold nld_compute_lyapunov_q15.
  generalize dependent (phase_space_size signal embedding_dim time_delay).
  intros size Hint.
  split; intros Hsize.
  - subst size. unfold bind at 1. simpl. unfold bind at 1. simpl.
    erewrite bind_returns by (apply nld_reconstruct_empty; lia).
    reflexivity.
  - unfold bind at 1. simpl. unfold bind at 1. simpl.
    erewrite bind_returns by (apply nld_reconstruct_empty; lia).
    apply bind_undefined. unfold nld_min_distances. apply bind_undefined.
    rewrite (malloc_cells junk size 2) by (done || lia).
    replace (Z.to_nat size) with 0%nat by lia.
    unfold memset_7F.
    change (2 * Z.of_nat (length (replicate 0 junk))) with 0.
    pose proof (uint64_of_twice_negative size Hint Hsize) as Hbytes.
    destruct (uint64_of (uint64_of size * 2) <=? 0) eqn:E; [|reflexivity].
    apply Z.leb_le in E. lia.
Qed.

(** ** The specialised search returns *)

Lemma memset_fresh (junk : Z) (size : Z) (g : globals) :
  is_int size -> 0 <= size ->
  memset_7F (malloc junk (uint64_of (uint64_of size * 2)) 2)
            (uint64_of (uint64_of size * 2)) g
  = Returns (replicate (Z.to_nat size) 32639, g).
Proof.
  intros Hint Hsize. rewrite malloc_cells by (done || lia).
  unfold is_int in Hint.
  rewrite (uint64_of_small size)
    by (change (2 ^ 64) with 18446744073709551616; lia).
  rewrite uint64_of_small
    by (change (2 ^ 64) with 18446744073709551616; lia).
  unfold memset_7F. rewrite length_replicate.
  destruct (size * 2 <=? 2 * Z.of_nat (Z.to_nat size)) eqn:E;
    [|apply Z.leb_gt in E; lia].
  rewrite Z.div_mul by lia.
  rewrite drop_ge by (rewrite length_replicate; lia).
  by rewrite app_nil_r.
Qed.

Lemma length_lanes_step (v a b : list Z) :
  length v = 4%nat -> length a = 8%nat -> length b = 8%nat ->
  let diff := vsubq_s16 a b in
  length (vaddq_s32 v
            (vaddq_s32 (vmull_s16 (vget_low_s16 diff) (vget_low_s16 diff))
                       (vmull_s16 (vget_high_s16 diff) (vget_high_s16 diff))))
  = 4%nat.
Proof.
  intros Hv Ha Hb.
  destruct v as [|v0 [|v1 [|v2 [|v3 [|]]]]]; try discriminate.
  destruct a as [|a0 [|a1 [|a2 [|a3 [|a4 [|a5 [|a6 [|a7 [|]]]]]]]]];
    try discriminate.
  destruct b as [|b0 [|b1 [|b2 [|b3 [|b4 [|b5 [|b6 [|b7 [|]]]]]]]]];
    try discriminate.
  reflexivity.
Qed.

(** With [embedding_dim] a multiple of the vector width every load of a
    pair stays inside the two rows. *)
Lemma nld_pair_sum_vec_returns (block : list Z)
    (embedding_dim row_i row_j : Z) (g : globals) :
  0 <= embedding_dim <= INT32_MAX - 7 -> embedding_dim mod 8 = 0 ->
  0 <= row_i -> 0 <= row_j ->
  row_i + embedding_dim <= Z.of_nat (length block) ->
  row_j + embedding_dim <= Z.of_nat (length block) ->
  exists sum_vec g',
    nld_pair_sum_vec block embedding_dim row_i row_j g
    = Returns (sum_vec, g')
    /\ length sum_vec = 4%nat.
Proof.
  intros Hdim Hmod Hi Hj Hlen_i Hlen_j. unfold INT32_MAX in Hdim.
  unfold nld_pair_sum_vec.
  match goal with
  | |- context [bind (for_loop ?f ?c ?n ?b ?k ?s)] =>
      destruct (counted_loop_rule (fun _ v => length v = 4%nat)
                  8 0 embedding_dim f c b s g) as (v & g' & Hrun & Hv)
  end.
  - lia.
  - intros k. apply Z.ltb_lt.
  - lia.
  - unfold INT32_MAX. lia.
  - unfold upto, trip_count.
    pose proof (Z.mul_div_le (embedding_dim - 0 + 8 - 1) 8). lia.
  - done.
  - intros k v Hk Hk8 Hv g1. rewrite Z.sub_0_r in Hk8.
    assert (k + 8 <= embedding_dim) as Hk_end.
    { pose proof (Z.div_mod embedding_dim 8 ltac:(lia)).
      pose proof (Z.div_mod k 8 ltac:(lia)). lia. }
    erewrite bind_returns by (apply vld1q_s16_ok; lia).
    erewrite bind_returns by (apply vld1q_s16_ok; lia).
    eexists _, _. split; [reflexivity|].
    apply length_lanes_step; [done|..];
      rewrite length_take, length_drop; lia.
  - run_with Hrun. simpl. eauto.
Qed.

(** Without a component no lane is loaded. *)
Lemma nld_pair_sum_vec_no_components (block : list Z)
    (embedding_dim row_i row_j : Z) (g : globals) :
  embedding_dim <= 0 ->
  nld_pair_sum_vec block embedding_dim row_i row_j g
  = Returns (vdupq_n_s32 0, g).
Proof.
  intros Hdim. unfold nld_pair_sum_vec.
  erewrite bind_returns by (apply for_loop_skip, Z.ltb_ge; lia).
  reflexivity.
Qed.

Section Search.

Variable junk : Z.
Variable block : list Z.
Variables embedding_dim time_delay size : Z.

Hypothesis size_int : is_int size.
Hypothesis pair_returns : forall i j g,
  0 <= i < size -> 0 <= j < size ->
  exists sum_vec g',
    nld_pair_sum_vec block embedding_dim
      (mul32 i embedding_dim) (mul32 j embedding_dim) g
    = Returns (sum_vec, g')
    /\ length sum_vec = 4%nat.

Lemma nld_query_returns (i : Z) (g : globals) :
  0 <= i < size ->
  exists min_dist_vec g',
    nld_query block embedding_dim time_delay size i g
    = Returns (min_dist_vec, g')
    /\ length min_dist_vec = 4%nat.
Proof.
  intros Hi. unfold is_int, INT32_MAX in *. unfold nld_query.
  match goal with
  | |- context [bind (for_loop ?f ?c ?n ?b ?k ?s)] =>
      destruct (counted_loop_rule (fun _ v => length v = 4%nat)
                  1 0 size f c b s g) as (v & g' & Hrun & Hv)
  end.
  - lia.
  - intros k. apply Z.ltb_lt.
  - lia.
  - unfold INT32_MAX. lia.
  - rewrite trip_count_unit. unfold upto. lia.
  - done.
  - intros j v Hj _ Hv g1. unfold nld_candidate.
    destruct (Z.abs (sub32 i j) <? time_delay).
    + eexists _, _. split; [reflexivity|done].
    + destruct (pair_returns i j g1) as (sum_vec & g2 & Hsum & Hlen);
        [lia..|].
      run_with Hsum. eexists _, _. split; [reflexivity|].
      unfold vminq_s32. rewrite length_zip_with. lia.
  - run_with Hrun. simpl. eauto.
Qed.

Lemma nld_min_distances_returns (g : globals) :
  0 <= size ->
  exists min_distances g',
    nld_min_distances junk block embedding_dim time_delay size g
    = Returns (min_distances, g')
    /\ Z.of_nat (length min_distances) = size
    /\ Forall is_int16 min_distances.
Proof.
  intros Hsize. unfold nld_min_distances.
  rewrite (bind_returns _ _ _ _ _ (memset_fresh junk size g size_int Hsize)).
  match goal with
  | |- context [bind (for_loop ?f ?c ?n ?b ?k ?s)] =>
      destruct (counted_loop_rule
                  (fun i d =>
                     Z.of_nat (length d) = size
                     /\ forall i' x, 0 <= i' < i ->
                          d !! Z.to_nat i' = Some x -> is_int16 x)
                  1 0 size f c b s g) as (d & g' & Hrun & Hlen & Hd)
  end.
  - lia.
  - intros k. apply Z.ltb_lt.
  - lia.
  - unfold is_int, INT32_MAX in *. lia.
  - rewrite trip_count_unit. unfold upto. lia.
  - split; [rewrite length_replicate; lia|]. intros; lia.
  - intros i d Hi _ [Hlen Hd] g1.
    destruct (nld_query_returns i g1 Hi) as (v & g2 & Hq & _).
    run_with Hq. run_store.
    eexists _, _. split; [reflexivity|].
    split; [by rewrite length_insert|].
    intros i' x Hi'. destruct (decide (i' = i)) as [->|Hne].
    + rewrite list_lookup_insert_eq by lia. intros [= <-].
      apply int16_of_range.
    + rewrite list_lookup_insert_ne by lia. apply Hd. lia.
  - run_with Hrun. simpl. exists d, g'. split; [done|]. split; [done|].
    apply Forall_lookup. intros n x Hx.
    apply (Hd (Z.of_nat n)); [|by rewrite Nat2Z.id].
    rewrite trip_count_unit. apply lookup_lt_Some in Hx. lia.
Qed.

End Search.

(** ** The placeholder average *)

Lemma sumZ_take_S (d : list Z) (i : nat) (x : Z) :
  d !! i = Some x -> sumZ (take (S i) d) = sumZ (take i d) + x.
Proof.
  intros Hx. rewrite (take_S_r _ _ _ Hx), sumZ_app. simpl. lia.
Qed.

Lemma nld_average_spec (d : list Z) (size bound : Z) (g : globals) :
  Forall (fun x => - bound <= x <= bound) d ->
  Z.of_nat (length d) = size -> 1 <= size <= INT32_MAX ->
  bound * size <= INT32_MAX ->
  nld_average d size g = Returns (int16_of (Z.quot (sumZ d) size), g)
  /\ - bound * size <= sumZ d <= bound * size.
Proof.
  intros Hd Hlen Hsize Hbound. unfold INT32_MAX in *.
  assert (Hb0 : 0 <= bound).
  { destruct d as [|x d]; [simpl in Hlen; lia|].
    apply Forall_cons_1 in Hd as [Hx _]. simpl in Hx. lia. }
  unfold nld_average.
  match goal with
  | |- context [bind (for_loop ?f ?c ?n ?b ?k ?s)] =>
      destruct (counted_loop_rule_g
                  (fun i sum g' =>
                     g' = g /\ sum = sumZ (take (Z.to_nat i) d)
                     /\ - bound * i <= sum <= bound * i)
                  1 0 size f c b s g) as (sum & g' & Hrun & -> & Hsum & Hrange)
  end.
  - lia.
  - intros k. apply Z.ltb_lt.
  - lia.
  - unfold INT32_MAX. lia.
  - rewrite trip_count_unit. unfold upto. lia.
  - split; [done|]. split; [done|]. lia.
  - intros i sum g1 Hi _ (-> & -> & Hrange).
    destruct (lookup_lt_is_Some_2 d (Z.to_nat i)) as [x Hx]; [lia|].
    run_load Hx.
    pose proof (proj1 (Forall_lookup _ d) Hd _ _ Hx) as Hxb. simpl in Hxb.
    eexists _, _. split; [reflexivity|]. split; [done|].
    replace (Z.to_nat (i + 1)) with (S (Z.to_nat i)) by lia.
    rewrite (sumZ_take_S _ _ _ Hx).
    rewrite add32_small by (unfold is_int; nia).
    split; [done|nia].
  - run_with Hrun. simpl. rewrite trip_count_unit in *.
    replace (0 + 1 * Z.max 0 (size - 0)) with size in * by lia.
    rewrite take_ge in Hsum by lia. subst sum.
    destruct (size =? 0) eqn:E; [apply Z.eqb_eq in E; lia|].
    split; [reflexivity|lia].
Qed.

Lemma sumZ_int16_range (d : list Z) :
  Forall is_int16 d ->
  -32768 * Z.of_nat (length d) <= sumZ d <= 32767 * Z.of_nat (length d).
Proof.
  induction 1 as [|x d Hx Hd IH]; [simpl; lia|].
  unfold is_int16 in Hx. simpl sumZ. rewrite length_cons. lia.
Qed.

Lemma nld_average_returns (d : list Z) (size : Z) (g : globals) :
  Z.of_nat (length d) = size -> 1 <= size <= INT32_MAX ->
  exists r, nld_average d size g = Returns (r, g) /\ is_int16 r.
Proof.
  intros Hlen Hsize. unfold INT32_MAX in Hsize. unfold nld_average.
  match goal with
  | |- context [bind (for_loop ?f ?c ?n ?b ?k ?s)] =>
      destruct (counted_loop_rule_g (fun _ _ g' => g' = g)
                  1 0 size f c b s g) as (sum & g' & Hrun & ->)
  end.
  - lia.
  - intros k. apply Z.ltb_lt.
  - lia.
  - unfold INT32_MAX. lia.
  - rewrite trip_count_unit. unfold upto. lia.
  - done.
  - intros i sum g1 Hi _ ->.
    destruct (lookup_lt_is_Some_2 d (Z.to_nat i)) as [x Hx]; [lia|].
    run_load Hx. eexists _, _. split; [reflexivity|done].
  - run_with Hrun. simpl.
    destruct (size =? 0) eqn:E; [apply Z.eqb_eq in E; lia|].
    eexists. split; [reflexivity|apply int16_of_range].
Qed.

(** ** The specialised routine as a whole *)

(** The search and the average, once the block is there. *)
Lemma nld_search_returns (clock : nat -> Z) (junk : Z) (junk_double : float)
    (block : list Z) (embedding_dim time_delay size start : Z)
    (g : globals) :
  1 <= size <= INT32_MAX ->
  (forall i j g, 0 <= i < size -> 0 <= j < size ->
     exists sum_vec g',
       nld_pair_sum_vec block embedding_dim
         (mul32 i embedding_dim) (mul32 j embedding_dim) g
       = Returns (sum_vec, g')
       /\ length sum_vec = 4%nat) ->
  exists metrics r g',
    (min_distances <- nld_min_distances junk block embedding_dim time_delay
                        size ;;
     result <- nld_average min_distances size ;;
     end_ <- mach_absolute_time clock ;;
     metrics <- get_performance_metrics clock junk_double ;;
     ret (set_processing_time_ms metrics
            (double_of_uint64 (uint64_of (end_ - start)) / 1000000)%float,
          result)) g
    = Returns ((metrics, r), g')
    /\ is_int16 r.
Proof.
  intros Hsize Hpairs.
  assert (Hsize_int : is_int size) by (unfold is_int, INT32_MAX in *; lia).
  destruct (nld_min_distances_returns junk block embedding_dim time_delay
              size Hsize_int Hpairs g ltac:(lia))
    as (d & g1 & Hmin & Hd_len & _).
  run_with Hmin.
  destruct (nld_average_returns d size g1 Hd_len Hsize) as (r & Havg & Hr).
  run_with Havg. eexists _, _, _. split; [reflexivity|done].
Qed.

(** For a well-formed signal, [embedding_dim] a positive multiple of 8
    and at least one embedding vector, with representable sizes, the
    specialised routine returns: every vector load and store is in
    range. *)
Lemma nld_returns (clock : nat -> Z) (junk : Z)
    (junk_double : float) (signal : q15_vector_t.t)
    (embedding_dim time_delay result : Z) (g : globals) :
  well_formed signal ->
  8 <= embedding_dim -> embedding_dim mod 8 = 0 ->
  0 <= time_delay ->
  q15_vector_t.length signal <= INT32_MAX ->
  let size := q15_vector_t.length signal - (embedding_dim - 1) * time_delay in
  1 <= size ->
  size * embedding_dim <= INT32_MAX ->
  exists metrics r g',
    nld_compute_lyapunov_q15 clock junk junk_double signal embedding_dim
      time_delay result g
    = Returns ((metrics, r), g')
    /\ is_int16 r.
Proof.
  intros [Hlen _] Hdim Hmod Hdelay Hsmall size Hsize Hblock.
  unfold INT32_MAX in *.
  assert (Hdim_max : embedding_dim <= 2147483640).
  { pose proof (Z.div_mod embedding_dim 8 ltac:(lia)). nia. }
  assert (Hsize_int : is_int size) by (unfold is_int; nia).
  assert (Hdim_int : is_int embedding_dim) by (unfold is_int; lia).
  assert (Hprod : is_int ((embedding_dim - 1) * time_delay)).
  { unfold is_int. unfold size in Hsize. nia. }
  assert (Hpss : phase_space_size signal embedding_dim time_delay = size).
  { apply phase_space_size_valid; [| done | | done];
      unfold is_int in *; change (2 ^ 64) with 18446744073709551616; lia. }
  unfold nld_compute_lyapunov_q15. rewrite Hpss.
  unfold bind at 1. simpl. unfold bind at 1. simpl.
  match goal with
  | |- context [bind (nld_reconstruct _ _ _ _ _) _ ?g1] =>
      destruct (nld_reconstruct_spec junk signal _ embedding_dim time_delay
                  size eq_refl Hdim_int Hsize_int)
        with (g := g1) as (block & g2 & Hrec & Hblock_len & _)
  end.
  - unfold INT32_MAX. lia.
  - intros i j Hi Hj. unfold size in Hi. nia.
  - lia.
  - unfold is_int. nia.
  - run_with Hrec. apply nld_search_returns; [unfold INT32_MAX; nia|].
    intros i j g1 Hi Hj.
    rewrite !mul32_small by (unfold is_int; nia).
    apply nld_pair_sum_vec_returns; [unfold INT32_MAX; lia|done|nia..].
Qed.

(** Without a component the reconstruction stores nothing. *)
Lemma nld_reconstruct_no_components (junk : Z) (signal : q15_vector_t.t)
    (embedding_dim time_delay size : Z) (g : globals) :
  embedding_dim <= 0 -> is_int (embedding_dim - 8) ->
  0 <= size <= INT32_MAX ->
  exists block g',
    nld_reconstruct junk signal embedding_dim time_delay size g
    = Returns (block, g').
Proof.
  intros Hdim Hdim8 Hsize. unfold INT32_MAX in Hsize.
  unfold nld_reconstruct.
  match goal with
  | |- context [bind (for_loop ?f ?c ?n ?b ?k ?s)] =>
      destruct (counted_loop_rule (fun _ (_ : list Z) => True)
                  1 0 size f c b s g) as (block & g' & Hrun & _)
  end.
  - lia.
  - intros k. apply Z.ltb_lt.
  - lia.
  - unfold INT32_MAX. lia.
  - rewrite trip_count_unit. unfold upto. lia.
  - done.
  - intros i block Hi _ _ g1.
    rewrite sub32_small by done.
    erewrite bind_returns by (apply for_loop_skip, Z.leb_gt; lia).
    cbn [fst snd].
    erewrite bind_returns by (apply for_loop_skip, Z.ltb_ge; lia).
    eexists _, _. split; [reflexivity|done].
  - run_with Hrun. eexists _, _. reflexivity.
Qed.

(** With [embedding_dim <= 0] the specialised routine returns as well:
    its loops over the components never run. *)
Lemma nld_returns_no_components (clock : nat -> Z) (junk : Z)
    (junk_double : float) (signal : q15_vector_t.t)
    (embedding_dim time_delay result : Z) (g : globals) :
  well_formed signal ->
  embedding_dim <= 0 -> is_int (embedding_dim - 8) ->
  q15_vector_t.length signal <= INT32_MAX ->
  is_int ((embedding_dim - 1) * time_delay) ->
  let size := q15_vector_t.length signal - (embedding_dim - 1) * time_delay in
  1 <= size <= INT32_MAX ->
  exists metrics r g',
    nld_compute_lyapunov_q15 clock junk junk_double signal embedding_dim
      time_delay result g
    = Returns ((metrics, r), g')
    /\ is_int16 r.
Proof.
  intros [Hlen _] Hdim Hdim8 Hsmall Hprod size Hsize.
  assert (Hpss : phase_space_size signal embedding_dim time_delay = size).
  { apply phase_space_size_valid; [| done | |];
      unfold is_int, INT32_MAX in *;
      change (2 ^ 64) with 18446744073709551616; fold size; lia. }
  unfold nld_compute_lyapunov_q15. rewrite Hpss.
  unfold bind at 1. simpl. unfold bind at 1. simpl.
  match goal with
  | |- context [bind (nld_reconstruct _ _ _ _ _) _ ?g1] =>
      destruct (nld_reconstruct_no_components junk signal embedding_dim
                  time_delay size g1) as (block & g2 & Hrec); [done|done|lia|]
  end.
  run_with Hrec. apply nld_search_returns; [done|].
  intros i j g1 _ _.
  rewrite nld_pair_sum_vec_no_components by done. eauto.
Qed.

(** ** Parameter checking *)

(** C4, counterexample.  One sample with [embedding_dim = 2] and
    [time_delay = 1]: the length does not exceed
    [(embedding_dim - 1) * time_delay] and the computed size is 0.  The
    generic entry point returns its metrics record, with 0 stored in
    [*result], as for any other input; the specialised one divides by
    zero.  The ramp with [embedding_dim = 0], and the ramp with
    [time_delay = 0], are accepted by the generic entry point in the same
    way; with [time_delay = -1] both entry points read the sample before
    the first. *)
Lemma lyapunov_accepts_short_signal :
  q15_vector_t.length one_sample <= (2 - 1) * 1
  /\ phase_space_size one_sample 2 1 = 0
  /\ cmsis_compute_lyapunov_q15 millisecond_clock 0 0 one_sample 2 1 7
       fresh_globals
     = Returns (mk_metrics 1 nan 0 0 0, 0, mk_globals 0 0 0 0 4)
  /\ nld_compute_lyapunov_q15 millisecond_clock 0 0 one_sample 2 1 7
       fresh_globals
     = Undefined DivisionByZero
  /\ (exists metrics g',
        cmsis_compute_lyapunov_q15 millisecond_clock 0 0 ramp 0 1 7
          fresh_globals
        = Returns (metrics, 0, g'))
  /\ (exists metrics g',
        cmsis_compute_lyapunov_q15 millisecond_clock 0 0 ramp 2 0 7
          fresh_globals
        = Returns (metrics, 0, g'))
  /\ cmsis_compute_lyapunov_q15 millisecond_clock 0 0 ramp 2 (-1) 7
       fresh_globals
     = Undefined OutOfBounds
  /\ nld_compute_lyapunov_q15 millisecond_clock 0 0 ramp 2 (-1) 7
       fresh_globals
     = Undefined OutOfBounds.
Proof.
  repeat split; try (vm_compute; solve [reflexivity | discriminate]);
    eexists _, _; vm_compute; reflexivity.
Qed.

(** C4 (as amended).  Neither entry point checks its parameters, and a
    call has no error result: it returns its metrics record or it runs
    into undefined behaviour.

    (a) When the size the code computes is not positive, both
    reconstructions run no iteration and return, the generic one with an
    empty table of rows and the specialised one with its block as
    allocated.  The generic entry point then visits no pair (the table
    of distances is returned as allocated and no counter moves), stores 0
    in [*result] and returns.  The specialised entry point does not
    return: with size 0 its average divides by zero, with a negative size
    its [memset] runs past the block.

    For a well-formed signal of at most [INT32_MAX] samples, with
    [embedding_dim - 8], [(embedding_dim - 1) * time_delay] and the number
    of vectors [length - (embedding_dim - 1) * time_delay] representable
    as [int]s, the size the code computes is that number of vectors, and:

    (b) with [embedding_dim <= 1] or [time_delay = 0], the generic entry
    point returns, with 0 in [*result], when the square of the number of
    vectors is at most [INT32_MAX]; the specialised entry point returns
    with [embedding_dim <= 0] and at least one vector, and with
    [time_delay = 0] when [embedding_dim] is a positive multiple of 8,
    there is at least one vector and the number of cells is at most
    [INT32_MAX];

    (c) with [time_delay < 0] and [embedding_dim >= 2], both entry points
    read the signal before its first sample. *)
Theorem lyapunov_never_rejects (clock : nat -> Z) (junk : Z)
    (junk_double : float) (signal : q15_vector_t.t)
    (embedding_dim time_delay result : Z) (g : globals) :
  let size := phase_space_size signal embedding_dim time_delay in
  let vectors :=
    q15_vector_t.length signal - (embedding_dim - 1) * time_delay in
  (size <= 0 ->
   (forall g1,
      cmsis_reconstruct junk signal embedding_dim time_delay size g1
      = Returns ([], g1))
   /\ (forall g1,
         nld_reconstruct junk signal embedding_dim time_delay size g1
         = Returns (malloc junk
                      (uint64_of
                         (uint64_of (mul32 size embedding_dim) * 2)) 2,
                    g1))
   /\ (forall rows g1,
         cmsis_distances junk rows embedding_dim size g1
         = Returns (malloc junk
                      (uint64_of (uint64_of (mul32 size size) * 2)) 2, g1))
   /\ (exists metrics g',
         cmsis_compute_lyapunov_q15 clock junk junk_double signal
           embedding_dim time_delay result g
         = Returns ((metrics, 0), g'))
   /\ (size = 0 ->
       nld_compute_lyapunov_q15 clock junk junk_double signal
         embedding_dim time_delay result g
       = Undefined DivisionByZero)
   /\ (size < 0 ->
       nld_compute_lyapunov_q15 clock junk junk_double signal
         embedding_dim time_delay result g
       = Undefined OutOfBounds))
  /\ (well_formed signal ->
      q15_vector_t.length signal <= INT32_MAX ->
      is_int (embedding_dim - 8) -> embedding_dim <= INT32_MAX ->
      is_int ((embedding_dim - 1) * time_delay) ->
      is_int vectors ->
      size = vectors
      /\ (embedding_dim <= 1 \/ time_delay = 0 ->
          vectors * vectors <= INT32_MAX ->
          exists metrics g',
            cmsis_compute_lyapunov_q15 clock junk junk_double signal
              embedding_dim time_delay result g
            = Returns ((metrics, 0), g'))
      /\ (embedding_dim <= 0 -> 1 <= vectors ->
          exists metrics r g',
            nld_compute_lyapunov_q15 clock junk junk_double signal
              embedding_dim time_delay result g
            = Returns ((metrics, r), g'))
      /\ (time_delay = 0 ->
          8 <= embedding_dim -> embedding_dim mod 8 = 0 ->
          1 <= vectors -> vectors * embedding_dim <= INT32_MAX ->
          exists metrics r g',
            nld_compute_lyapunov_q15 clock junk junk_double signal
              embedding_dim time_delay result g
            = Returns ((metrics, r), g'))
      /\ (time_delay < 0 -> 2 <= embedding_dim ->
          cmsis_compute_lyapunov_q15 clock junk junk_double signal
            embedding_dim time_delay result g
          = Undefined OutOfBounds
          /\ nld_compute_lyapunov_q15 clock junk junk_double signal
               embedding_dim time_delay result g
             = Undefined OutOfBounds)).
Proof.
  intros size vectors. split.
  - intros Hsize.
    assert (Hint : is_int size) by apply int_of_range.
    split; [intros g1; by apply cmsis_reconstruct_empty|].
    split; [intros g1; by apply nld_reconstruct_empty|].
    split; [intros rows g1; by apply cmsis_distances_empty|].
    split; [|apply nld_faults_without_vectors].
    unfold cmsis_compute_lyapunov_q15. fold size.
    unfold bind at 1. simpl. unfold bind at 1. simpl.
    erewrite bind_returns by (by apply cmsis_reconstruct_empty).
    erewrite bind_returns by (by apply cmsis_distances_empty).
    erewrite bind_returns by (by apply cmsis_cleanup_empty).
    eexists _, _. reflexivity.
  - intros Hwf Hsmall Hdim8 Hdim Hprod Hvectors.
    split; [|split; [|split; [|split]]].
    + destruct Hwf as [Hlen _].
      apply phase_space_size_valid; [|done| |done];
        unfold is_int, INT32_MAX in *;
        change (2 ^ 64) with 18446744073709551616; lia.
    + intros Hcase Hsq. apply cmsis_returns; try done.
      destruct Hcase as [Hone| ->]; [by right|left; lia].
    + intros Hnone Hpos.
      destruct (nld_returns_no_components clock junk junk_double signal
                  embedding_dim time_delay result g)
        as (metrics & r & g' & Hrun & _); try done.
      { fold vectors. unfold is_int, INT32_MAX in *. lia. }
      eauto.
    + intros -> Hwide Hmod Hpos Hcells.
      destruct (nld_returns clock junk junk_double signal
                  embedding_dim 0 result g)
        as (metrics & r & g' & Hrun & _); [done|done|done|lia|done..|].
      eauto.
    + intros Hneg Hwide.
      by apply negative_delay_undefined.
Qed.

(** C4 at one sample with [embedding_dim = 2], [time_delay = 1] (size 0),
    at one sample with [embedding_dim = 3], [time_delay = 1] (size -1),
    at the ramp with [embedding_dim = 0], at [step_signal] with
    [embedding_dim = 8] and [time_delay = 0], and at the ramp with
    [embedding_dim = 2] and [time_delay = -1]. *)
Lemma lyapunov_never_rejects_witness :
  ((forall g1,
      cmsis_reconstruct 0 one_sample 2 1 (phase_space_size one_sample 2 1) g1
      = Returns ([], g1))
   /\ (exists metrics g',
         cmsis_compute_lyapunov_q15 millisecond_clock 0 0 one_sample 2 1 7
           fresh_globals
         = Returns ((metrics, 0), g'))
   /\ nld_compute_lyapunov_q15 millisecond_clock 0 0 one_sample 2 1 7
        fresh_globals
      = Undefined DivisionByZero)
  /\ nld_compute_lyapunov_q15 millisecond_clock 0 0 one_sample 3 1 7
       fresh_globals
     = Undefined OutOfBounds
  /\ (exists metrics g',
        cmsis_compute_lyapunov_q15 millisecond_clock 0 0 ramp 0 1 7
          fresh_globals
        = Returns ((metrics, 0), g'))
  /\ (exists metrics r g',
        nld_compute_lyapunov_q15 millisecond_clock 0 0 ramp 0 1 7
          fresh_globals
        = Returns ((metrics, r), g'))
  /\ (exists metrics r g',
        nld_compute_lyapunov_q15 millisecond_clock 0 0 step_signal 8 0 7
          fresh_globals
        = Returns ((metrics, r), g'))
  /\ cmsis_compute_lyapunov_q15 millisecond_clock 0 0 ramp 2 (-1) 7
       fresh_globals
     = Undefined OutOfBounds.
Proof.
  split; [|split; [|split; [|split; [|split]]]].
  - destruct (lyapunov_never_rejects millisecond_clock 0 0%float one_sample
                2 1 7 fresh_globals) as [Hempty _].
    destruct Hempty as (Hrec & _ & _ & Hrun & Hzero & _);
      [vm_compute; discriminate|].
    split; [exact Hrec|]. split; [exact Hrun|].
    apply Hzero. reflexivity.
  - destruct (lyapunov_never_rejects millisecond_clock 0 0%float one_sample
                3 1 7 fresh_globals) as [Hempty _].
    destruct Hempty as (_ & _ & _ & _ & _ & Hneg);
      [vm_compute; discriminate|].
    apply Hneg. reflexivity.
  - destruct (lyapunov_never_rejects millisecond_clock 0 0%float ramp
                0 1 7 fresh_globals) as [_ Hvalid].
    destruct Hvalid as (_ & Hgeneric & _);
      [exact ramp_well_formed|vm_compute; discriminate|unfold is_int; lia
      |unfold INT32_MAX; lia|unfold is_int; lia
      |unfold is_int; simpl; lia|].
    apply Hgeneric; [left; lia|vm_compute; discriminate].
  - destruct (lyapunov_never_rejects millisecond_clock 0 0%float ramp
                0 1 7 fresh_globals) as [_ Hvalid].
    destruct Hvalid as (_ & _ & Hnone & _);
      [exact ramp_well_formed|vm_compute; discriminate|unfold is_int; lia
      |unfold INT32_MAX; lia|unfold is_int; lia
      |unfold is_int; simpl; lia|].
    apply Hnone; [lia|simpl; lia].
  - destruct (lyapunov_never_rejects millisecond_clock 0 0%float step_signal
                8 0 7 fresh_globals) as [_ Hvalid].
    destruct Hvalid as (_ & _ & _ & Hwide & _);
      [exact step_signal_well_formed|vm_compute; discriminate
      |unfold is_int; lia|unfold INT32_MAX; lia|unfold is_int; lia
      |unfold is_int; simpl; lia|].
    apply Hwide; [reflexivity|lia|reflexivity|simpl; lia
                 |vm_compute; discriminate].
  - destruct (lyapunov_never_rejects millisecond_clock 0 0%float ramp
                2 (-1) 7 fresh_globals) as [_ Hvalid].
    destruct Hvalid as (_ & _ & _ & _ & Hneg);
      [exact ramp_well_formed|vm_compute; discriminate|unfold is_int; lia
      |unfold INT32_MAX; lia|unfold is_int; lia
      |unfold is_int; simpl; lia|].
    apply Hneg; lia.
Defined.

(** ** Where the generic routine stops short of the result *)

(** When the byte count of the table of distances is not allocatable (the
    product [size * size] has wrapped), the table has no cell and the
    store of the first pair is out of bounds. *)
Lemma cmsis_distances_without_table (junk : Z) (rows : list (list Z))
    (embedding_dim size : Z) (row0 row1 : list Z) (g : globals) :
  is_int (embedding_dim - 8) -> embedding_dim <= INT32_MAX ->
  2 <= size ->
  rows !! 0%nat = Some row0 -> rows !! 1%nat = Some row1 ->
  length row0 = Z.to_nat embedding_dim ->
  length row1 = Z.to_nat embedding_dim ->
  malloc junk (uint64_of (uint64_of (mul32 size size) * 2)) 2 = [] ->
  cmsis_distances junk rows embedding_dim size g = Undefined OutOfBounds.
Proof.
  intros Hdim8 Hdim Hsize Hrow0 Hrow1 Hlen0 Hlen1 Hnull.
  unfold cmsis_distances. rewrite Hnull. apply bind_undefined.
  destruct (upto size) as [|fuel] eqn:Hfuel; [unfold upto in Hfuel; lia|].
  rewrite for_loop_S.
  replace (0 <? size) with true by (symmetry; apply Z.ltb_lt; lia).
  apply bind_undefined, bind_undefined.
  change (add32 0 1) with 1. rewrite for_loop_S.
  replace (1 <? size) with true by (symmetry; apply Z.ltb_lt; lia).
  apply bind_undefined.
  destruct (cmsis_pair_sum_spec rows embedding_dim 0 1 row0 row1 g)
    as (sum & g' & Hsum & _); [done|done|lia|lia|done..|].
  run_with Hsum. apply bind_undefined.
  unfold store. cbn [length].
  destruct (0 <=? add32 (mul32 0 size) 1) eqn:E1;
    destruct (add32 (mul32 0 size) 1 <? Z.of_nat 0) eqn:E2;
    try reflexivity.
  apply Z.leb_le in E1. apply Z.ltb_lt in E2. lia.
Qed.

Lemma long_signal_well_formed : well_formed long_signal.
Proof.
  split.
  - unfold long_signal. cbn [q15_vector_t.data q15_vector_t.length].
    rewrite length_replicate. lia.
  - unfold long_signal. cbn [q15_vector_t.data].
    apply Forall_replicate. unfold is_int16. lia.
Qed.

(** C9, counterexample.  46342 samples with [embedding_dim = 2] and
    [time_delay = 1] are a valid input with 46341 vectors.  The square of
    46341 is not an [int]: the allocation of the table of distances
    fails, the store of the first distance is out of bounds, and the
    routine does not reach the store to [*result].  On the ramp with
    [time_delay = -1] the reconstruction reads the sample before the
    first, and [*result] is not written either. *)
Lemma result_not_always_written :
  well_formed long_signal
  /\ phase_space_size long_signal 2 1 = 46341
  /\ INT32_MAX < 46341 * 46341
  /\ cmsis_compute_lyapunov_q15 millisecond_clock 0 0 long_signal 2 1 7
       fresh_globals
     = Undefined OutOfBounds
  /\ cmsis_compute_lyapunov_q15 millisecond_clock 0 0 ramp 2 (-1) 7
       fresh_globals
     = Undefined OutOfBounds.
Proof.
  assert (Hpss : phase_space_size long_signal 2 1 = 46341) by reflexivity.
  split; [exact long_signal_well_formed|]. split; [exact Hpss|].
  split; [reflexivity|]. split; [|vm_compute; reflexivity].
  unfold cmsis_compute_lyapunov_q15. rewrite Hpss.
  match goal with
  | |- bind _ (fun _ => bind _ ?k) _ = _ =>
      destruct (prologue_returns millisecond_clock k fresh_globals)
        as (start & g0 & ->)
  end.
  destruct long_signal_well_formed as [Hlen _].
  change (q15_vector_t.length long_signal) with 46342 in Hlen.
  destruct (cmsis_reconstruct_spec 0 long_signal _ 2 1 46341 eq_refl)
    with (g := g0) as (rows & g1 & Hrec & _ & Hrows).
  - unfold is_int. lia.
  - unfold is_int. lia.
  - unfold INT32_MAX. lia.
  - intros i j Hi Hj. lia.
  - run_with Hrec. apply bind_undefined.
    destruct (Hrows 0 ltac:(lia)) as (row0 & Hrow0 & Hlen0 & _).
    destruct (Hrows 1 ltac:(lia)) as (row1 & Hrow1 & Hlen1 & _).
    apply (cmsis_distances_without_table 0 rows 2 46341 row0 row1);
      [unfold is_int; lia|unfold INT32_MAX; lia|lia|exact Hrow0|exact Hrow1
      |exact Hlen0|exact Hlen1|vm_compute; reflexivity].
Qed.

(** ** The width of the differences *)

(** C7, at the failing inputs.  The signals [swing] (with
    [embedding_dim = 8]) and [swing_short] (with [embedding_dim = 2]),
    both with [time_delay = 1], give two vectors whose components differ
    by 40000 and -20000, then by 0: the exact squared distance is
    2000000000, which a 32-bit accumulator holds.  On the vector path
    [vsubq_s16] subtracts in 16 bits: 40000 wraps to -25536, and the
    generic accumulator ends at 1052087296; the lanes of the specialised
    accumulator add up to the same value.  The scalar tail of the generic
    routine subtracts in 32 bits and returns the exact 2000000000 for the
    same differences.  The specialised routine has no scalar tail: with
    [embedding_dim = 2] its vector loads run past the block. *)
Theorem difference_wraps_in_16_bits :
  cmsis_reconstruct 0 swing 8 1 2 fresh_globals
  = Returns ([[20000; -20000; 0; 0; 0; 0; 0; 0];
              [-20000; 0; 0; 0; 0; 0; 0; 0]], mk_globals 32 0 0 16 0)
  /\ exact_sqdist [20000; -20000; 0; 0; 0; 0; 0; 0]
                  [-20000; 0; 0; 0; 0; 0; 0; 0] = 2000000000
  /\ 2000000000 <= INT32_MAX
  /\ int16_of (20000 - -20000) = -25536
  /\ (rows <- cmsis_reconstruct 0 swing 8 1 2 ;;
      cmsis_pair_sum rows 8 0 1) fresh_globals
     = Returns (1052087296, mk_globals 40 5 0 16 0)
  /\ (block <- nld_reconstruct 0 swing 8 1 2 ;;
      nld_pair_sum_vec block 8 (0 * 8) (1 * 8)) fresh_globals
     = Returns ([652087296; 400000000; 0; 0], mk_globals 24 10 0 16 0)
  /\ cmsis_reconstruct 0 swing_short 2 1 2 fresh_globals
     = Returns ([[20000; -20000]; [-20000; 0]], mk_globals 8 0 0 4 0)
  /\ exact_sqdist [20000; -20000] [-20000; 0] = 2000000000
  /\ (rows <- cmsis_reconstruct 0 swing_short 2 1 2 ;;
      cmsis_pair_sum rows 2 0 1) fresh_globals
     = Returns (2000000000, mk_globals 14 0 0 4 0)
  /\ nld_reconstruct 0 swing_short 2 1 2 fresh_globals
     = Returns ([20000; -20000; -20000; 0], mk_globals 4 0 0 4 0)
  /\ (block <- nld_reconstruct 0 swing_short 2 1 2 ;;
      nld_pair_sum_vec block 2 (0 * 2) (1 * 2)) fresh_globals
     = Undefined OutOfBounds
  /\ nld_compute_lyapunov_q15 millisecond_clock 0 0 swing_short 2 1 7
       fresh_globals
     = Undefined OutOfBounds.
Proof. repeat split; vm_compute; solve [reflexivity | discriminate]. Qed.

(** ** The counters *)

Lemma uint64_of_add_l (a b : Z) : uint64_of (uint64_of a + b) = uint64_of (a + b).
Proof. unfold uint64_of. apply Zplus_mod_idemp_l. Qed.

Lemma uint64_of_add_r (a b : Z) : uint64_of (a + uint64_of b) = uint64_of (a + b).
Proof. unfold uint64_of. apply Zplus_mod_idemp_r. Qed.

Lemma bump_zero (g : globals) : counters_in_range g -> bump g 0 0 0 = g.
Proof.
  intros (Ht & Hs & Hm). destruct g as [t s st m n]. unfold bump. simpl in *.
  rewrite !Z.add_0_r, !uint64_of_small by done. reflexivity.
Qed.

Lemma bump_bump (g : globals) (t s m t' s' m' : Z) :
  bump (bump g t s m) t' s' m' = bump g (t + t') (s + s') (m + m').
Proof.
  unfold bump. simpl. rewrite !uint64_of_add_l, !Z.add_assoc. reflexivity.
Qed.

Lemma bump_in_range (g : globals) (t s m : Z) : counters_in_range (bump g t s m).
Proof.
  unfold counters_in_range, bump, uint64_of. simpl.
  repeat split; apply Z.mod_pos_bound; lia.
Qed.

Lemma add_total_bump (n : Z) (g : globals) (t s m : Z) :
  add_total_instructions n (bump g t s m) = Returns (tt, bump g (t + n) s m).
Proof.
  unfold add_total_instructions, bump. simpl.
  rewrite uint64_of_add_r, uint64_of_add_l, Z.add_assoc. reflexivity.
Qed.

Lemma add_simd_bump (n : Z) (g : globals) (t s m : Z) :
  add_simd_instructions n (bump g t s m) = Returns (tt, bump g t (s + n) m).
Proof.
  unfold add_simd_instructions, bump. simpl.
  rewrite uint64_of_add_r, uint64_of_add_l, Z.add_assoc. reflexivity.
Qed.

Lemma add_memory_bump (n : Z) (g : globals) (t s m : Z) :
  add_memory_accesses n (bump g t s m) = Returns (tt, bump g t s (m + n)).
Proof.
  unfold add_memory_accesses, bump. simpl.
  rewrite uint64_of_add_r, uint64_of_add_l, Z.add_assoc. reflexivity.
Qed.

(** What a returning access tells. *)
Lemma load_returns {A} (block : list A) (idx : Z) (v : A) (g g' : globals) :
  load block idx g = Returns (v, g') ->
  g' = g /\ 0 <= idx /\ block !! Z.to_nat idx = Some v.
Proof.
  unfold load. destruct (idx <? 0) eqn:E; [discriminate|].
  apply Z.ltb_ge in E.
  destruct (block !! Z.to_nat idx) as [w|]; [|discriminate].
  unfold ret. intros [= -> ->]. auto.
Qed.

Lemma store_returns {A} (block block' : list A) (idx : Z) (v : A)
    (g g' : globals) :
  store block idx v g = Returns (block', g') ->
  g' = g /\ 0 <= idx < Z.of_nat (length block)
  /\ block' = <[Z.to_nat idx := v]> block.
Proof.
  unfold store. destruct (0 <=? idx) eqn:E1; [|discriminate].
  destruct (idx <? Z.of_nat (length block)) eqn:E2; [|discriminate].
  apply Z.leb_le in E1. apply Z.ltb_lt in E2.
  unfold ret. intros [= <- <-]. auto.
Qed.

Lemma vld1q_s16_returns (block v : list Z) (off : Z) (g g' : globals) :
  vld1q_s16 block off g = Returns (v, g') ->
  g' = g /\ 0 <= off /\ off + 8 <= Z.of_nat (length block)
  /\ v = take 8 (drop (Z.to_nat off) block).
Proof.
  unfold vld1q_s16. destruct (0 <=? off) eqn:E1; [|discriminate].
  destruct (off + 8 <=? Z.of_nat (length block)) eqn:E2; [|discriminate].
  apply Z.leb_le in E1. apply Z.leb_le in E2.
  unfold ret. intros [= <- <-]. auto.
Qed.

Lemma vst1q_s16_returns (block block' v : list Z) (off : Z) (g g' : globals) :
  vst1q_s16 block off v g = Returns (block', g') ->
  g' = g /\ 0 <= off /\ off + 8 <= Z.of_nat (length block).
Proof.
  unfold vst1q_s16. destruct (0 <=? off) eqn:E1; [|discriminate].
  destruct (off + 8 <=? Z.of_nat (length block)) eqn:E2; [|discriminate].
  apply Z.leb_le in E1. apply Z.leb_le in E2.
  unfold ret. intros [= <- <-]. auto.
Qed.

(** Partial correctness of a loop: an invariant kept by every returning
    iteration holds when the loop returns, and the test then fails. *)
Lemma for_loop_partial {S} (I : Z -> S -> globals -> Prop)
    (cond : Z -> bool) (next : Z -> Z) (body : Z -> S -> M S) :
  (forall k s g s' g',
     cond k = true -> I k s g -> body k s g = Returns (s', g') ->
     I (next k) s' g') ->
  forall fuel k s g k' s' g',
    for_loop fuel cond next body k s g = Returns ((k', s'), g') ->
    I k s g -> I k' s' g' /\ cond k' = false.
Proof.
  intros Hstep. induction fuel as [|fuel IH]; intros k s g k' s' g' Hrun HI.
  - simpl in Hrun. destruct (cond k) eqn:E; [discriminate|].
    unfold ret in Hrun. injection Hrun as <- <- <-. done.
  - simpl in Hrun. destruct (cond k) eqn:E.
    + apply bind_inv in Hrun as (s1 & g1 & Hbody & Hrun).
      apply (IH _ _ _ _ _ _ Hrun). by apply (Hstep k s g).
    + unfold ret in Hrun. injection Hrun as <- <- <-. done.
Qed.

(** A counted loop that returns has run its body, to the end, at every
    index of its range. *)
Lemma counted_loop_visits {S} (st lo hi : Z) (fuel : nat)
    (cond : Z -> bool) (body : Z -> S -> M S) (s : S) (g : globals)
    (r : Z * S * globals) (k : Z) :
  0 < st ->
  (forall k, cond k = true <-> k < hi) ->
  hi + st - 1 <= INT32_MAX -> -2147483648 <= lo ->
  for_loop fuel cond (fun k => add32 k st) body lo s g = Returns r ->
  lo <= k < hi -> (k - lo) mod st = 0 ->
  exists s1 g1 s2 g2, body k s1 g1 = Returns (s2, g2).
Proof.
  intros Hst Hcond Hhi Hlo Hrun Hk Hmod. destruct r as [[k' s'] g'].
  set (visited := exists s1 g1 s2 g2, body k s1 g1 = Returns (s2, g2)).
  destruct (for_loop_partial
              (fun k0 (_ : S) (_ : globals) =>
                 (lo <= k0 <= k /\ (k - k0) mod st = 0) \/ visited)
              cond (fun k => add32 k st) body) with
    (fuel := fuel) (k := lo) (s := s) (g := g) (k' := k') (s' := s') (g' := g')
    as [Hend Hcond'].
  - intros k0 s0 g0 s1 g1 Hc [[Hk0 Hmod0]|Hv] Hbody; [|by right].
    apply Hcond in Hc.
    destruct (decide (k0 = k)) as [->|Hne]; [right; by eexists _, _, _, _|].
    left. rewrite add32_small by (unfold is_int, INT32_MAX in *; lia).
    assert (st <= k - k0).
    { destruct (Z.lt_ge_cases (k - k0) st) as [Hlt|]; [|done].
      rewrite Z.mod_small in Hmod0 by lia. lia. }
    split; [lia|].
    replace (k - (k0 + st)) with (k - k0 + (-1) * st) by lia.
    by rewrite Z.mod_add by lia.
  - done.
  - left. split; [lia|done].
  - destruct Hend as [[Hk0 _]|Hv]; [|done].
    destruct (cond k') eqn:E; [done|].
    assert (~ k' < hi) by (intros Hlt; apply Hcond in Hlt; congruence). lia.
Qed.

(** Faults of a counted loop come from its body. *)
Lemma counted_loop_oob {S} (st lo hi : Z) (fuel : nat)
    (cond : Z -> bool) (body : Z -> S -> M S) (s : S) :
  0 < st ->
  (forall k, cond k = true <-> k < hi) ->
  -2147483648 <= lo -> hi + st - 1 <= INT32_MAX ->
  (Z.to_nat (trip_count st lo hi) <= fuel)%nat ->
  (forall k s, oob_only (body k s)) ->
  oob_only (for_loop fuel cond (fun k => add32 k st) body lo s).
Proof.
  intros Hst Hcond Hlo Hhi Hfuel Hbody. revert lo s Hlo Hfuel.
  induction fuel as [|fuel IH]; intros lo s Hlo Hfuel g f Hrun.
  - simpl in Hrun. destruct (cond lo) eqn:E; [|discriminate].
    apply Hcond in E. exfalso.
    assert (0 < trip_count st lo hi); [|lia].
    unfold trip_count. apply Z.max_lt_iff. right.
    apply Z.div_str_pos. lia.
  - simpl in Hrun. destruct (cond lo) eqn:E; [|discriminate].
    apply Hcond in E. unfold bind in Hrun.
    destruct (body lo s g) as [[s1 g1]|f1] eqn:Hb.
    + rewrite add32_small in Hrun by (unfold is_int, INT32_MAX in *; lia).
      apply (IH (lo + st) s1) in Hrun; [done|lia|].
      assert (trip_count st lo hi = trip_count st (lo + st) hi + 1); [|lia].
      unfold trip_count.
      replace (hi - lo + st - 1) with (hi - (lo + st) + st - 1 + 1 * st) by lia.
      rewrite Z.div_add by lia.
      assert (0 <= (hi - (lo + st) + st - 1) / st)
        by (apply Z.div_pos; lia). lia.
    + injection Hrun as <-. by apply (Hbody lo s g).
Qed.

Lemma oob_only_vld1q_s16 (block : list Z) (off : Z) :
  oob_only (vld1q_s16 block off).
Proof.
  intros g f. unfold vld1q_s16.
  destruct (_ && _); [discriminate|by intros [= <-]].
Qed.

(** * Further properties of the code *)

(** ** A call starts a fresh session *)

(** X1.  Both Lyapunov entry points start by resetting the counters: what
    a call does and returns depends on the globals only through the
    clock, not on the counters or the start time an earlier call left
    behind, nor on the content of [*result] on entry. *)
Theorem lyapunov_starts_fresh_session (clock : nat -> Z) (junk : Z)
    (junk_double : float) (signal : q15_vector_t.t)
    (embedding_dim time_delay result1 result2 : Z) (g1 g2 : globals) :
  ticks g1 = ticks g2 ->
  cmsis_compute_lyapunov_q15 clock junk junk_double signal embedding_dim
    time_delay result1 g1
  = cmsis_compute_lyapunov_q15 clock junk junk_double signal embedding_dim
      time_delay result2 g2
  /\ nld_compute_lyapunov_q15 clock junk junk_double signal embedding_dim
       time_delay result1 g1
     = nld_compute_lyapunov_q15 clock junk junk_double signal embedding_dim
         time_delay result2 g2.
Proof.
  intros Hticks. split.
  - unfold cmsis_compute_lyapunov_q15. unfold bind at 1 3.
    unfold reset_performance_counters. cbv beta.
    rewrite Hticks. reflexivity.
  - unfold nld_compute_lyapunov_q15. unfold bind at 1 3.
    unfold reset_performance_counters. cbv beta.
    rewrite Hticks. reflexivity.
Qed.

(** X1 at the ramp, after a session that left counters behind and on
    fresh globals. *)
Lemma lyapunov_starts_fresh_session_witness :
  cmsis_compute_lyapunov_q15 millisecond_clock 0 0 ramp 2 1 7
    (mk_globals 40 5 3 17 0)
  = cmsis_compute_lyapunov_q15 millisecond_clock 0 0 ramp 2 1 (-7)
      fresh_globals
  /\ nld_compute_lyapunov_q15 millisecond_clock 0 0 ramp 2 1 7
       (mk_globals 40 5 3 17 0)
     = nld_compute_lyapunov_q15 millisecond_clock 0 0 ramp 2 1 (-7)
         fresh_globals.
Proof.
  apply (lyapunov_starts_fresh_session millisecond_clock 0 0%float ramp 2 1
           7 (-7) (mk_globals 40 5 3 17 0) fresh_globals).
  reflexivity.
Defined.

(** ** The placeholder average *)

(** X2.  For a table of at most 65535 16-bit entries, the 32-bit sum of
    lines 177-181 does not wrap, and the value stored in [*result] is the
    sum of the entries divided by their number, truncated toward zero; it
    fits the 16-bit result without narrowing, and the counters are left
    alone. *)
Theorem nld_average_is_truncated_mean (min_distances : list Z) (size : Z)
    (g : globals) :
  Forall is_int16 min_distances ->
  Z.of_nat (length min_distances) = size -> 1 <= size <= 65535 ->
  nld_average min_distances size g
  = Returns (Z.quot (sumZ min_distances) size, g)
  /\ is_int16 (Z.quot (sumZ min_distances) size).
Proof.
  intros Hd Hlen Hsize.
  destruct (nld_average_spec min_distances size 32768 g) as [Hrun Hsum].
  - eapply Forall_impl; [exact Hd|]. unfold is_int16. intros x Hx. lia.
  - done.
  - unfold INT32_MAX. lia.
  - unfold INT32_MAX. lia.
  - assert (Hq : is_int16 (Z.quot (sumZ min_distances) size)).
    { pose proof (sumZ_int16_range _ Hd) as Hs. rewrite Hlen in Hs.
      unfold is_int16. generalize dependent (sumZ min_distances).
      intros total _ _ Htotal. Z.to_euclidean_division_equations. nia. }
    rewrite int16_of_small in Hrun by done. done.
Qed.

(** X2 at a table of three entries: the sum 4089 gives 1363. *)
Lemma nld_average_is_truncated_mean_witness :
  nld_average [4096; -3; -4] 3 fresh_globals
  = Returns (Z.quot (sumZ [4096; -3; -4]) 3, fresh_globals)
  /\ is_int16 (Z.quot (sumZ [4096; -3; -4]) 3).
Proof.
  apply (nld_average_is_truncated_mean [4096; -3; -4] 3 fresh_globals).
  - repeat constructor; unfold is_int16; lia.
  - reflexivity.
  - lia.
Defined.

(** ** A search without candidates *)

(** With no candidate outside the exclusion window the running minimum
    keeps its initial value. *)
Lemma nld_query_no_candidate (block : list Z)
    (embedding_dim time_delay size i : Z) (g : globals) :
  is_int size -> 0 <= i < size -> size <= time_delay ->
  nld_query block embedding_dim time_delay size i g
  = Returns (vdupq_n_s32 INT32_MAX, g).
Proof.
  intros Hint Hi Hdelay. unfold is_int in Hint. unfold nld_query.
  match goal with
  | |- context [bind (for_loop ?f ?c ?n ?b ?k ?s)] =>
      destruct (counted_loop_rule_g
                  (fun _ acc g' => acc = vdupq_n_s32 INT32_MAX /\ g' = g)
                  1 0 size f c b s g) as (acc & g' & Hrun & -> & ->)
  end.
  - lia.
  - intros k. apply Z.ltb_lt.
  - lia.
  - unfold INT32_MAX. lia.
  - rewrite trip_count_unit. unfold upto. lia.
  - done.
  - intros j acc g1 Hj _ [-> ->]. unfold nld_candidate.
    rewrite sub32_small by (unfold is_int; lia).
    destruct (Z.abs (i - j) <? time_delay) eqn:E;
      [|apply Z.ltb_ge in E; lia].
    eexists _, _. split; [reflexivity|done].
  - run_with Hrun. reflexivity.
Qed.

Lemma replicate_snoc {A} (n : nat) (x : A) :
  replicate n x ++ [x] = replicate (S n) x.
Proof. induction n as [|n IH]; [done|]. simpl. by rewrite IH. Qed.

Lemma nld_min_distances_no_candidate (junk : Z) (block : list Z)
    (embedding_dim time_delay size : Z) (g : globals) :
  is_int size -> 0 <= size <= time_delay ->
  exists g',
    nld_min_distances junk block embedding_dim time_delay size g
    = Returns (replicate (Z.to_nat size) (-1), g').
Proof.
  intros Hint Hsize. unfold nld_min_distances.
  rewrite (bind_returns _ _ _ _ _ (memset_fresh junk size g Hint (proj1 Hsize))).
  match goal with
  | |- context [bind (for_loop ?f ?c ?n ?b ?k ?s)] =>
      destruct (counted_loop_rule
                  (fun i d =>
                     d = replicate (Z.to_nat i) (-1)
                           ++ replicate (Z.to_nat (size - i)) 32639)
                  1 0 size f c b s g) as (d & g' & Hrun & Hd)
  end.
  - lia.
  - intros k. apply Z.ltb_lt.
  - lia.
  - unfold is_int, INT32_MAX in *. lia.
  - rewrite trip_count_unit. unfold upto. lia.
  - rewrite Z.sub_0_r. done.
  - intros i d Hi _ -> g1.
    rewrite (bind_returns _ _ _ _ _
               (nld_query_no_candidate block embedding_dim time_delay size i g1
                  Hint Hi (proj2 Hsize))).
    erewrite bind_returns
      by (apply store_ok; rewrite length_app, !length_replicate; lia).
    eexists _, _. split; [reflexivity|].
    change (int16_of (Z.shiftr (vminvq_s32 (vdupq_n_s32 INT32_MAX)) 15))
      with (-1).
    replace (Z.to_nat (size - i)) with (S (Z.to_nat (size - (i + 1)))) by lia.
    rewrite insert_app_r_alt by (rewrite length_replicate; lia).
    rewrite length_replicate, Nat.sub_diag. simpl.
    replace (Z.to_nat (i + 1)) with (S (Z.to_nat i)) by lia.
    rewrite <- replicate_snoc, <- app_assoc. reflexivity.
  - run_with Hrun. simpl. rewrite trip_count_unit in Hd.
    replace (0 + 1 * Z.max 0 (size - 0)) with size in Hd by lia.
    rewrite Z.sub_diag, app_nil_r in Hd. subst d. eauto.
Qed.

Lemma sumZ_replicate (n : nat) (x : Z) : sumZ (replicate n x) = Z.of_nat n * x.
Proof. induction n as [|n IH]; [done|]. simpl sumZ. rewrite IH. lia. Qed.

(** X3.  When every embedding vector lies inside the exclusion window of
    every other ([1 <= size <= time_delay]), no distance is computed:
    every entry of [min_distances] is the narrowed [INT32_MAX >> 15],
    that is -1, and -1 is stored in [*result]. *)
Theorem nld_without_candidates (clock : nat -> Z) (junk : Z)
    (junk_double : float) (signal : q15_vector_t.t)
    (embedding_dim time_delay result : Z) (g : globals) :
  well_formed signal ->
  1 <= embedding_dim ->
  q15_vector_t.length signal <= INT32_MAX ->
  let size := q15_vector_t.length signal - (embedding_dim - 1) * time_delay in
  1 <= size <= time_delay ->
  size * embedding_dim <= INT32_MAX ->
  (forall block g1, exists g1',
     nld_min_distances junk block embedding_dim time_delay size g1
     = Returns (replicate (Z.to_nat size) (-1), g1'))
  /\ exists metrics g',
       nld_compute_lyapunov_q15 clock junk junk_double signal embedding_dim
         time_delay result g
       = Returns ((metrics, -1), g').
Proof.
  intros [Hlen _] Hdim Hsmall size Hsize Hblock. unfold INT32_MAX in *.
  assert (Hsize_int : is_int size) by (unfold is_int; lia).
  assert (Hdim_int : is_int embedding_dim) by (unfold is_int; nia).
  assert (Hprod : 0 <= (embedding_dim - 1) * time_delay) by nia.
  split.
  { intros block g1. apply nld_min_distances_no_candidate; [done|lia]. }
  assert (Hpss : phase_space_size signal embedding_dim time_delay = size).
  { apply phase_space_size_valid; unfold is_int in *;
      change (2 ^ 64) with 18446744073709551616; fold size; lia. }
  unfold nld_compute_lyapunov_q15. rewrite Hpss.
  unfold bind at 1. simpl. unfold bind at 1. simpl.
  match goal with
  | |- context [bind (nld_reconstruct _ _ _ _ _) _ ?g1] =>
      destruct (nld_reconstruct_spec junk signal _ embedding_dim time_delay
                  size eq_refl Hdim_int Hsize_int) with (g := g1)
        as (block & g2 & Hrec & _)
  end.
  - unfold INT32_MAX. lia.
  - intros i j Hi Hj. unfold size in Hi. nia.
  - lia.
  - unfold is_int. nia.
  - run_with Hrec.
    destruct (nld_min_distances_no_candidate junk block embedding_dim
                time_delay size g2 Hsize_int ltac:(lia)) as [g3 Hmin].
    run_with Hmin.
    destruct (nld_average_spec (replicate (Z.to_nat size) (-1)) size 1 g3)
      as [Havg _].
    + apply Forall_replicate. lia.
    + rewrite length_replicate. lia.
    + unfold INT32_MAX. lia.
    + unfold INT32_MAX. lia.
    + run_with Havg. rewrite sumZ_replicate, Z2Nat.id by lia.
      replace (Z.quot (size * -1) size) with (-1).
      * eexists _, _. reflexivity.
      * replace (size * -1) with (- size) by lia.
        rewrite Z.quot_opp_l, Z.quot_same by lia. done.
Qed.

(** X3 at the ramp with [embedding_dim = 2] and [time_delay = 3]: two
    vectors, each inside the window of the other. *)
Lemma nld_without_candidates_witness :
  (forall block g1, exists g1',
     nld_min_distances 0 block 2 3 2 g1
     = Returns (replicate (Z.to_nat 2) (-1), g1'))
  /\ exists metrics g',
       nld_compute_lyapunov_q15 millisecond_clock 0 0 ramp 2 3 7
         fresh_globals
       = Returns ((metrics, -1), g').
Proof.
  apply (nld_without_candidates millisecond_clock 0 0%float ramp 2 3 7
           fresh_globals).
  - exact ramp_well_formed.
  - lia.
  - vm_compute. discriminate.
  - simpl. lia.
  - vm_compute. discriminate.
Defined.

(** ** Multiples of the vector width, and the others *)

(** X4.  For a well-formed signal, [embedding_dim] a positive multiple of
    8, [time_delay >= 0] and at least one embedding vector, with
    representable sizes, the specialised routine returns, with a 16-bit
    value in [*result]: every vector load and every store is in range. *)
Theorem nld_returns_on_multiples_of_8 (clock : nat -> Z) (junk : Z)
    (junk_double : float) (signal : q15_vector_t.t)
    (embedding_dim time_delay result : Z) (g : globals) :
  well_formed signal ->
  8 <= embedding_dim -> embedding_dim mod 8 = 0 ->
  0 <= time_delay ->
  q15_vector_t.length signal <= INT32_MAX ->
  let size := q15_vector_t.length signal - (embedding_dim - 1) * time_delay in
  1 <= size ->
  size * embedding_dim <= INT32_MAX ->
  exists metrics r g',
    nld_compute_lyapunov_q15 clock junk junk_double signal embedding_dim
      time_delay result g
    = Returns ((metrics, r), g')
    /\ is_int16 r.
Proof. apply nld_returns. Qed.

(** X4 at [step_signal] with [embedding_dim = 8], [time_delay = 1]. *)
Lemma nld_returns_on_multiples_of_8_witness :
  exists metrics r g',
    nld_compute_lyapunov_q15 millisecond_clock 0 0 step_signal 8 1 7
      fresh_globals
    = Returns ((metrics, r), g')
    /\ is_int16 r.
Proof.
  apply (nld_returns_on_multiples_of_8 millisecond_clock 0 0%float
           step_signal 8 1 7 fresh_globals).
  - exact step_signal_well_formed.
  - lia.
  - reflexivity.
  - lia.
  - vm_compute. discriminate.
  - simpl. lia.
  - vm_compute. discriminate.
Defined.

Lemma oob_only_memset_7F (block : list Z) (bytes : Z) :
  oob_only (memset_7F block bytes).
Proof.
  intros g f. unfold memset_7F.
  destruct (_ <=? _); [discriminate|by intros [= <-]].
Qed.

Lemma oob_only_nld_pair_sum_vec (block : list Z)
    (embedding_dim row_i row_j : Z) :
  embedding_dim <= INT32_MAX - 7 ->
  oob_only (nld_pair_sum_vec block embedding_dim row_i row_j).
Proof.
  intros Hdim. unfold INT32_MAX in Hdim. unfold nld_pair_sum_vec.
  apply oob_only_bind; [|intros; apply oob_only_ret].
  apply (counted_loop_oob 8 0 embedding_dim).
  - lia.
  - intros k. apply Z.ltb_lt.
  - lia.
  - unfold INT32_MAX. lia.
  - unfold upto, trip_count.
    pose proof (Z.mul_div_le (embedding_dim - 0 + 8 - 1) 8). lia.
  - intros k v.
    apply oob_only_bind; [apply oob_only_vld1q_s16|intros a].
    apply oob_only_bind; [apply oob_only_vld1q_s16|intros b].
    apply oob_only_bind; [apply oob_only_add_simd|intros _].
    apply oob_only_bind; [apply oob_only_add_total|intros _].
    apply oob_only_ret.
Qed.

Lemma oob_only_nld_min_distances (junk : Z) (block : list Z)
    (embedding_dim time_delay size : Z) :
  embedding_dim <= INT32_MAX - 7 -> is_int size ->
  oob_only (nld_min_distances junk block embedding_dim time_delay size).
Proof.
  intros Hdim Hsize. unfold is_int in Hsize. unfold nld_min_distances.
  apply oob_only_bind; [apply oob_only_memset_7F|intros d0].
  apply oob_only_bind; [|intros; apply oob_only_ret].
  apply (counted_loop_oob 1 0 size).
  - lia.
  - intros k. apply Z.ltb_lt.
  - lia.
  - unfold INT32_MAX. lia.
  - rewrite trip_count_unit. unfold upto. lia.
  - intros i d.
    apply oob_only_bind; [|intros v].
    + unfold nld_query.
      apply oob_only_bind; [|intros; apply oob_only_ret].
      apply (counted_loop_oob 1 0 size).
      * lia.
      * intros k. apply Z.ltb_lt.
      * lia.
      * unfold INT32_MAX. lia.
      * rewrite trip_count_unit. unfold upto. lia.
      * intros j acc. unfold nld_candidate.
        destruct (_ <? _); [apply oob_only_ret|].
        apply oob_only_bind; [by apply oob_only_nld_pair_sum_vec|intros].
        apply oob_only_ret.
    + apply oob_only_bind; [apply oob_only_store|intros d'].
      apply oob_only_bind; [apply oob_only_add_memory|intros _].
      apply oob_only_ret.
Qed.

(** When [embedding_dim] is not a multiple of 8, the pair of the first
    and the last embedding vector cannot be evaluated: the last vector
    load of the last row runs past the end of the block. *)
Lemma nld_min_distances_overreads (junk : Z) (block : list Z)
    (embedding_dim time_delay size : Z) (g : globals)
    (r : list Z * globals) :
  1 <= embedding_dim <= INT32_MAX - 7 -> embedding_dim mod 8 <> 0 ->
  is_int size -> is_int (size * embedding_dim) ->
  0 <= time_delay < size ->
  Z.of_nat (length block) = size * embedding_dim ->
  nld_min_distances junk block embedding_dim time_delay size g <> Returns r.
Proof.
  intros Hdim Hmod Hsize Hblock Hdelay Hlen Hrun.
  unfold is_int, INT32_MAX in *. destruct r as [d g'].
  unfold nld_min_distances in Hrun.
  apply bind_inv in Hrun as (d0 & g0 & _ & Hrun).
  apply bind_inv in Hrun as (p & g1 & Hloop & _).
  destruct (counted_loop_visits 1 0 size _ _ _ _ _ _ 0
              ltac:(lia) ltac:(intros k; apply Z.ltb_lt)
              ltac:(unfold INT32_MAX; lia) ltac:(lia) Hloop ltac:(lia)
              ltac:(done))
    as (d1 & g2 & d2 & g3 & Hbody).
  apply bind_inv in Hbody as (v & g4 & Hquery & _).
  unfold nld_query in Hquery.
  apply bind_inv in Hquery as (q & g5 & Hloop_j & _).
  destruct (counted_loop_visits 1 0 size _ _ _ _ _ _ (size - 1)
              ltac:(lia) ltac:(intros k; apply Z.ltb_lt)
              ltac:(unfold INT32_MAX; lia) ltac:(lia) Hloop_j ltac:(lia)
              ltac:(apply Z.mod_1_r))
    as (acc1 & g6 & acc2 & g7 & Hcand).
  unfold nld_candidate in Hcand.
  rewrite sub32_small in Hcand by (unfold is_int; lia).
  destruct (Z.abs (0 - (size - 1)) <? time_delay) eqn:E;
    [apply Z.ltb_lt in E; lia|].
  apply bind_inv in Hcand as (sum_vec & g8 & Hpair & _).
  rewrite !mul32_small in Hpair by (unfold is_int; nia).
  unfold nld_pair_sum_vec in Hpair.
  apply bind_inv in Hpair as (pk & g9 & Hloop_k & _).
  pose proof (Z.div_mod embedding_dim 8 ltac:(lia)) as Hdm.
  pose proof (Z.mod_pos_bound embedding_dim 8 ltac:(lia)) as Hrem.
  destruct (counted_loop_visits 8 0 embedding_dim _ _ _ _ _ _
              (8 * (embedding_dim / 8))
              ltac:(lia) ltac:(intros k; apply Z.ltb_lt)
              ltac:(unfold INT32_MAX; lia) ltac:(lia) Hloop_k ltac:(lia))
    as (s1 & g10 & s2 & g11 & Hchunk).
  { rewrite Z.sub_0_r, Z.mul_comm. apply Z.mod_mul. lia. }
  apply bind_inv in Hchunk as (a & g12 & _ & Hchunk).
  apply bind_inv in Hchunk as (b & g13 & Hload & _).
  apply vld1q_s16_returns in Hload as (_ & _ & Hend & _).
  nia.
Qed.

(** X5.  For a well-formed signal with [embedding_dim] not a multiple of 8
    (positive, and small enough for the loop variable not to wrap) and at
    least one pair of vectors outside the exclusion window
    ([0 <= time_delay < size]), the specialised routine does not return:
    the search has no scalar tail, and its last vector load of the last
    row reads past the end of the phase-space block. *)
Theorem nld_overreads_off_multiples_of_8 (clock : nat -> Z) (junk : Z)
    (junk_double : float) (signal : q15_vector_t.t)
    (embedding_dim time_delay result : Z) (g : globals) :
  well_formed signal ->
  1 <= embedding_dim <= INT32_MAX - 7 -> embedding_dim mod 8 <> 0 ->
  q15_vector_t.length signal <= INT32_MAX ->
  let size := q15_vector_t.length signal - (embedding_dim - 1) * time_delay in
  0 <= time_delay < size ->
  size * embedding_dim <= INT32_MAX ->
  nld_compute_lyapunov_q15 clock junk junk_double signal embedding_dim
    time_delay result g
  = Undefined OutOfBounds.
Proof.
  intros [Hlen _] Hdim Hmod Hsmall size Hdelay Hblock.
  unfold INT32_MAX in *.
  assert (Hsize_int : is_int size) by (unfold is_int; nia).
  assert (Hdim_int : is_int embedding_dim) by (unfold is_int; nia).
  assert (Hpss : phase_space_size signal embedding_dim time_delay = size).
  { apply phase_space_size_valid; unfold is_int in *;
      change (2 ^ 64) with 18446744073709551616; fold size; nia. }
  unfold nld_compute_lyapunov_q15. rewrite Hpss.
  unfold bind at 1. simpl. unfold bind at 1. simpl.
  match goal with
  | |- context [bind (nld_reconstruct _ _ _ _ _) _ ?g1] =>
      destruct (nld_reconstruct_spec junk signal _ embedding_dim time_delay
                  size eq_refl Hdim_int Hsize_int)
        with (g := g1) as (block & g2 & Hrec & Hblock_len & _)
  end.
  - unfold INT32_MAX. lia.
  - intros i j Hi Hj. unfold size in Hi. split; nia.
  - lia.
  - unfold is_int. nia.
  - run_with Hrec. unfold bind at 1.
    destruct (nld_min_distances junk block embedding_dim time_delay size g2)
      as [r|f] eqn:Hmin.
    + exfalso. revert Hmin.
      apply nld_min_distances_overreads;
        [unfold INT32_MAX; lia|done|done|unfold is_int; nia|done|nia].
    + f_equal. revert Hmin.
      apply oob_only_nld_min_distances; [unfold INT32_MAX; lia|done].
Qed.

(** X5 at the ramp with [embedding_dim = 2] and [time_delay = 1]. *)
Lemma nld_overreads_off_multiples_of_8_witness :
  nld_compute_lyapunov_q15 millisecond_clock 0 0 ramp 2 1 7 fresh_globals
  = Undefined OutOfBounds.
Proof.
  apply (nld_overreads_off_multiples_of_8 millisecond_clock 0 0%float ramp
           2 1 7 fresh_globals).
  - exact ramp_well_formed.
  - unfold INT32_MAX. lia.
  - vm_compute. discriminate.
  - vm_compute. discriminate.
  - simpl. lia.
  - vm_compute. discriminate.
Defined.

(** ** What the kernels count *)

Lemma counts_eq {A} (m : M A) (t s mm t' s' mm' : Z) :
  counts m t s mm -> t = t' -> s = s' -> mm = mm' -> counts m t' s' mm'.
Proof. by intros H <- <- <-. Qed.

Lemma counts_ret {A} (a : A) : counts (ret a) 0 0 0.
Proof. intros g x g' Hg [= _ <-]. symmetry. by apply bump_zero. Qed.

Lemma counts_bind_with {A B} (P : A -> Prop) (m : M A) (k : A -> M B)
    (t1 s1 m1 t2 s2 m2 : Z) :
  (forall g x g', m g = Returns (x, g') -> P x) ->
  counts m t1 s1 m1 -> (forall x, P x -> counts (k x) t2 s2 m2) ->
  counts (bind m k) (t1 + t2) (s1 + s2) (m1 + m2).
Proof.
  intros HP Hm Hk g y g'' Hg Hrun.
  apply bind_inv in Hrun as (x & g' & Hx & Hy).
  pose proof (Hm _ _ _ Hg Hx) as ->.
  rewrite (Hk x (HP _ _ _ Hx) _ _ _ (bump_in_range _ _ _ _) Hy).
  apply bump_bump.
Qed.

Lemma counts_bind {A B} (m : M A) (k : A -> M B) (t1 s1 m1 t2 s2 m2 : Z) :
  counts m t1 s1 m1 -> (forall x, counts (k x) t2 s2 m2) ->
  counts (bind m k) (t1 + t2) (s1 + s2) (m1 + m2).
Proof.
  intros Hm Hk. apply (counts_bind_with (fun _ => True)); auto.
Qed.

Lemma counts_load {A} (block : list A) (idx : Z) : counts (load block idx) 0 0 0.
Proof.
  intros g x g' Hg H. apply load_returns in H as [-> _].
  symmetry. by apply bump_zero.
Qed.

Lemma counts_store {A} (block : list A) (idx : Z) (v : A) :
  counts (store block idx v) 0 0 0.
Proof.
  intros g x g' Hg H. apply store_returns in H as [-> _].
  symmetry. by apply bump_zero.
Qed.

Lemma counts_vld1q_s16 (block : list Z) (off : Z) :
  counts (vld1q_s16 block off) 0 0 0.
Proof.
  intros g x g' Hg H. apply vld1q_s16_returns in H as [-> _].
  symmetry. by apply bump_zero.
Qed.

Lemma counts_vst1q_s16 (block v : list Z) (off : Z) :
  counts (vst1q_s16 block off v) 0 0 0.
Proof.
  intros g x g' Hg H. apply vst1q_s16_returns in H as [-> _].
  symmetry. by apply bump_zero.
Qed.

Lemma counts_memset_7F (block : list Z) (bytes : Z) :
  counts (memset_7F block bytes) 0 0 0.
Proof.
  intros g x g' Hg. unfold memset_7F. destruct (_ <=? _); [|discriminate].
  intros [= _ <-]. symmetry. by apply bump_zero.
Qed.

Lemma counts_add_total (n : Z) : counts (add_total_instructions n) n 0 0.
Proof.
  intros g x g' Hg. rewrite <- (bump_zero g Hg) at 1.
  rewrite add_total_bump. by intros [= _ <-].
Qed.

Lemma counts_add_simd (n : Z) : counts (add_simd_instructions n) 0 n 0.
Proof.
  intros g x g' Hg. rewrite <- (bump_zero g Hg) at 1.
  rewrite add_simd_bump. by intros [= _ <-].
Qed.

Lemma counts_add_memory (n : Z) : counts (add_memory_accesses n) 0 0 n.
Proof.
  intros g x g' Hg. rewrite <- (bump_zero g Hg) at 1.
  rewrite add_memory_bump. by intros [= _ <-].
Qed.

(** A counted loop that returns has left its variable at the first value
    of the progression that fails the test. *)
Lemma counted_loop_final {S} (st lo hi : Z) (fuel : nat)
    (cond : Z -> bool) (body : Z -> S -> M S) (s : S) (g : globals)
    (kf : Z) (s' : S) (g' : globals) :
  0 < st ->
  (forall k, cond k = true <-> k < hi) ->
  hi + st - 1 <= INT32_MAX -> -2147483648 <= lo ->
  for_loop fuel cond (fun k => add32 k st) body lo s g
  = Returns ((kf, s'), g') ->
  kf = lo + st * trip_count st lo hi.
Proof.
  intros Hst Hcond Hhi Hlo Hrun.
  destruct (for_loop_partial
              (fun k (_ : S) (_ : globals) =>
                 lo <= k /\ (k - lo) mod st = 0 /\ (k = lo \/ k - st < hi))
              cond (fun k => add32 k st) body) with
    (fuel := fuel) (k := lo) (s := s) (g := g) (k' := kf) (s' := s')
    (g' := g') as [(Hk & Hmod & Hlast) Hexit].
  - intros k s0 g0 s1 g1 Hc (Hk & Hmod & _) Hb.
    apply Hcond in Hc.
    rewrite add32_small by (unfold is_int, INT32_MAX in *; lia).
    split; [lia|]. split; [|right; lia].
    replace (k + st - lo) with (k - lo + 1 * st) by lia.
    by rewrite Z.mod_add by lia.
  - done.
  - split; [lia|]. split; [by rewrite Z.sub_diag|by left].
  - assert (hi <= kf).
    { destruct (Z.lt_ge_cases kf hi) as [Hlt|]; [|done].
      apply Hcond in Hlt. congruence. }
    unfold trip_count.
    apply Z.mod_divide in Hmod as [q Hq]; [|lia].
    assert (kf = lo + st * q) as -> by lia.
    f_equal. f_equal.
    assert (0 <= q) by nia.
    destruct Hlast as [Hlast|Hlast].
    + assert (q = 0) as -> by nia.
      assert ((hi - lo + st - 1) / st < 1); [|lia].
      apply Z.div_lt_upper_bound; lia.
    + assert ((hi - lo + st - 1) / st = q); [|lia].
      symmetry. apply Z.div_unique with (r := hi - lo + st - 1 - st * q); nia.
Qed.

(** A counted loop that returns has advanced the counters by the sum of
    what its iterations add; [T], [Sm] and [Mm] are the running sums. *)
Lemma counted_loop_counts {S} (T Sm Mm : Z -> Z) (st lo hi : Z) (fuel : nat)
    (cond : Z -> bool) (body : Z -> S -> M S) (s : S) :
  0 < st ->
  (forall k, cond k = true <-> k < hi) ->
  hi + st - 1 <= INT32_MAX -> -2147483648 <= lo ->
  (forall k s, lo <= k < hi -> (k - lo) mod st = 0 ->
     counts (body k s) (T (k + st) - T k) (Sm (k + st) - Sm k)
            (Mm (k + st) - Mm k)) ->
  let kf := lo + st * trip_count st lo hi in
  counts (for_loop fuel cond (fun k => add32 k st) body lo s)
         (T kf - T lo) (Sm kf - Sm lo) (Mm kf - Mm lo).
Proof.
  intros Hst Hcond Hhi Hlo Hbody kf g [kf' s'] g' Hg Hrun.
  pose proof (counted_loop_final st lo hi fuel cond body s g kf' s' g'
                Hst Hcond Hhi Hlo Hrun) as Hkf.
  fold kf in Hkf. subst kf'.
  destruct (for_loop_partial
              (fun k (_ : S) g1 =>
                 lo <= k /\ (k - lo) mod st = 0
                 /\ g1 = bump g (T k - T lo) (Sm k - Sm lo) (Mm k - Mm lo))
              cond (fun k => add32 k st) body) with
    (fuel := fuel) (k := lo) (s := s) (g := g) (k' := kf) (s' := s')
    (g' := g') as [(Hk & Hmod & Hg') Hexit].
  - intros k s0 g0 s1 g1 Hc (Hk & Hmod & ->) Hb.
    apply Hcond in Hc.
    rewrite add32_small by (unfold is_int, INT32_MAX in *; lia).
    split; [lia|]. split.
    { replace (k + st - lo) with (k - lo + 1 * st) by lia.
      by rewrite Z.mod_add by lia. }
    rewrite (Hbody k s0 ltac:(lia) Hmod _ _ _ (bump_in_range _ _ _ _) Hb).
    rewrite bump_bump. f_equal; lia.
  - done.
  - split; [lia|]. split; [by rewrite Z.sub_diag|].
    rewrite !Z.sub_diag. symmetry. by apply bump_zero.
  - done.
Qed.

(** The same for iterations of one fixed cost. *)
Lemma counted_loop_counts_const {S} (t sm mm st lo hi : Z) (fuel : nat)
    (cond : Z -> bool) (body : Z -> S -> M S) (s : S) :
  0 < st ->
  (forall k, cond k = true <-> k < hi) ->
  hi + st - 1 <= INT32_MAX -> -2147483648 <= lo ->
  (forall k s, lo <= k < hi -> (k - lo) mod st = 0 ->
     counts (body k s) t sm mm) ->
  counts (for_loop fuel cond (fun k => add32 k st) body lo s)
         (trip_count st lo hi * t) (trip_count st lo hi * sm)
         (trip_count st lo hi * mm).
Proof.
  intros Hst Hcond Hhi Hlo Hbody.
  eapply counts_eq;
    [apply (counted_loop_counts
              (fun k => (k - lo) / st * t) (fun k => (k - lo) / st * sm)
              (fun k => (k - lo) / st * mm)); try done|..].
  - intros k s0 Hk Hmod.
    replace (k + st - lo) with (k - lo + 1 * st) by lia.
    rewrite Z.div_add by lia.
    eapply counts_eq; [by apply Hbody|lia..].
  - replace (lo + st * trip_count st lo hi - lo)
      with (trip_count st lo hi * st) by lia.
    rewrite Z.div_mul, Z.sub_diag by lia. rewrite Zdiv_0_l. lia.
  - replace (lo + st * trip_count st lo hi - lo)
      with (trip_count st lo hi * st) by lia.
    rewrite Z.div_mul, Z.sub_diag by lia. rewrite Zdiv_0_l. lia.
  - replace (lo + st * trip_count st lo hi - lo)
      with (trip_count st lo hi * st) by lia.
    rewrite Z.div_mul, Z.sub_diag by lia. rewrite Zdiv_0_l. lia.
Qed.

Lemma counts_fail {A} (f : fault) (t s mm : Z) : counts (@fail A f) t s mm.
Proof. intros g x g' _ H. discriminate. Qed.

Ltac counts_step :=
  first [ apply counts_ret | apply counts_load | apply counts_store
        | apply counts_vld1q_s16 | apply counts_vst1q_s16
        | apply counts_add_total | apply counts_add_simd
        | apply counts_add_memory | apply counts_memset_7F
        | (eapply counts_bind; [|intros ?]) ].
Ltac counts_line := repeat counts_step.

Lemma pair_count_succ (n : Z) : pair_count (n + 1) = pair_count n + n.
Proof.
  unfold pair_count.
  replace ((n + 1) * (n + 1 - 1)) with (n * (n - 1) + n * 2) by lia.
  by rewrite Z.div_add.
Qed.

Lemma pair_count_double (n : Z) : 2 * pair_count n = n * (n - 1).
Proof.
  unfold pair_count.
  destruct (Z.Even_or_Odd n) as [[k ->]|[k ->]].
  - replace (2 * k * (2 * k - 1)) with (k * (2 * k - 1) * 2) by lia.
    rewrite Z.div_mul by lia. lia.
  - replace ((2 * k + 1) * (2 * k + 1 - 1)) with ((2 * k + 1) * k * 2) by lia.
    rewrite Z.div_mul by lia. lia.
Qed.

Lemma pair_count_nonneg (n : Z) : 0 <= pair_count n.
Proof. pose proof (pair_count_double n). nia. Qed.

Lemma counts_cmsis_reconstruct (junk : Z) (signal : q15_vector_t.t)
    (embedding_dim time_delay size : Z) :
  0 <= embedding_dim -> 2 * embedding_dim <= INT32_MAX ->
  0 <= size <= INT32_MAX ->
  counts (cmsis_reconstruct junk signal embedding_dim time_delay size)
         (size * (2 * embedding_dim)) 0 (size * embedding_dim).
Proof.
  intros Hdim Hdim2 Hsize. unfold INT32_MAX in *. unfold cmsis_reconstruct.
  eapply counts_eq.
  - eapply counts_bind; [|intros; apply counts_ret].
    apply (counted_loop_counts_const (2 * embedding_dim) 0 embedding_dim
             1 0 size).
    + lia.
    + intros k. apply Z.ltb_lt.
    + unfold INT32_MAX. lia.
    + lia.
    + intros i ps Hi _. eapply counts_eq.
      * eapply counts_bind; [|intros q; counts_line].
        apply (counted_loop_counts_const 0 0 1 1 0 embedding_dim).
        -- lia.
        -- intros k. apply Z.ltb_lt.
        -- unfold INT32_MAX. lia.
        -- lia.
        -- intros j row Hj _. eapply counts_eq; [counts_line|lia..].
      * rewrite mul32_small by (unfold is_int; lia). lia.
      * lia.
      * rewrite trip_count_unit. lia.
  - rewrite trip_count_unit. lia.
  - lia.
  - rewrite trip_count_unit. lia.
Qed.

Lemma counts_cmsis_pair_sum (phase_space : list (list Z))
    (embedding_dim i j : Z) :
  0 <= embedding_dim <= INT32_MAX ->
  counts (cmsis_pair_sum phase_space embedding_dim i j)
         (8 * (embedding_dim / 8) + 3 * (embedding_dim mod 8))
         (5 * (embedding_dim / 8)) 0.
Proof.
  intros Hdim. unfold INT32_MAX in *. unfold cmsis_pair_sum.
  rewrite sub32_small by (unfold is_int; lia).
  assert (Hcond : forall k, (k <=? embedding_dim - 8) = true
                            <-> k < embedding_dim - 7).
  { intros k. rewrite Z.leb_le. lia. }
  assert (Htrip : trip_count 8 0 (embedding_dim - 7) = embedding_dim / 8).
  { unfold trip_count.
    replace (embedding_dim - 7 - 0 + 8 - 1) with embedding_dim by lia.
    assert (0 <= embedding_dim / 8) by (apply Z.div_pos; lia). lia. }
  pose proof (Z.div_mod embedding_dim 8 ltac:(lia)) as Hdm.
  pose proof (Z.mod_pos_bound embedding_dim 8 ltac:(lia)) as Hrem.
  eapply counts_eq.
  - eapply (counts_bind_with (fun p => fst p = 8 * (embedding_dim / 8))).
    + intros g [kf s] g' Hrun. simpl.
      apply (counted_loop_final 8 0 (embedding_dim - 7)) in Hrun;
        [|lia|exact Hcond|unfold INT32_MAX; lia|lia].
      rewrite Htrip in Hrun. lia.
    + apply (counted_loop_counts_const 8 5 0 8 0 (embedding_dim - 7));
        [lia|exact Hcond|unfold INT32_MAX; lia|lia|].
      intros k sum Hk _. eapply counts_eq; [counts_line|lia..].
    + intros [kf s] Hkf. simpl in Hkf. subst kf. simpl fst. simpl snd.
      eapply counts_bind; [|intros; apply counts_ret].
      apply (counted_loop_counts_const 3 0 0 1 (8 * (embedding_dim / 8))
               embedding_dim);
        [lia|intros k; apply Z.ltb_lt|unfold INT32_MAX; lia|lia|].
      intros k sum Hk _. eapply counts_eq; [counts_line|lia..].
  - rewrite Htrip, trip_count_unit. lia.
  - rewrite Htrip, trip_count_unit. lia.
  - lia.
Qed.

Lemma counts_cmsis_distances (junk : Z) (phase_space : list (list Z))
    (embedding_dim size : Z) :
  0 <= embedding_dim <= INT32_MAX -> 0 <= size <= INT32_MAX ->
  counts (cmsis_distances junk phase_space embedding_dim size)
         (pair_count size
            * (8 * (embedding_dim / 8) + 3 * (embedding_dim mod 8)))
         (pair_count size * (5 * (embedding_dim / 8)))
         (pair_count size).
Proof.
  intros Hdim Hsize. unfold INT32_MAX in *. unfold cmsis_distances.
  set (w := 8 * (embedding_dim / 8) + 3 * (embedding_dim mod 8)).
  set (v := 5 * (embedding_dim / 8)).
  set (below := fun i => i * (size - 1) - pair_count i).
  assert (Hfinal : below (0 + 1 * trip_count 1 0 size) - below 0
                   = pair_count size).
  { rewrite trip_count_unit. unfold below.
    replace (0 + 1 * Z.max 0 (size - 0)) with size by lia.
    pose proof (pair_count_double size). change (pair_count 0) with 0. lia. }
  eapply counts_eq.
  - eapply counts_bind; [|intros; apply counts_ret].
    apply (counted_loop_counts
             (fun i => below i * w) (fun i => below i * v) below 1 0 size);
      [lia|intros k; apply Z.ltb_lt|unfold INT32_MAX; lia|lia|].
    intros i distances Hi _.
    rewrite add32_small by (unfold is_int; lia).
    assert (Hstep : below (i + 1) = below i + (size - 1 - i))
      by (unfold below; rewrite pair_count_succ; lia).
    assert (Htrip : trip_count 1 (i + 1) size = size - 1 - i)
      by (rewrite trip_count_unit; lia).
    eapply counts_eq.
    + eapply counts_bind; [|intros; apply counts_ret].
      apply (counted_loop_counts_const w v 1 1 (i + 1) size);
        [lia|intros k; apply Z.ltb_lt|unfold INT32_MAX; lia|lia|].
      intros j d Hj _. eapply counts_eq.
      * eapply counts_bind;
          [apply counts_cmsis_pair_sum; unfold INT32_MAX; lia
          |intros; counts_line].
      * fold w. lia.
      * fold v. lia.
      * lia.
    + rewrite Htrip, Hstep. ring.
    + rewrite Htrip, Hstep. ring.
    + rewrite Htrip, Hstep. ring.
  - cbv beta. rewrite <- Hfinal. ring.
  - cbv beta. rewrite <- Hfinal. ring.
  - cbv beta. rewrite <- Hfinal. ring.
Qed.

Lemma counts_cmsis_cleanup (phase_space : list (list Z)) (size : Z) :
  size <= INT32_MAX -> counts (cmsis_cleanup phase_space size) 0 0 0.
Proof.
  intros Hsize. unfold cmsis_cleanup. eapply counts_eq.
  - eapply counts_bind; [|intros; apply counts_ret].
    apply (counted_loop_counts_const 0 0 0 1 0 size);
      [lia|intros k; apply Z.ltb_lt|lia|lia|].
    intros i u _ _. eapply counts_eq; [counts_line|lia..].
  - lia.
  - lia.
  - lia.
Qed.

Lemma epilogue_reports (clock : nat -> Z) (junk_double : float)
    (start result : Z) (g : globals) :
  exists metrics g',
    (end_ <- mach_absolute_time clock ;;
     metrics <- get_performance_metrics clock junk_double ;;
     ret (set_processing_time_ms metrics
            (double_of_uint64 (uint64_of (end_ - start)) / 1000000)%float,
          result)) g
    = Returns ((metrics, result), g')
    /\ total_instructions metrics = g_total_instructions g
    /\ simd_instructions metrics = g_simd_instructions g
    /\ g_memory_accesses g' = g_memory_accesses g.
Proof.
  cbv [bind mach_absolute_time get_performance_metrics get_globals ret
       set_processing_time_ms].
  eexists _, _. split; [reflexivity|]. cbn [total_instructions simd_instructions g_memory_accesses g_total_instructions g_simd_instructions]. auto.
Qed.

Lemma prologue_resets (clock : nat -> Z) {A} (k : Z -> M A) (g : globals) :
  exists g0,
    (_ <- reset_performance_counters clock ;;
     start <- mach_absolute_time clock ;; k start) g
    = k (uint64_of (clock (S (ticks g)))) g0
    /\ g_total_instructions g0 = 0 /\ g_simd_instructions g0 = 0
    /\ g_memory_accesses g0 = 0.
Proof.
  cbv [bind reset_performance_counters mach_absolute_time].
  cbn [ticks g_total_instructions g_simd_instructions g_memory_accesses g_start_time].
  eexists. split; [reflexivity|].
  cbn [ticks g_total_instructions g_simd_instructions g_memory_accesses g_start_time]. auto.
Qed.

(** X6.  The counters the generic routine reports.  For a well-formed
    signal with [size] vectors of [embedding_dim >= 1] components (sizes
    representable), with [pairs = size * (size - 1) / 2] pairs of vectors,
    [chunks = embedding_dim / 8] vector chunks and
    [rest = embedding_dim mod 8] scalar components per pair, the routine
    returns with
    [total_instructions = 2 * size * embedding_dim
                          + pairs * (8 * chunks + 3 * rest)],
    [simd_instructions = 5 * chunks * pairs], and
    [size * embedding_dim + pairs] memory accesses counted; no counter
    wraps.  So the share of vector instructions it reports never exceeds
    5/8. *)
Theorem cmsis_reported_counts (clock : nat -> Z) (junk : Z)
    (junk_double : float) (signal : q15_vector_t.t)
    (embedding_dim time_delay result : Z) (g : globals) :
  well_formed signal ->
  1 <= embedding_dim -> 2 * embedding_dim <= INT32_MAX ->
  0 <= time_delay ->
  q15_vector_t.length signal <= INT32_MAX ->
  let size := q15_vector_t.length signal - (embedding_dim - 1) * time_delay in
  0 <= size -> size * size <= INT32_MAX ->
  let pairs := pair_count size in
  let chunks := embedding_dim / 8 in
  let rest := embedding_dim mod 8 in
  exists metrics g',
    cmsis_compute_lyapunov_q15 clock junk junk_double signal embedding_dim
      time_delay result g
    = Returns ((metrics, 0), g')
    /\ total_instructions metrics
       = 2 * size * embedding_dim + pairs * (8 * chunks + 3 * rest)
    /\ simd_instructions metrics = 5 * chunks * pairs
    /\ g_memory_accesses g' = size * embedding_dim + pairs
    /\ 8 * simd_instructions metrics <= 5 * total_instructions metrics.
Proof.
  intros Hwf Hdim Hdim2 Hdelay Hlen size Hsize Hsq pairs chunks rest.
  assert (Hprod : is_int ((embedding_dim - 1) * time_delay)).
  { unfold is_int, INT32_MAX in *. unfold size in Hsize. nia. }
  destruct (cmsis_returns clock junk junk_double signal embedding_dim
              time_delay result g) as (metrics & g' & Hrun);
    [exact Hwf|unfold is_int, INT32_MAX in *; lia|unfold INT32_MAX in *; lia
    |left; lia|exact Hlen|exact Hprod|exact Hsq|].
  exists metrics, g'. split; [exact Hrun|].
  assert (Hpss : phase_space_size signal embedding_dim time_delay = size).
  { destruct Hwf as [Hl _].
    apply phase_space_size_valid; unfold is_int, INT32_MAX in *;
      change (2 ^ 64) with 18446744073709551616; fold size;
      solve [lia|nia]. }
  unfold cmsis_compute_lyapunov_q15 in Hrun. rewrite Hpss in Hrun.
  destruct (prologue_resets clock
              (fun start =>
                 phase_space <- cmsis_reconstruct junk signal embedding_dim
                                  time_delay size ;;
                 distances <- cmsis_distances junk phase_space embedding_dim
                                size ;;
                 _ <- cmsis_cleanup phase_space size ;;
                 end_ <- mach_absolute_time clock ;;
                 metrics <- get_performance_metrics clock junk_double ;;
                 ret (set_processing_time_ms metrics
                        (double_of_uint64 (uint64_of (end_ - start))
                           / 1000000)%float, 0)) g)
    as (g0 & Hpro & Ht0 & Hs0 & Hm0).
  rewrite Hpro in Hrun. clear Hpro.
  assert (Hg0 : counters_in_range g0).
  { unfold counters_in_range. rewrite Ht0, Hs0, Hm0. lia. }
  apply bind_inv in Hrun as (ps & g1 & Hrec & Hrun).
  apply bind_inv in Hrun as (d & g2 & Hdist & Hrun).
  apply bind_inv in Hrun as (u & g3 & Hclean & Hrun).
  assert (Hsize_max : 0 <= size <= INT32_MAX)
    by (unfold INT32_MAX in *; nia).
  assert (Hdim_max : 0 <= embedding_dim <= INT32_MAX)
    by (unfold INT32_MAX in *; lia).
  pose proof (counts_cmsis_reconstruct junk signal embedding_dim time_delay
                size ltac:(lia) Hdim2 Hsize_max _ _ _ Hg0 Hrec) as ->.
  pose proof (counts_cmsis_distances junk ps embedding_dim size Hdim_max
                Hsize_max _ _ _ (bump_in_range _ _ _ _) Hdist) as ->.
  pose proof (counts_cmsis_cleanup ps size (proj2 Hsize_max) _ _ _
                (bump_in_range _ _ _ _) Hclean) as Hg3.
  rewrite !bump_bump in Hg3.
  destruct (epilogue_reports clock junk_double
              (uint64_of (clock (S (ticks g)))) 0 g3)
    as (m' & g'' & Hepi & Ht & Hs & Hm).
  rewrite Hepi in Hrun. injection Hrun as <- <-.
  rewrite Ht, Hs, Hm, Hg3. unfold bump.
  cbn [g_total_instructions g_simd_instructions g_memory_accesses].
  rewrite Ht0, Hs0, Hm0. fold chunks rest pairs.
  (* no counter wraps *)
  unfold INT32_MAX in *.
  pose proof (pair_count_double size) as Hpairs. fold pairs in Hpairs.
  assert (Hpairs_range : 0 <= pairs <= 2147483647) by nia.
  pose proof (Z.div_mod embedding_dim 8 ltac:(lia)) as Hdm.
  pose proof (Z.mod_pos_bound embedding_dim 8 ltac:(lia)) as Hrem.
  fold chunks rest in Hdm, Hrem.
  assert (Hchunks : 0 <= chunks) by lia.
  assert (Hcells : 0 <= size * embedding_dim <= 2147483647 * 1073741823)
    by nia.
  assert (Hwork : 0 <= pairs * (8 * chunks + 3 * rest)
                  <= 2147483647 * 1073741844) by nia.
  assert (Hsimd : 0 <= pairs * (5 * chunks) <= pairs * (8 * chunks + 3 * rest))
    by nia.
  rewrite !uint64_of_small
    by (change (2 ^ 64) with 18446744073709551616; lia).
  repeat split; nia.
Qed.

Lemma counts_nld_reconstruct (junk : Z) (signal : q15_vector_t.t)
    (embedding_dim time_delay size : Z) :
  0 <= embedding_dim <= INT32_MAX -> 0 <= size <= INT32_MAX ->
  counts (nld_reconstruct junk signal embedding_dim time_delay size)
         (size * embedding_dim) (size * (2 * (embedding_dim / 8)))
         (size * embedding_dim).
Proof.
  intros Hdim Hsize. unfold INT32_MAX in *. unfold nld_reconstruct.
  assert (Hcond : forall k, (k <=? embedding_dim - 8) = true
                            <-> k < embedding_dim - 7).
  { intros k. rewrite Z.leb_le. lia. }
  assert (Htrip : trip_count 8 0 (embedding_dim - 7) = embedding_dim / 8).
  { unfold trip_count.
    replace (embedding_dim - 7 - 0 + 8 - 1) with embedding_dim by lia.
    assert (0 <= embedding_dim / 8) by (apply Z.div_pos; lia). lia. }
  pose proof (Z.div_mod embedding_dim 8 ltac:(lia)) as Hdm.
  pose proof (Z.mod_pos_bound embedding_dim 8 ltac:(lia)) as Hrem.
  eapply counts_eq.
  - eapply counts_bind; [|intros; apply counts_ret].
    apply (counted_loop_counts_const embedding_dim (2 * (embedding_dim / 8))
             embedding_dim 1 0 size);
      [lia|intros k; apply Z.ltb_lt|unfold INT32_MAX; lia|lia|].
    intros i block Hi _.
    rewrite sub32_small by (unfold is_int; lia).
    eapply counts_eq.
    + eapply (counts_bind_with (fun q => fst q = 8 * (embedding_dim / 8))).
      * intros g [kf s] g' Hrun. simpl.
        apply (counted_loop_final 8 0 (embedding_dim - 7)) in Hrun;
          [|lia|exact Hcond|unfold INT32_MAX; lia|lia].
        rewrite Htrip in Hrun. lia.
      * apply (counted_loop_counts_const 8 2 8 8 0 (embedding_dim - 7));
          [lia|exact Hcond|unfold INT32_MAX; lia|lia|].
        intros j blk Hj _. eapply counts_eq; [counts_line|lia..].
      * intros [kf s] Hkf. simpl in Hkf. subst kf. cbn [fst snd].
        eapply counts_bind; [|intros; apply counts_ret].
        apply (counted_loop_counts_const 1 0 1 1 (8 * (embedding_dim / 8))
                 embedding_dim);
          [lia|intros k; apply Z.ltb_lt|unfold INT32_MAX; lia|lia|].
        intros j blk Hj _. eapply counts_eq; [counts_line|lia..].
    + rewrite Htrip, trip_count_unit. lia.
    + rewrite Htrip, trip_count_unit. lia.
    + rewrite Htrip, trip_count_unit. lia.
  - rewrite trip_count_unit. lia.
  - rewrite trip_count_unit. lia.
  - rewrite trip_count_unit. lia.
Qed.

Lemma counts_nld_pair_sum_vec (block : list Z)
    (embedding_dim row_i row_j : Z) :
  embedding_dim <= INT32_MAX - 7 ->
  counts (nld_pair_sum_vec block embedding_dim row_i row_j)
         (trip_count 8 0 embedding_dim * 8)
         (trip_count 8 0 embedding_dim * 6) 0.
Proof.
  intros Hdim. unfold INT32_MAX in Hdim. unfold nld_pair_sum_vec.
  eapply counts_eq.
  - eapply counts_bind; [|intros; apply counts_ret].
    apply (counted_loop_counts_const 8 6 0 8 0 embedding_dim);
      [lia|intros k; apply Z.ltb_lt|unfold INT32_MAX; lia|lia|].
    intros k v Hk _. eapply counts_eq; [counts_line|lia..].
  - lia.
  - lia.
  - lia.
Qed.

Lemma eligible_before_step (time_delay i j : Z) :
  1 <= time_delay -> 0 <= i -> 0 <= j ->
  eligible_before time_delay i (j + 1)
  = eligible_before time_delay i j
    + (if Z.abs (i - j) <? time_delay then 0 else 1).
Proof.
  intros Hd Hi Hj. unfold eligible_before.
  destruct (Z.abs (i - j) <? time_delay) eqn:E;
    [apply Z.ltb_lt in E|apply Z.ltb_ge in E]; lia.
Qed.

Lemma counts_nld_query (block : list Z)
    (embedding_dim time_delay size i : Z) :
  embedding_dim <= INT32_MAX - 7 -> 1 <= time_delay ->
  0 <= i < size -> size <= INT32_MAX ->
  let pairs := eligible_before time_delay i size in
  counts (nld_query block embedding_dim time_delay size i)
         (pairs * (trip_count 8 0 embedding_dim * 8))
         (pairs * (trip_count 8 0 embedding_dim * 6)) 0.
Proof.
  intros Hdim Hdelay Hi Hsize pairs. unfold INT32_MAX in *.
  unfold nld_query.
  set (w := trip_count 8 0 embedding_dim * 8).
  set (v := trip_count 8 0 embedding_dim * 6).
  eapply counts_eq.
  - eapply counts_bind; [|intros; apply counts_ret].
    apply (counted_loop_counts
             (fun j => eligible_before time_delay i j * w)
             (fun j => eligible_before time_delay i j * v)
             (fun _ => 0) 1 0 size);
      [lia|intros k; apply Z.ltb_lt|unfold INT32_MAX; lia|lia|].
    intros j acc Hj _. unfold nld_candidate.
    rewrite sub32_small by (unfold is_int; lia).
    rewrite eligible_before_step by lia.
    destruct (Z.abs (i - j) <? time_delay).
    + eapply counts_eq; [apply counts_ret|lia..].
    + eapply counts_eq.
      * eapply counts_bind; [|intros; apply counts_ret].
        apply counts_nld_pair_sum_vec. unfold INT32_MAX. lia.
      * fold w. lia.
      * fold v. lia.
      * lia.
  - cbv beta. rewrite trip_count_unit.
    replace (0 + 1 * Z.max 0 (size - 0)) with size by lia.
    assert (eligible_before time_delay i 0 = 0)
      by (unfold eligible_before; lia).
    fold pairs. lia.
  - cbv beta. rewrite trip_count_unit.
    replace (0 + 1 * Z.max 0 (size - 0)) with size by lia.
    assert (eligible_before time_delay i 0 = 0)
      by (unfold eligible_before; lia).
    fold pairs. lia.
  - lia.
Qed.

Lemma evaluated_before_step (size time_delay i : Z) :
  1 <= time_delay -> 0 <= i < size ->
  evaluated_before size time_delay (i + 1)
  = evaluated_before size time_delay i + eligible_before time_delay i size.
Proof.
  intros Hd Hi. unfold evaluated_before, eligible_before. cbv zeta.
  set (n := Z.max 0 (size - time_delay)).
  replace (Z.max 0 (Z.min size (i - time_delay + 1)))
    with (Z.max 0 (i - time_delay + 1)) by lia.
  assert (Hleft : pair_count (Z.max 0 (i + 1 - time_delay) + 1)
                  = pair_count (Z.max 0 (i - time_delay) + 1)
                    + Z.max 0 (i - time_delay + 1)).
  { destruct (Z.le_gt_cases time_delay i) as [Hge|Hlt].
    - replace (Z.max 0 (i + 1 - time_delay)) with (i - time_delay + 1) by lia.
      replace (Z.max 0 (i - time_delay)) with (i - time_delay) by lia.
      rewrite (pair_count_succ (i - time_delay + 1)). lia.
    - replace (Z.max 0 (i + 1 - time_delay)) with 0 by lia.
      replace (Z.max 0 (i - time_delay)) with 0 by lia. lia. }
  assert (Hright : Z.min (i + 1) n * n - pair_count (Z.min (i + 1) n)
                   = Z.min i n * n - pair_count (Z.min i n)
                     + Z.max 0 (size - (i + time_delay))).
  { destruct (Z.lt_ge_cases i n) as [Hlt|Hge].
    - replace (Z.min (i + 1) n) with (i + 1) by lia.
      replace (Z.min i n) with i by lia.
      rewrite pair_count_succ. unfold n in *. lia.
    - replace (Z.min (i + 1) n) with n by lia.
      replace (Z.min i n) with n by lia. unfold n in *. lia. }
  lia.
Qed.

Lemma evaluated_before_all (size time_delay : Z) :
  1 <= time_delay -> 0 <= size ->
  evaluated_before size time_delay size - evaluated_before size time_delay 0
  = eligible_pairs size time_delay.
Proof.
  intros Hd Hsize. unfold evaluated_before, eligible_pairs. cbv zeta.
  set (n := Z.max 0 (size - time_delay)).
  replace (Z.max 0 (size - time_delay)) with n by done.
  replace (Z.min size n) with n by lia.
  replace (Z.max 0 (0 - time_delay)) with 0 by lia.
  replace (Z.min 0 n) with 0 by lia.
  rewrite pair_count_succ. change (pair_count (0 + 1)) with 0.
  change (pair_count 0) with 0. lia.
Qed.

Lemma counts_nld_min_distances (junk : Z) (block : list Z)
    (embedding_dim time_delay size : Z) :
  embedding_dim <= INT32_MAX - 7 -> 1 <= time_delay ->
  0 <= size <= INT32_MAX ->
  let pairs := eligible_pairs size time_delay in
  counts (nld_min_distances junk block embedding_dim time_delay size)
         (pairs * (trip_count 8 0 embedding_dim * 8))
         (pairs * (trip_count 8 0 embedding_dim * 6)) size.
Proof.
  intros Hdim Hdelay Hsize pairs. unfold INT32_MAX in *.
  unfold nld_min_distances.
  set (w := trip_count 8 0 embedding_dim * 8).
  set (v := trip_count 8 0 embedding_dim * 6).
  pose proof (evaluated_before_all size time_delay Hdelay (proj1 Hsize))
    as Hall. fold pairs in Hall.
  eapply counts_eq.
  - eapply counts_bind; [apply counts_memset_7F|intros d0].
    eapply counts_bind; [|intros; apply counts_ret].
    apply (counted_loop_counts
             (fun i => evaluated_before size time_delay i * w)
             (fun i => evaluated_before size time_delay i * v)
             (fun i => i) 1 0 size);
      [lia|intros k; apply Z.ltb_lt|unfold INT32_MAX; lia|lia|].
    intros i d Hi _.
    rewrite evaluated_before_step by lia.
    eapply counts_eq.
    + eapply counts_bind; [|intros; counts_line].
      apply counts_nld_query; [unfold INT32_MAX; lia|done|lia
                              |unfold INT32_MAX; lia].
    + fold w. lia.
    + fold v. lia.
    + lia.
  - cbv beta. rewrite trip_count_unit.
    replace (0 + 1 * Z.max 0 (size - 0)) with size by lia.
    rewrite <- Hall. lia.
  - cbv beta. rewrite trip_count_unit.
    replace (0 + 1 * Z.max 0 (size - 0)) with size by lia.
    rewrite <- Hall. lia.
  - rewrite trip_count_unit. lia.
Qed.

Lemma counts_nld_average (min_distances : list Z) (size : Z) :
  size <= INT32_MAX -> counts (nld_average min_distances size) 0 0 0.
Proof.
  intros Hsize. unfold nld_average. eapply counts_eq.
  - eapply counts_bind.
    + apply (counted_loop_counts_const 0 0 0 1 0 size);
        [lia|intros k; apply Z.ltb_lt|lia|lia|].
      intros i sum _ _. eapply counts_eq; [counts_line|lia..].
    + intros p. destruct (size =? 0); [apply counts_fail|apply counts_ret].
  - lia.
  - lia.
  - lia.
Qed.

Lemma eligible_pairs_range (size time_delay : Z) :
  1 <= time_delay -> 0 <= size ->
  0 <= eligible_pairs size time_delay <= size * size.
Proof.
  intros Hd Hsize. unfold eligible_pairs. cbv zeta.
  set (n := Z.max 0 (size - time_delay)).
  assert (0 <= n <= size - 1 \/ n = 0) by lia. nia.
Qed.

(** X7.  The counters the specialised routine reports.  For a
    well-formed signal with [size >= 1] vectors of [embedding_dim]
    components, [embedding_dim] a positive multiple of 8 and
    [time_delay >= 1] (sizes representable), the search evaluates
    [pairs = n * (n + 1)] ordered pairs of vectors, where
    [n = max 0 (size - time_delay)], and the routine returns with
    [total_instructions = embedding_dim * (size + pairs)],
    [simd_instructions = (embedding_dim / 8) * (2 * size + 6 * pairs)],
    and [size * embedding_dim + size] memory accesses counted; no counter
    wraps.  So the share of vector instructions it reports never exceeds
    3/4. *)
Theorem nld_reported_counts (clock : nat -> Z) (junk : Z)
    (junk_double : float) (signal : q15_vector_t.t)
    (embedding_dim time_delay result : Z) (g : globals) :
  well_formed signal ->
  8 <= embedding_dim -> embedding_dim mod 8 = 0 ->
  1 <= time_delay ->
  q15_vector_t.length signal <= INT32_MAX ->
  let size := q15_vector_t.length signal - (embedding_dim - 1) * time_delay in
  1 <= size ->
  size * embedding_dim <= INT32_MAX ->
  let pairs := eligible_pairs size time_delay in
  exists metrics r g',
    nld_compute_lyapunov_q15 clock junk junk_double signal embedding_dim
      time_delay result g
    = Returns ((metrics, r), g')
    /\ total_instructions metrics = embedding_dim * (size + pairs)
    /\ simd_instructions metrics
       = embedding_dim / 8 * (2 * size + 6 * pairs)
    /\ g_memory_accesses g' = size * embedding_dim + size
    /\ 4 * simd_instructions metrics <= 3 * total_instructions metrics.
Proof.
  intros Hwf Hdim Hmod Hdelay Hlen size Hsize Hcells pairs.
  destruct (nld_returns clock junk junk_double signal embedding_dim
              time_delay result g)
    as (metrics & r & g' & Hrun & _);
    [exact Hwf|exact Hdim|exact Hmod|lia|exact Hlen|exact Hsize|exact Hcells|].
  exists metrics, r, g'. split; [exact Hrun|].
  unfold INT32_MAX in *.
  assert (Hpss : phase_space_size signal embedding_dim time_delay = size).
  { destruct Hwf as [Hl _].
    apply phase_space_size_valid; unfold is_int, INT32_MAX in *;
      change (2 ^ 64) with 18446744073709551616; fold size;
      solve [lia|unfold size in *; nia]. }
  unfold nld_compute_lyapunov_q15 in Hrun. rewrite Hpss in Hrun.
  destruct (prologue_resets clock
              (fun start =>
                 phase_space <- nld_reconstruct junk signal embedding_dim
                                  time_delay size ;;
                 min_distances <- nld_min_distances junk phase_space
                                    embedding_dim time_delay size ;;
                 result <- nld_average min_distances size ;;
                 end_ <- mach_absolute_time clock ;;
                 metrics <- get_performance_metrics clock junk_double ;;
                 ret (set_processing_time_ms metrics
                        (double_of_uint64 (uint64_of (end_ - start))
                           / 1000000)%float, result)) g)
    as (g0 & Hpro & Ht0 & Hs0 & Hm0).
  rewrite Hpro in Hrun. clear Hpro.
  assert (Hg0 : counters_in_range g0).
  { unfold counters_in_range. rewrite Ht0, Hs0, Hm0. lia. }
  apply bind_inv in Hrun as (ps & g1 & Hrec & Hrun).
  apply bind_inv in Hrun as (d & g2 & Hmin & Hrun).
  apply bind_inv in Hrun as (r' & g3 & Havg & Hrun).
  assert (Hsize_max : 0 <= size <= INT32_MAX)
    by (unfold INT32_MAX; nia).
  assert (Hdim_max : embedding_dim <= INT32_MAX - 7).
  { pose proof (Z.div_mod embedding_dim 8 ltac:(lia)).
    unfold INT32_MAX. nia. }
  pose proof (counts_nld_reconstruct junk signal embedding_dim time_delay
                size ltac:(unfold INT32_MAX in *; lia) Hsize_max
                _ _ _ Hg0 Hrec) as ->.
  pose proof (counts_nld_min_distances junk ps embedding_dim time_delay size
                Hdim_max Hdelay Hsize_max _ _ _ (bump_in_range _ _ _ _) Hmin)
    as ->.
  pose proof (counts_nld_average d size (proj2 Hsize_max) _ _ _
                (bump_in_range _ _ _ _) Havg) as Hg3.
  rewrite !bump_bump in Hg3.
  destruct (epilogue_reports clock junk_double
              (uint64_of (clock (S (ticks g)))) r' g3)
    as (m' & g'' & Hepi & Ht & Hs & Hm).
  rewrite Hepi in Hrun. injection Hrun as <- <- <-.
  rewrite Ht, Hs, Hm, Hg3. unfold bump.
  cbn [g_total_instructions g_simd_instructions g_memory_accesses].
  rewrite Ht0, Hs0, Hm0. fold pairs.
  assert (Htrip : trip_count 8 0 embedding_dim = embedding_dim / 8).
  { unfold trip_count.
    replace (embedding_dim - 0 + 8 - 1) with (7 + embedding_dim) by lia.
    pose proof (Z.div_mod embedding_dim 8 ltac:(lia)) as Hdm.
    rewrite Hmod, Z.add_0_r in Hdm. rewrite Hdm at 1.
    rewrite Z.mul_comm, Z.div_add by lia.
    change (7 / 8) with 0.
    assert (0 <= embedding_dim / 8) by (apply Z.div_pos; lia). lia. }
  rewrite Htrip.
  pose proof (Z.div_mod embedding_dim 8 ltac:(lia)) as Hdm.
  rewrite Hmod, Z.add_0_r in Hdm.
  set (chunks := embedding_dim / 8) in *.
  pose proof (eligible_pairs_range size time_delay Hdelay ltac:(lia))
    as Hpairs. fold pairs in Hpairs.
  (* no counter wraps *)
  assert (Hsmall : size <= 268435455) by nia.
  assert (Hwork : 0 <= pairs * embedding_dim <= 268435455 * 2147483647)
    by nia.
  assert (Hchunks : 0 <= chunks) by lia.
  assert (Hsc : 0 <= size * chunks <= 2147483647) by nia.
  assert (Hpc : 0 <= pairs * chunks <= pairs * embedding_dim) by nia.
  rewrite !uint64_of_small
    by (change (2 ^ 64) with 18446744073709551616; nia).
  repeat split; nia.
Qed.

(** X6 at [two_steps] with [embedding_dim = 8], [time_delay = 1]: three
    vectors, three pairs. *)
Lemma cmsis_reported_counts_witness :
  exists metrics g',
    cmsis_compute_lyapunov_q15 millisecond_clock 0 0 two_steps 8 1 7
      fresh_globals
    = Returns ((metrics, 0), g')
    /\ total_instructions metrics = 72
    /\ simd_instructions metrics = 15
    /\ g_memory_accesses g' = 27
    /\ 8 * simd_instructions metrics <= 5 * total_instructions metrics.
Proof.
  apply (cmsis_reported_counts millisecond_clock 0 0%float two_steps 8 1 7
           fresh_globals).
  - split; [reflexivity|]. repeat constructor; unfold is_int16; lia.
  - lia.
  - vm_compute. discriminate.
  - lia.
  - vm_compute. discriminate.
  - simpl. lia.
  - vm_compute. discriminate.
Defined.

(** X7 at [two_steps] with [embedding_dim = 8], [time_delay = 1]: three
    vectors, six ordered pairs. *)
Lemma nld_reported_counts_witness :
  exists metrics r g',
    nld_compute_lyapunov_q15 millisecond_clock 0 0 two_steps 8 1 7
      fresh_globals
    = Returns ((metrics, r), g')
    /\ total_instructions metrics = 72
    /\ simd_instructions metrics = 42
    /\ g_memory_accesses g' = 27
    /\ 4 * simd_instructions metrics <= 3 * total_instructions metrics.
Proof.
  apply (nld_reported_counts millisecond_clock 0 0%float two_steps 8 1 7
           fresh_globals).
  - split; [reflexivity|]. repeat constructor; unfold is_int16; lia.
  - lia.
  - reflexivity.
  - lia.
  - vm_compute. discriminate.
  - simpl. lia.
  - vm_compute. discriminate.
Defined.

(** ** The table of the generic routine *)

Lemma shiftr_15_small (z : Z) :
  0 <= z < 2 ^ 30 -> int16_of (Z.shiftr z 15) = z / 32768.
Proof.
  intros Hz. rewrite Z.shiftr_div_pow2 by lia. change (2 ^ 15) with 32768.
  apply int16_of_small. unfold is_int16.
  change (2 ^ 30) with 1073741824 in Hz.
  Z.to_euclidean_division_equations. lia.
Qed.

Lemma shiftr_15_large (z : Z) :
  2 ^ 30 <= z <= INT32_MAX -> int16_of (Z.shiftr z 15) = z / 32768 - 65536.
Proof.
  intros Hz. rewrite Z.shiftr_div_pow2 by lia. change (2 ^ 15) with 32768.
  unfold INT32_MAX in Hz. change (2 ^ 30) with 1073741824 in Hz.
  assert (32768 <= z / 32768 <= 65535)
    by (Z.to_euclidean_division_equations; lia).
  unfold int16_of, wrap. change (2 ^ (16 - 1)) with 32768.
  change (2 ^ 16) with 65536.
  replace (z / 32768 + 32768) with (z / 32768 - 32768 + 1 * 65536) by lia.
  rewrite Z.mod_add by lia. rewrite Z.mod_small by lia. lia.
Qed.

(** X8.  The table of the generic routine.  With rows of [embedding_dim]
    cells and [size * size] representable, the distance loops return a
    table of [size * size] cells, and for every pair [i < j] whose
    differences fit the 16-bit lanes and whose exact squared distance
    fits 32 bits, the cell [i * size + j] holds that distance shifted
    right by 15 and narrowed to 16 bits without saturation: the quotient
    by 32768 for a distance below 2^30, and that quotient less 65536, a
    negative number, from 2^30 on. *)
Theorem cmsis_distance_table (junk : Z) (rows : list (list Z))
    (embedding_dim size : Z) (g : globals) :
  is_int (embedding_dim - 8) -> embedding_dim <= INT32_MAX ->
  size * size <= INT32_MAX ->
  (forall i, 0 <= i < size ->
     exists row, rows !! Z.to_nat i = Some row
                 /\ length row = Z.to_nat embedding_dim) ->
  exists distances g',
    cmsis_distances junk rows embedding_dim size g
    = Returns (distances, g')
    /\ Z.of_nat (length distances) = size * size
    /\ forall i j a b,
         0 <= i -> i < j < size ->
         rows !! Z.to_nat i = Some a -> rows !! Z.to_nat j = Some b ->
         fits a b ->
         exists d,
           distances !! Z.to_nat (i * size + j) = Some d
           /\ (exact_sqdist a b < 2 ^ 30 -> d = exact_sqdist a b / 32768)
           /\ (2 ^ 30 <= exact_sqdist a b ->
               d = exact_sqdist a b / 32768 - 65536 /\ d < 0).
Proof.
  intros Hdim8 Hdim Hsq Hrows.
  destruct (cmsis_distances_spec junk rows embedding_dim size g
              Hdim8 Hdim Hsq Hrows) as (distances & g' & Hrun & Hlen & Hcells).
  exists distances, g'. split; [exact Hrun|]. split; [nia|].
  intros i j a b Hi Hj Ha Hb Hfits.
  exists (int16_of (Z.shiftr (exact_sqdist a b) 15)).
  split; [by apply Hcells|].
  assert (H0 : 0 <= exact_sqdist a b)
    by apply sumZ_nonneg, squares_nonneg.
  destruct Hfits as [_ Hmax]. split.
  - intros Hsmall. apply shiftr_15_small. lia.
  - intros Hlarge. rewrite shiftr_15_large by lia. split; [done|].
    unfold INT32_MAX in Hmax. Z.to_euclidean_division_equations. lia.
Qed.

(** X8 at the two rows of [step_signal] with [embedding_dim = 8]. *)
Lemma cmsis_distance_table_witness :
  exists distances g',
    cmsis_distances 0
      [[16384; 0; 0; 0; 0; 0; 0; 0]; [0; 0; 0; 0; 0; 0; 0; 0]] 8 2
      fresh_globals
    = Returns (distances, g')
    /\ Z.of_nat (length distances) = 2 * 2
    /\ forall i j a b,
         0 <= i -> i < j < 2 ->
         [[16384; 0; 0; 0; 0; 0; 0; 0]; [0; 0; 0; 0; 0; 0; 0; 0]]
           !! Z.to_nat i = Some a ->
         [[16384; 0; 0; 0; 0; 0; 0; 0]; [0; 0; 0; 0; 0; 0; 0; 0]]
           !! Z.to_nat j = Some b ->
         fits a b ->
         exists d,
           distances !! Z.to_nat (i * 2 + j) = Some d
           /\ (exact_sqdist a b < 2 ^ 30 -> d = exact_sqdist a b / 32768)
           /\ (2 ^ 30 <= exact_sqdist a b ->
               d = exact_sqdist a b / 32768 - 65536 /\ d < 0).
Proof.
  apply (cmsis_distance_table 0
           [[16384; 0; 0; 0; 0; 0; 0; 0]; [0; 0; 0; 0; 0; 0; 0; 0]] 8 2
           fresh_globals).
  - unfold is_int. lia.
  - unfold INT32_MAX. lia.
  - unfold INT32_MAX. lia.
  - intros i Hi. assert (i = 0 \/ i = 1) as [-> | ->] by lia;
      eexists; split; reflexivity.
Defined.
